(** * Translation engine of the Anthropic-to-Gemini gateway

    A shallow embedding of the translation core of the proxy
    (request converter with its schema sanitiser, response converter,
    stream converter and thought-signature service), followed by the
    properties established about it. *)

From Stdlib Require Import String Ascii List ZArith Bool Lia Permutation.
From Stdlib Require Import DecimalString DecimalNat DecimalFacts.
From Stdlib Require QArith_base.
From stdpp Require Import base gmap strings list.
Import ListNotations.

Local Open Scope string_scope.
Local Open Scope list_scope.

(* ===================================================================== *)
(** * JSON values as the JavaScript runtime sees them                     *)
(* ===================================================================== *)

Module Json.

(** A value produced by [JSON.parse].  An object is carried by its own
    entries in enumeration order (what [Object.entries] returns); keys
    of a real object are pairwise distinct.  Numbers are the integers
    that JavaScript represents exactly: the code below only tests a
    number for truthiness or renders it with [String()], for which see
    [numberToString]. *)
Unset Elimination Schemes.
Inductive JSON : Type :=
| JNull
| JBool (b : bool)
| JNum (n : Z)
| JStr (s : string)
| JArr (elems : list JSON)
| JObj (entries : list (string * JSON)).
Set Elimination Schemes.

Definition Obj : Type := list (string * JSON).

(** Induction with the hypothesis available on every element of an
    array and on every value of an object. *)
Definition JSON_ind (P : JSON -> Prop)
    (HNull : P JNull)
    (HBool : forall b, P (JBool b))
    (HNum : forall n, P (JNum n))
    (HStr : forall s, P (JStr s))
    (HArr : forall elems, Forall P elems -> P (JArr elems))
    (HObj : forall entries, Forall (fun kv => P (snd kv)) entries -> P (JObj entries))
  : forall v, P v :=
  fix go (v : JSON) : P v :=
    match v with
    | JNull => HNull
    | JBool b => HBool b
    | JNum n => HNum n
    | JStr s => HStr s
    | JArr elems =>
        HArr elems
          ((fix all (l : list JSON) : Forall P l :=
              match l with
              | [] => @List.Forall_nil _ P
              | x :: l' => @List.Forall_cons _ P x l' (go x) (all l')
              end) elems)
    | JObj entries =>
        HObj entries
          ((fix all (l : list (string * JSON)) : Forall (fun kv => P (snd kv)) l :=
              match l with
              | [] => @List.Forall_nil _ _
              | kv :: l' => @List.Forall_cons _ (fun kv => P (snd kv)) kv l' (go (snd kv)) (all l')
              end) entries)
    end.

(** [ToBoolean]: [null], [false], [0] and the empty string are falsy. *)
Definition truthy (v : JSON) : bool :=
  match v with
  | JNull => false
  | JBool b => b
  | JNum n => negb (n =? 0)%Z
  | JStr s => negb (s =? "")
  | JArr _ | JObj _ => true
  end.

(** Truthiness of a property read, where [None] is [undefined]. *)
Definition truthyProp (v : option JSON) : bool :=
  match v with Some x => truthy x | None => false end.

(** [value && typeof value === "object"]. *)
Definition isObjectLike (v : JSON) : bool :=
  match v with JArr _ | JObj _ => true | _ => false end.

(** Property read [o.key] on a plain object: [None] is [undefined]. *)
Fixpoint get (key : string) (o : Obj) : option JSON :=
  match o with
  | [] => None
  | (k, v) :: rest => if k =? key then Some v else get key rest
  end.

(** Property write [o.key = v] for a key that is not [__proto__]: the
    value is replaced in place when the key exists, and the entry is
    appended otherwise. *)
Fixpoint set (key : string) (v : JSON) (o : Obj) : Obj :=
  match o with
  | [] => [(key, v)]
  | (k, x) :: rest => if k =? key then (k, v) :: rest else (k, x) :: set key v rest
  end.

(** Computed write [o[key] = v] on an object literal.  Writing
    [__proto__] runs the inherited setter, which creates no own
    property. *)
Definition assign (key : string) (v : JSON) (o : Obj) : Obj :=
  if key =? "__proto__" then o else set key v o.

(** Decimal rendering of an array index. *)
Definition indexKey (i : nat) : string :=
  NilZero.string_of_uint (Nat.to_uint i).

Fixpoint indexed (i : nat) (elems : list JSON) : Obj :=
  match elems with
  | [] => []
  | x :: rest => (indexKey i, x) :: indexed (S i) rest
  end.

(** [Object.entries] of an object or an array. *)
Definition entriesOf (v : JSON) : Obj :=
  match v with
  | JObj es => es
  | JArr xs => indexed 0 xs
  | _ => []
  end.

Definition joinWith (sep : string) (l : list string) : string :=
  match l with
  | [] => ""
  | s :: rest => fold_left (fun acc x => (acc ++ sep ++ x)%string) rest s
  end.

(** Decimal rendering of an integer. *)
Definition decimal (n : Z) : string := NilZero.string_of_int (Z.to_int n).

Section Rendering.
(** [Number::toString] on the integers beyond 2^53 in magnitude, where
    it gives the digits of the shortest decimal that reads back as the
    same double, in exponent form from 10^21 on. *)
Variable Number_toString : Z -> string.

(** [Number::toString]: up to 2^53 in magnitude the rendering of an
    integer is its decimal rendering. *)
Definition numberToString (n : Z) : string :=
  if (Z.abs n <=? 9007199254740992)%Z then decimal n else Number_toString n.

(** [String(v)], as a template literal computes it too; [None] stands
    for the [TypeError] it raises.  An array joins the renderings of its
    elements with a comma, [null] elements rendering empty.  An object
    renders as [Object.prototype.toString] does, unless it has an own
    [toString] member: JSON cannot make that member callable, and the
    inherited [valueOf] returns the object, so the conversion raises. *)
Fixpoint toString (v : JSON) : option string :=
  match v with
  | JNull => Some "null"
  | JBool true => Some "true"
  | JBool false => Some "false"
  | JNum n => Some (numberToString n)
  | JStr s => Some s
  | JArr xs =>
      match (fix each (l : list JSON) : option (list string) :=
               match l with
               | [] => Some []
               | x :: rest =>
                   match (match x with JNull => Some "" | _ => toString x end), each rest with
                   | Some s, Some more => Some (s :: more)
                   | _, _ => None
                   end
               end) xs with
      | Some rendered => Some (joinWith "," rendered)
      | None => None
      end
  | JObj o =>
      if existsb (fun kv => fst kv =? "toString") o then None else Some "[object Object]"
  end.
End Rendering.

End Json.
Import Json.

(* ===================================================================== *)
(** * Schema sanitiser (request-converter.ts)                             *)
(* ===================================================================== *)

Module SchemaSanitizer.

Definition ALLOWED_SCHEMA_KEYS : list string :=
  ["type"; "description"; "properties"; "items"; "required"; "enum";
   "format"; "nullable"].

Definition allowed (key : string) : bool :=
  existsb (String.eqb key) ALLOWED_SCHEMA_KEYS.

(** [a ?? b]: the left operand unless it is [null] or [undefined]. *)
Definition nullish (a b : option JSON) : option JSON :=
  match a with
  | None | Some JNull => b
  | Some _ => a
  end.

(** A loop whose body may raise: it is left at the first raise. *)
Fixpoint loop {A S : Type} (body : S -> A -> option S) (items : list A) (st : S)
    : option S :=
  match items with
  | [] => Some st
  | item :: rest =>
      match body st item with
      | Some st' => loop body rest st'
      | None => None
      end
  end.

Section Loops.
(** The recursive call, abstracted so that the loops can be stated on
    their own; [None] is a raise. *)
Variable sanitize : JSON -> option JSON.

(** The inner loop building [props] from [Object.entries(value)]. *)
Definition sanitizeProperties (value : JSON) : option Obj :=
  match value with
  | JObj ps =>
      loop (fun props kv =>
              match sanitize (snd kv) with
              | Some propSchema => Some (assign (fst kv) propSchema props)
              | None => None
              end) ps []
  | JArr xs =>
      match loop (fun st x =>
                    match sanitize x with
                    | Some propSchema =>
                        Some (S (fst st), assign (indexKey (fst st)) propSchema (snd st))
                    | None => None
                    end) xs (0, []) with
      | Some st => Some (snd st)
      | None => None
      end
  | _ => Some []
  end.

(** One iteration of the loop over [Object.entries(schema)]. *)
Definition copyEntry (sanitized : Obj) (kv : string * JSON) : option Obj :=
  let key := fst kv in
  let value := snd kv in
  if negb (allowed key) then Some sanitized
  else if (key =? "properties") && isObjectLike value then
    match sanitizeProperties value with
    | Some props => Some (set "properties" (JObj props) sanitized)
    | None => None
    end
  else if (key =? "items") && isObjectLike value then
    match sanitize value with
    | Some items => Some (set "items" items sanitized)
    | None => None
    end
  else Some (set key value sanitized).

Definition copyAllowed (entries : Obj) : option Obj :=
  loop copyEntry entries [].
End Loops.

(** State of the loop over the alternatives of the combinator. *)
Record FlattenState : Type := mkFlatten {
  enumValues : list JSON;
  canEnum : bool;
  sanitizedSoFar : Obj
}.

(** Own properties of an alternative that is an object or an array; an
    array has none of [const], [enum], [type]. *)
Definition optionProps (alt : JSON) : option Obj :=
  match alt with
  | JObj opt => Some opt
  | JArr _ => Some []
  | _ => None
  end.

(** [v === "null"] for a property read [v]. *)
Definition isNullName (v : option JSON) : bool :=
  match v with Some (JStr s) => s =? "null" | _ => false end.

(** [schema.anyOf ?? schema.oneOf ?? schema.allOf]. *)
Definition pickCombinator (schema : Obj) : option JSON :=
  nullish (get "anyOf" schema) (nullish (get "oneOf" schema) (get "allOf" schema)).

Section WithNumbers.
Variable Number_toString : Z -> string.

(** One iteration of the loop over the alternatives; [String(opt.const)]
    may raise. *)
Definition flattenOption (st : FlattenState) (alt : JSON) : option FlattenState :=
  match optionProps alt with
  | None => Some st
  | Some opt =>
      match get "const" opt with
      | Some c =>
          match toString Number_toString c with
          | Some rendered =>
              Some (mkFlatten (enumValues st ++ [JStr rendered]) (canEnum st)
                              (sanitizedSoFar st))
          | None => None
          end
      | None =>
          match get "enum" opt with
          | Some (JArr members) =>
              Some (mkFlatten (enumValues st ++ members) (canEnum st) (sanitizedSoFar st))
          | _ =>
              if isNullName (get "type" opt)
              then Some (mkFlatten (enumValues st) (canEnum st)
                                   (set "nullable" (JBool true) (sanitizedSoFar st)))
              else Some (mkFlatten (enumValues st) false (sanitizedSoFar st))
          end
      end
  end.

(** The post-processing step on the original [schema]. *)
Definition flattenCombinators (schema sanitized : Obj) : option Obj :=
  match pickCombinator schema with
  | Some (JArr (o :: os)) =>
      match loop flattenOption (o :: os) (mkFlatten [] true sanitized) with
      | Some st =>
          Some (if canEnum st && negb (Nat.eqb (length (enumValues st)) 0) then
                  let withEnum := set "enum" (JArr (enumValues st)) (sanitizedSoFar st) in
                  if negb (truthyProp (get "type" withEnum))
                  then set "type" (JStr "string") withEnum
                  else withEnum
                else sanitizedSoFar st)
      | None => None
      end
  | _ => Some sanitized
  end.

(** [sanitizeSchema]; [None] is the [TypeError] of a [String(opt.const)]
    somewhere below. *)
Fixpoint sanitizeSchema (schema : JSON) : option JSON :=
  match schema with
  | JObj entries =>
      match copyAllowed sanitizeSchema entries with
      | Some sanitized =>
          match flattenCombinators entries sanitized with
          | Some flattened => Some (JObj flattened)
          | None => None
          end
      | None => None
      end
  | _ => Some schema
  end.
End WithNumbers.

End SchemaSanitizer.

(* ===================================================================== *)
(** * Gemini and Anthropic messages (models/gemini.ts, models/anthropic.ts) *)
(* ===================================================================== *)

Module Gemini.

Inductive Role : Type := User | Model.

(** [GeminiPart]: the four shapes of the union, told apart in the code
    by ["text" in part] and ["functionCall" in part].  An optional field
    that is absent is [None]. *)
Inductive Part : Type :=
| TextPart (text : string) (thought : option bool) (thoughtSignature : option string)
| InlineDataPart (mimeType data : string) (thoughtSignature : option string)
| FunctionCallPart (name : string) (args : option JSON) (thoughtSignature : option string)
| FunctionResponsePart (name : string) (response : JSON).

Record Content : Type := mkContent { role : Role; parts : list Part }.

Definition thoughtSignatureOf (p : Part) : option string :=
  match p with
  | TextPart _ _ sig | InlineDataPart _ _ sig | FunctionCallPart _ _ sig => sig
  | FunctionResponsePart _ _ => None
  end.

Definition isFunctionCall (p : Part) : bool :=
  match p with FunctionCallPart _ _ _ => true | _ => false end.

(** Truthiness of an optional string: present and not empty. *)
Definition nonEmpty (s : option string) : bool :=
  match s with Some x => negb (x =? "") | None => false end.

Definition isTrue (b : option bool) : bool :=
  match b with Some true => true | _ => false end.

Record UsageMetadata : Type := mkUsage {
  promptTokenCount : option Z;
  candidatesTokenCount : option Z;
  thoughtsTokenCount : option Z
}.

Record Candidate : Type := mkCandidate {
  content : option Content;
  finishReason : option string
}.

Record GenerateContentResponse : Type := mkResponse {
  candidates : option (list Candidate);
  usageMetadata : option UsageMetadata
}.

End Gemini.

Module Anthropic.

Inductive Role : Type := user | assistant.

Inductive ImageSource : Type :=
| Base64Source (media_type data : string)
| UrlSource (url : string).

(** Request-side content blocks.  [OtherBlock] is a block whose [type]
    is none of the four the converter switches on. *)
Inductive ContentBlockParam : Type :=
| TextBlockParam (text : string)
| ImageBlockParam (source : ImageSource)
| ToolUseBlock (id name : string) (input : JSON)
| ToolResultBlockParam (tool_use_id : string) (content : option ToolResultContent)
                       (is_error : option bool)
| OtherBlock (type : string)
with ToolResultContent : Type :=
| ResultString (s : string)
| ResultBlocks (blocks : list ContentBlockParam).

Inductive MessageContent : Type :=
| ContentString (s : string)
| ContentBlocks (blocks : list ContentBlockParam).

Record Message : Type := mkMessage { role : Role; content : MessageContent }.

Inductive StopReason : Type := end_turn | max_tokens | stop_sequence | tool_use.

(** Response-side content blocks. *)
Inductive ContentBlock : Type :=
| TextBlock (text : string)
| ToolUse (id name : string) (input : JSON)
| ThinkingBlock (thinking signature : string)
| RedactedThinkingBlock (data : string).

Record Usage : Type := mkUsage { input_tokens : Z; output_tokens : Z }.

Record MessagesResponse : Type := mkMessagesResponse {
  id : string;
  response_content : list ContentBlock;
  stop_reason : StopReason;
  usage : Usage
}.

End Anthropic.

Record ModelCapabilities : Type := mkCapabilities {
  geminiModel : string;
  supportsThinking : bool;
  isGemini3 : bool;
  defaultThinkingLevel : option string;
  maxOutputTokens : Z
}.

(* ===================================================================== *)
(** * Thought-signature service (services/thought-signature.ts)           *)
(* ===================================================================== *)

Module ThoughtSignature.
Import Gemini.

Definition DUMMY_THOUGHT_SIGNATURE : string := "skip_thought_signature_validator".

Record Service : Type := mkService {
  store : gmap string string;
  lastTextSignature : option string
}.

Definition fresh : Service := mkService ∅ None.

(** The template [`${turnIndex}:${partIndex}`]. *)
Definition key (turnIndex partIndex : nat) : string :=
  (indexKey turnIndex ++ ":" ++ indexKey partIndex)%string.

Definition store_signature (turnIndex partIndex : nat) (signature : string)
    (svc : Service) : Service :=
  mkService (<[key turnIndex partIndex := signature]> (store svc)) (lastTextSignature svc).

Definition storeTextSignature (signature : string) (svc : Service) : Service :=
  mkService (store svc) (Some signature).

Definition getSignature (turnIndex partIndex : nat) (svc : Service) : option string :=
  store svc !! key turnIndex partIndex.

Definition getLastTextSignature (svc : Service) : option string :=
  lastTextSignature svc.

Definition clear (svc : Service) : Service := fresh.

(** [if (sig) this.storeTextSignature(sig)], as both converters write
    it. *)
Definition storeIfPresent (sig : option string) (svc : Service) : Service :=
  match sig with
  | Some s => if negb (s =? "") then storeTextSignature s svc else svc
  | None => svc
  end.

(** Inner loop of [extractFromContents], from part index [p] on. *)
Fixpoint extractParts (t p : nat) (ps : list Part) (svc : Service) : Service :=
  match ps with
  | [] => svc
  | part :: rest =>
      let svc' :=
        match thoughtSignatureOf part with
        | Some sig =>
            if negb (sig =? "") then
              let stored := store_signature t p sig svc in
              match part with
              | TextPart _ _ _ => storeTextSignature sig stored
              | _ => stored
              end
            else svc
        | None => svc
        end in
      extractParts t (S p) rest svc'
  end.

Fixpoint extractTurns (t : nat) (contents : list Content) (svc : Service) : Service :=
  match contents with
  | [] => svc
  | turn :: rest =>
      extractTurns (S t) rest
        (match role turn with
         | Model => extractParts t 0 (parts turn) svc
         | User => svc
         end)
  end.

Definition extractFromContents (contents : list Content) (svc : Service) : Service :=
  extractTurns 0 contents svc.

(** Inner loop of [ensureSignatures] over the parts of turn [t], from
    part index [p] on, with the flag [firstFCFound]. *)
Fixpoint ensureParts (svc : Service) (t p : nat) (firstFCFound : bool)
    (ps : list Part) : list Part :=
  match ps with
  | [] => []
  | FunctionCallPart name args sig :: rest =>
      (if firstFCFound then FunctionCallPart name args sig
       else if negb (nonEmpty sig) then
         FunctionCallPart name args
           (Some (default DUMMY_THOUGHT_SIGNATURE (getSignature t p svc)))
       else FunctionCallPart name args sig)
      :: ensureParts svc t (S p) true rest
  | part :: rest => part :: ensureParts svc t (S p) firstFCFound rest
  end.

Fixpoint ensureTurns (svc : Service) (t : nat) (contents : list Content) : list Content :=
  match contents with
  | [] => []
  | turn :: rest =>
      (match role turn with
       | Model => mkContent Model (ensureParts svc t 0 false (parts turn))
       | User => turn
       end) :: ensureTurns svc (S t) rest
  end.

(** The array is updated in place and returned; its parts are taken to
    be distinct objects, as the converter builds them. *)
Definition ensureSignatures (svc : Service) (contents : list Content)
    (isGemini3 : bool) : list Content :=
  if negb isGemini3 then contents else ensureTurns svc 0 contents.

End ThoughtSignature.

(* ===================================================================== *)
(** * Request converter (converters/request-converter.ts)                 *)
(* ===================================================================== *)

Module RequestConverter.
Import Anthropic.

(** The line feed used by [join("\n")]. *)
Definition LF : string := String (ascii_of_nat 10) EmptyString.

(** [buildToolNameMap]: the map is cleared, then every [tool_use] block
    of every message with block content is recorded, in history order. *)
Definition recordToolUse (toolNameMap : gmap string string) (block : ContentBlockParam)
    : gmap string string :=
  match block with
  | ToolUseBlock id name _ => <[id := name]> toolNameMap
  | _ => toolNameMap
  end.

Definition scanMessage (toolNameMap : gmap string string) (msg : Message)
    : gmap string string :=
  match content msg with
  | ContentString _ => toolNameMap
  | ContentBlocks blocks => fold_left recordToolUse blocks toolNameMap
  end.

Definition buildToolNameMap (messages : list Message) : gmap string string :=
  fold_left scanMessage messages ∅.

(** [this.toolNameMap.get(toolUseId) ?? toolUseId]. *)
Definition resolveToolName (toolNameMap : gmap string string) (toolUseId : string) : string :=
  default toolUseId (toolNameMap !! toolUseId).

Definition textOf (block : ContentBlockParam) : option string :=
  match block with TextBlockParam text => Some text | _ => None end.

Definition extractToolResultText (content : option ToolResultContent) : string :=
  match content with
  | None => ""
  | Some (ResultString s) => s
  | Some (ResultBlocks blocks) => joinWith LF (omap textOf blocks)
  end.

Definition convertToolResult (toolNameMap : gmap string string)
    (tool_use_id : string) (content : option ToolResultContent) (is_error : option bool)
    : Gemini.Content :=
  let responseData :=
    if Gemini.isTrue is_error
    then JObj [("error", JStr (extractToolResultText content))]
    else JObj [("result", JStr (extractToolResultText content))] in
  Gemini.mkContent Gemini.User
    [Gemini.FunctionResponsePart (resolveToolName toolNameMap tool_use_id) responseData].

Definition convertImageBlock (source : ImageSource) : Gemini.Part :=
  match source with
  | Base64Source media_type data => Gemini.InlineDataPart media_type data None
  | UrlSource url => Gemini.TextPart ("[Image: " ++ url ++ "]")%string None None
  end.

(** The three arrays filled by the loop of [convertSingleMessage]. *)
Record Collected : Type := mkCollected {
  textAndImageParts : list Gemini.Part;
  toolUseParts : list Gemini.Part;
  toolResultContents : list Gemini.Content
}.

Definition mapRole (r : Role) : Gemini.Role :=
  match r with assistant => Gemini.Model | user => Gemini.User end.

Definition isModel (r : Gemini.Role) : bool :=
  match r with Gemini.Model => true | Gemini.User => false end.

(** One iteration of the [switch (block.type)] loop. *)
Definition collectBlock (role : Gemini.Role) (capabilities : ModelCapabilities)
    (toolNameMap : gmap string string) (acc : Collected) (block : ContentBlockParam)
    : Collected :=
  match block with
  | TextBlockParam text =>
      mkCollected (textAndImageParts acc ++ [Gemini.TextPart text None None])
                  (toolUseParts acc) (toolResultContents acc)
  | ImageBlockParam source =>
      mkCollected (textAndImageParts acc ++ [convertImageBlock source])
                  (toolUseParts acc) (toolResultContents acc)
  | ToolUseBlock _ name input =>
      let signature :=
        if isModel role && isGemini3 capabilities
           && Nat.eqb (length (toolUseParts acc)) 0
        then Some ThoughtSignature.DUMMY_THOUGHT_SIGNATURE
        else None in
      mkCollected (textAndImageParts acc)
                  (toolUseParts acc ++ [Gemini.FunctionCallPart name (Some input) signature])
                  (toolResultContents acc)
  | ToolResultBlockParam tool_use_id content is_error =>
      mkCollected (textAndImageParts acc) (toolUseParts acc)
                  (toolResultContents acc
                     ++ [convertToolResult toolNameMap tool_use_id content is_error])
  | OtherBlock _ => acc
  end.

Definition convertSingleMessage (toolNameMap : gmap string string)
    (message : Message) (capabilities : ModelCapabilities) : list Gemini.Content :=
  let role := mapRole (role message) in
  match content message with
  | ContentString s => [Gemini.mkContent role [Gemini.TextPart s None None]]
  | ContentBlocks blocks =>
      let acc := fold_left (collectBlock role capabilities toolNameMap) blocks
                           (mkCollected [] [] []) in
      let results :=
        if isModel role then
          let allParts := textAndImageParts acc ++ toolUseParts acc in
          if Nat.ltb 0 (length allParts) then [Gemini.mkContent Gemini.Model allParts] else []
        else
          (if Nat.ltb 0 (length (textAndImageParts acc))
           then [Gemini.mkContent Gemini.User (textAndImageParts acc)] else [])
          ++ toolResultContents acc in
      if Nat.eqb (length results) 0
      then [Gemini.mkContent role [Gemini.TextPart "" None None]]
      else results
  end.

Definition convertMessages (thoughtSignatures : ThoughtSignature.Service)
    (toolNameMap : gmap string string)
    (messages : list Message) (capabilities : ModelCapabilities) : list Gemini.Content :=
  let contents :=
    fold_left (fun contents message =>
                 contents ++ convertSingleMessage toolNameMap message capabilities)
              messages [] in
  if isGemini3 capabilities
  then ThoughtSignature.ensureSignatures thoughtSignatures contents true
  else contents.

(** The router's sequence for one client request: a fresh service, the
    pre-pass [buildToolNameMap], then the conversion of the messages. *)
Definition translateMessages (messages : list Message) (capabilities : ModelCapabilities)
    : list Gemini.Content :=
  convertMessages ThoughtSignature.fresh (buildToolNameMap messages) messages capabilities.

End RequestConverter.

(* ===================================================================== *)
(** * Response converter (converters/response-converter.ts)               *)
(* ===================================================================== *)

Module ResponseConverter.
Import Gemini Anthropic.

(** State threaded through [convertParts]: the blocks pushed so far, the
    signature service, and how many identifiers have been drawn. *)
Record Acc : Type := mkAcc {
  blocks : list ContentBlock;
  thoughtSignatures : ThoughtSignature.Service;
  drawn : nat
}.

Section WithIds.
(** [generateToolUseId] draws random identifiers; [ids k] is the
    [k]-th one drawn. *)
Variable ids : nat -> string.

(** One iteration of the loop of [convertParts]. *)
Definition convertPart (acc : Acc) (part : Part) : Acc :=
  match part with
  | TextPart text thought sig =>
      if (text =? "") && nonEmpty sig then
        mkAcc (blocks acc) (ThoughtSignature.storeIfPresent sig (thoughtSignatures acc)) (drawn acc)
      else
        let pushed :=
          if isTrue thought then blocks acc ++ [ThinkingBlock text (default "" sig)]
          else if negb (text =? "") then blocks acc ++ [TextBlock text]
          else blocks acc in
        mkAcc pushed (ThoughtSignature.storeIfPresent sig (thoughtSignatures acc)) (drawn acc)
  | FunctionCallPart name args sig =>
      mkAcc (blocks acc ++ [ToolUse (ids (drawn acc)) name (default (JObj []) args)])
            (ThoughtSignature.storeIfPresent sig (thoughtSignatures acc))
            (S (drawn acc))
  | InlineDataPart _ _ _ | FunctionResponsePart _ _ => acc
  end.

Definition convertParts (ps : list Part) (svc : ThoughtSignature.Service)
    : list ContentBlock * ThoughtSignature.Service :=
  let acc := fold_left convertPart ps (mkAcc [] svc 0) in
  (if Nat.eqb (length (blocks acc)) 0 then [TextBlock ""] else blocks acc,
   thoughtSignatures acc).
End WithIds.

Definition isToolUse (b : ContentBlock) : bool :=
  match b with ToolUse _ _ _ => true | _ => false end.

Definition convertFinishReason (reason : option string) (content : list ContentBlock)
    : StopReason :=
  let hasToolUse := existsb isToolUse content in
  if hasToolUse then tool_use
  else match reason with
       | Some r =>
           if r =? "STOP" then end_turn
           else if r =? "MAX_TOKENS" then max_tokens
           else end_turn
       | None => end_turn
       end.

Definition convertUsage (response : GenerateContentResponse) : Usage :=
  let meta := usageMetadata response in
  mkUsage (default 0%Z (meta ≫= promptTokenCount))
          (default 0%Z (meta ≫= candidatesTokenCount)
           + default 0%Z (meta ≫= thoughtsTokenCount))%Z.

Definition buildEmptyResponse (messageId : string) : MessagesResponse :=
  mkMessagesResponse messageId [TextBlock ""] end_turn (mkUsage 0 0).

(** [convert]: the first candidate, if any, is translated. *)
Definition convert (ids : nat -> string) (messageId : string)
    (response : GenerateContentResponse) (svc : ThoughtSignature.Service)
    : MessagesResponse * ThoughtSignature.Service :=
  match candidates response ≫= head with
  | None => (buildEmptyResponse messageId, svc)
  | Some candidate =>
      let '(content, svc') :=
        convertParts ids (default [] (Gemini.parts <$> Gemini.content candidate)) svc in
      (mkMessagesResponse messageId content
         (convertFinishReason (finishReason candidate) content)
         (convertUsage response),
       svc')
  end.

End ResponseConverter.

(* ===================================================================== *)
(** * Stream converter (converters/stream-converter.ts)                   *)
(* ===================================================================== *)

Module StreamConverter.
Import Gemini.

Inductive BlockType : Type := text | thinking | tool_use.

Inductive Delta : Type :=
| text_delta (text : string)
| input_json_delta (input : JSON)   (* sent as [JSON.stringify input] *)
| thinking_delta (thinking : string)
| signature_delta (signature : string).

Inductive StartedBlock : Type :=
| StartText
| StartThinking
| StartToolUse (id name : string).

(** The events of the outbound stream, in the payload they carry. *)
Inductive Event : Type :=
| message_start (input_tokens : Z)
| ping
| content_block_start (index : nat) (content_block : StartedBlock)
| content_block_delta (index : nat) (delta : Delta)
| content_block_stop (index : nat)
| message_delta (stop_reason : Anthropic.StopReason) (output_tokens : Z)
| message_stop
| error (message : string).

(** An entry of the [parts] array of a parsed chunk: a part of a declared
    shape; an object without a [text] member whose [functionCall] member
    is [null], on which [handleToolUse] raises a [TypeError] when it
    reads [functionCall.name]; or a value that is no object ([null], a
    number, a string, a boolean), on which [processPart] raises a
    [TypeError] before any effect. *)
Inductive RawPart : Type :=
| Shaped (part : Part)
| NullCall (thoughtSignature : option string)
| NotAnObject.

(** A parsed chunk: [parts] is [chunk.candidates?.[0]?.content?.parts]. *)
Record Chunk : Type := mkChunk {
  usageMetadata : option UsageMetadata;
  parts : option (list RawPart)
}.

(** What [processBufferedJson] is handed: text that [JSON.parse] rejects,
    or a chunk. *)
Inductive Candidate : Type :=
| Unparseable
| Parsed (chunk : Chunk).

(** One [reader.read()] of the upstream body: the candidates that
    [processBuffer] carves out of the buffer after this read, or a
    rejection. *)
Inductive ReadResult : Type :=
| ReadData (decoded : list Candidate)
| ReadRejected (message : string).

(** The converter's fields, the controller's queue and whether the
    controller was closed. *)
Record State : Type := mkState {
  blockIndex : nat;
  messageStarted : bool;
  currentBlockType : option BlockType;
  currentThinkingSignature : string;
  hasEmittedToolUse : bool;
  inputTokens : Z;
  outputTokens : Z;
  thoughtSignatures : ThoughtSignature.Service;
  drawn : nat;
  enqueued : list Event;
  closed : bool
}.

Definition initial (svc : ThoughtSignature.Service) : State :=
  mkState 0 false None "" false 0 0 svc 0 [] false.

(** Completion of a call that may raise: the state reached either way. *)
Inductive Outcome : Type :=
| Done (st : State)
| Threw (st : State).

Definition emitEvent (e : Event) (st : State) : State :=
  mkState (blockIndex st) (messageStarted st) (currentBlockType st)
          (currentThinkingSignature st) (hasEmittedToolUse st)
          (inputTokens st) (outputTokens st) (thoughtSignatures st) (drawn st)
          (enqueued st ++ [e]) (closed st).

Definition setBlock (index : nat) (type : option BlockType) (signature : string)
    (st : State) : State :=
  mkState index (messageStarted st) type signature (hasEmittedToolUse st)
          (inputTokens st) (outputTokens st) (thoughtSignatures st) (drawn st)
          (enqueued st) (closed st).

Definition setMessageStarted (st : State) : State :=
  mkState (blockIndex st) true (currentBlockType st)
          (currentThinkingSignature st) (hasEmittedToolUse st)
          (inputTokens st) (outputTokens st) (thoughtSignatures st) (drawn st)
          (enqueued st) (closed st).

Definition setUsage (input output : Z) (st : State) : State :=
  mkState (blockIndex st) (messageStarted st) (currentBlockType st)
          (currentThinkingSignature st) (hasEmittedToolUse st)
          input output (thoughtSignatures st) (drawn st)
          (enqueued st) (closed st).

Definition setService (svc : ThoughtSignature.Service) (st : State) : State :=
  mkState (blockIndex st) (messageStarted st) (currentBlockType st)
          (currentThinkingSignature st) (hasEmittedToolUse st)
          (inputTokens st) (outputTokens st) svc (drawn st)
          (enqueued st) (closed st).

(** [generateToolUseId()] followed by [this.hasEmittedToolUse = true]. *)
Definition drawToolUse (st : State) : State :=
  mkState (blockIndex st) (messageStarted st) (currentBlockType st)
          (currentThinkingSignature st) true
          (inputTokens st) (outputTokens st) (thoughtSignatures st) (S (drawn st))
          (enqueued st) (closed st).

Definition close (st : State) : State :=
  mkState (blockIndex st) (messageStarted st) (currentBlockType st)
          (currentThinkingSignature st) (hasEmittedToolUse st)
          (inputTokens st) (outputTokens st) (thoughtSignatures st) (drawn st)
          (enqueued st) true.

Definition isType (t : BlockType) (current : option BlockType) : bool :=
  match current, t with
  | Some text, text | Some thinking, thinking | Some tool_use, tool_use => true
  | _, _ => false
  end.

Definition closeCurrentBlock (st : State) : State :=
  match currentBlockType st with
  | None => st
  | Some _ =>
      let st1 :=
        if isType thinking (currentBlockType st)
           && negb (currentThinkingSignature st =? "")
        then emitEvent (content_block_delta (blockIndex st)
                          (signature_delta (currentThinkingSignature st))) st
        else st in
      let st2 := emitEvent (content_block_stop (blockIndex st1)) st1 in
      setBlock (S (blockIndex st2)) None "" st2
  end.

Definition handleTextDelta (txt : string) (st : State) : State :=
  let st1 :=
    if negb (isType text (currentBlockType st)) then
      let c := closeCurrentBlock st in
      let c := emitEvent (content_block_start (blockIndex c) StartText) c in
      setBlock (blockIndex c) (Some text) (currentThinkingSignature c) c
    else st in
  emitEvent (content_block_delta (blockIndex st1) (text_delta txt)) st1.

Definition handleThinkingDelta (thought : string) (signature : option string)
    (st : State) : State :=
  let st1 :=
    if negb (isType thinking (currentBlockType st)) then
      let c := closeCurrentBlock st in
      let c := emitEvent (content_block_start (blockIndex c) StartThinking) c in
      setBlock (blockIndex c) (Some thinking) "" c
    else st in
  let st2 :=
    match signature with
    | Some sig =>
        if negb (sig =? "")
        then setBlock (blockIndex st1) (currentBlockType st1) sig st1
        else st1
    | None => st1
    end in
  if negb (thought =? "")
  then emitEvent (content_block_delta (blockIndex st2) (thinking_delta thought)) st2
  else st2.

Section WithIds.
(** [ids k] is the [k]-th identifier drawn by [generateToolUseId]. *)
Variable ids : nat -> string.

Definition handleToolUse (name : string) (args : option JSON) (st : State) : State :=
  let st1 := closeCurrentBlock st in
  let toolUseId := ids (drawn st1) in
  let st2 := drawToolUse st1 in
  let st3 := emitEvent (content_block_start (blockIndex st2)
                          (StartToolUse toolUseId name)) st2 in
  let st4 := emitEvent (content_block_delta (blockIndex st3)
                          (input_json_delta (default (JObj []) args))) st3 in
  let st5 := emitEvent (content_block_stop (blockIndex st4)) st4 in
  setBlock (S (blockIndex st5)) None (currentThinkingSignature st5) st5.

(** [handleToolUse] on [null], up to the raise: the open block is
    closed, an identifier is drawn and [hasEmittedToolUse] is set before
    the argument of the first [emitEvent] is evaluated. *)
Definition handleNullToolUse (st : State) : State :=
  drawToolUse (closeCurrentBlock st).

Definition processPart (raw : RawPart) (st : State) : Outcome :=
  match raw with
  | NotAnObject => Threw st
  | NullCall sig =>
      Threw (handleNullToolUse
               (setService (ThoughtSignature.storeIfPresent sig (thoughtSignatures st)) st))
  | Shaped part =>
      let sig := thoughtSignatureOf part in
      let st1 :=
        setService (ThoughtSignature.storeIfPresent sig (thoughtSignatures st)) st in
      match part with
      | TextPart txt thought _ =>
          if (txt =? "") && nonEmpty sig then Done st1
          else if isTrue thought then Done (handleThinkingDelta txt sig st1)
          else if negb (txt =? "") then Done (handleTextDelta txt st1)
          else Done st1
      | FunctionCallPart name args _ => Done (handleToolUse name args st1)
      | InlineDataPart _ _ _ | FunctionResponsePart _ _ => Done st1
      end
  end.

(** The [for ... of] loop over the parts, left at the first raise. *)
Fixpoint processParts (ps : list RawPart) (st : State) : Outcome :=
  match ps with
  | [] => Done st
  | raw :: rest =>
      match processPart raw st with
      | Done st' => processParts rest st'
      | Threw st' => Threw st'
      end
  end.

Definition emitMessageStart (promptTokens : option Z) (st : State) : State :=
  emitEvent ping (emitEvent (message_start (default 0%Z promptTokens)) st).

Definition processChunk (chunk : Chunk) (st : State) : Outcome :=
  let st1 :=
    if negb (messageStarted st)
    then setMessageStarted
           (emitMessageStart (usageMetadata chunk ≫= promptTokenCount) st)
    else st in
  let st2 :=
    match usageMetadata chunk with
    | Some meta =>
        setUsage (default (inputTokens st1) (promptTokenCount meta))
                 (default 0%Z (candidatesTokenCount meta)
                  + default 0%Z (thoughtsTokenCount meta))%Z st1
    | None => st1
    end in
  match parts chunk with
  | None => Done st2
  | Some ps => processParts ps st2
  end.

(** [JSON.parse] and [processChunk] sit in one [try] whose [catch]
    is empty. *)
Definition processBufferedJson (candidate : Candidate) (st : State) : State :=
  match candidate with
  | Unparseable => st
  | Parsed chunk =>
      match processChunk chunk st with
      | Done st' => st'
      | Threw st' => st'
      end
  end.

Definition processBuffer (decoded : list Candidate) (st : State) : State :=
  fold_left (fun st candidate => processBufferedJson candidate st) decoded st.

Definition emitMessageEnd (st : State) : State :=
  let st1 :=
    if Nat.eqb (blockIndex st) 0 && negb (messageStarted st) then
      emitEvent (content_block_stop 0)
        (emitEvent (content_block_start 0 StartText)
           (emitMessageStart (Some 0%Z) st))
    else st in
  let stopReason :=
    if hasEmittedToolUse st1 then Anthropic.tool_use else Anthropic.end_turn in
  emitEvent message_stop
    (emitEvent (message_delta stopReason (outputTokens st1)) st1).

(** The [while (true)] loop of [pull] inside its [try]/[catch]:
    [reads] are the results of the successive [reader.read()] calls
    before [done], [leftover] what remains in the buffer at [done]. *)
Fixpoint pull (reads : list ReadResult) (leftover : option Candidate) (st : State)
    : State :=
  match reads with
  | [] =>
      let st1 :=
        match leftover with
        | Some candidate => processBufferedJson candidate st
        | None => st
        end in
      close (emitMessageEnd (closeCurrentBlock st1))
  | ReadRejected message :: _ => close (emitEvent (error message) st)
  | ReadData decoded :: rest => pull rest leftover (processBuffer decoded st)
  end.

Definition convertStream (svc : ThoughtSignature.Service)
    (reads : list ReadResult) (leftover : option Candidate) : State :=
  pull reads leftover (initial svc).
End WithIds.

End StreamConverter.

(* ===================================================================== *)
(** * Buffering of the upstream body (converters/stream-converter.ts)     *)
(* ===================================================================== *)

(** JavaScript strings as the buffering code sees them: sequences of
    UTF-16 code units. *)
Module Text.

Definition Str : Type := list N.

(** The code units of an ASCII literal. *)
Definition units (s : string) : Str :=
  List.map N_of_ascii (list_ascii_of_string s).

Definition LF : N := 10.
Definition OPEN_BRACE : N := 123.
Definition CLOSE_BRACE : N := 125.

(** The white space and line terminators that [trim] removes. *)
Definition isWhiteSpace (c : N) : bool :=
  ((9 <=? c) && (c <=? 13) || (c =? 32) || (c =? 160) || (c =? 5760)
   || (8192 <=? c) && (c <=? 8202) || (c =? 8232) || (c =? 8233) || (c =? 8239)
   || (c =? 8287) || (c =? 12288) || (c =? 65279))%N.

Fixpoint trimStart (s : Str) : Str :=
  match s with
  | c :: rest => if isWhiteSpace c then trimStart rest else s
  | [] => []
  end.

Definition trimEnd (s : Str) : Str := rev (trimStart (rev s)).

Definition trim (s : Str) : Str := trimEnd (trimStart s).

Fixpoint startsWith (searchString s : Str) : bool :=
  match searchString, s with
  | [], _ => true
  | a :: searchString', b :: s' => (a =? b)%N && startsWith searchString' s'
  | _ :: _, [] => false
  end.

Definition endsWith (searchString s : Str) : bool :=
  startsWith (rev searchString) (rev s).

(** [a === b]. *)
Definition same (a b : Str) : bool := bool_decide (a = b).

(** [s.split(separator)] for a separator of one code unit. *)
Fixpoint split (separator : N) (s : Str) : list Str :=
  match s with
  | [] => [[]]
  | c :: rest =>
      if (c =? separator)%N then [] :: split separator rest
      else match split separator rest with
           | first :: more => (c :: first) :: more
           | [] => [[c]]
           end
  end.

(** [s.substring(start)] and [s.substring(start, end)] for
    [0 <= start <= end]. *)
Definition substringFrom (start : nat) (s : Str) : Str := drop start s.

Definition substring (start finish : nat) (s : Str) : Str :=
  take (finish - start) (drop start s).

End Text.

Module StreamBuffer.
Import Text.

(** The cleaning at the head of [processBufferedJson]: the text handed
    to [JSON.parse], if any. *)
Definition cleaned (jsonStr : Str) : option Str :=
  let text := trim jsonStr in
  let text := if startsWith (units ",") text then trim (substringFrom 1 text) else text in
  if same text [] || same text (units "[") || same text (units "]")
  then None else Some text.

(** The loop of [extractJsonFromArray]: the depth, the start of the
    object being read ([-1] when none) and the texts handed on so far. *)
Record Scan : Type := mkScan {
  depth : Z;
  start : Z;
  handed : list Str
}.

Definition scanChar (inner : Str) (st : Scan) (i : nat) (char : N) : Scan :=
  if (char =? OPEN_BRACE)%N then
    mkScan (depth st + 1) (if (depth st =? 0)%Z then Z.of_nat i else start st) (handed st)
  else if (char =? CLOSE_BRACE)%N then
    let depth' := (depth st - 1)%Z in
    if (depth' =? 0)%Z && (0 <=? start st)%Z then
      mkScan depth' (-1)
             (handed st ++ [trim (substring (Z.to_nat (start st)) (i + 1) inner)])
    else mkScan depth' (start st) (handed st)
  else st.

Fixpoint scanFrom (inner : Str) (i : nat) (rest : Str) (st : Scan) : Scan :=
  match rest with
  | [] => st
  | char :: rest' => scanFrom inner (S i) rest' (scanChar inner st i char)
  end.

(** [extractJsonFromArray]: the texts handed to [processBufferedJson]. *)
Definition extractJsonFromArray (text : Str) : list Str :=
  let inner := if startsWith (units "[") text then substringFrom 1 text else text in
  let inner := if endsWith (units "]") inner
               then substring 0 (length inner - 1) inner else inner in
  handed (scanFrom inner 0 inner (mkScan 0 (-1) [])).

(** The loop of [findLastCompleteJson]: the depth and [lastIndex]. *)
Fixpoint lastCompleteFrom (i : nat) (rest : Str) (depth lastIndex : Z) : Z :=
  match rest with
  | [] => lastIndex
  | char :: rest' =>
      if (char =? OPEN_BRACE)%N then lastCompleteFrom (S i) rest' (depth + 1) lastIndex
      else if (char =? CLOSE_BRACE)%N then
        lastCompleteFrom (S i) rest' (depth - 1)
                         (if (depth - 1 =? 0)%Z then Z.of_nat i + 1 else lastIndex)
      else lastCompleteFrom (S i) rest' depth lastIndex
  end.

Definition findLastCompleteJson (buffer : Str) : Z :=
  lastCompleteFrom 0 buffer 0 (-1).

(** One iteration of the loop of [processBuffer] over the lines: the
    texts handed to [processBufferedJson]. *)
Definition processLine (line : Str) : list Str :=
  let trimmedLine := trim line in
  if same trimmedLine [] then []
  else if startsWith (units "data: ") trimmedLine then
    let jsonStr := trim (substringFrom 6 trimmedLine) in
    if same jsonStr [] then [] else [jsonStr]
  else if startsWith (units "event:") trimmedLine then []
  else if same trimmedLine (units "[") || same trimmedLine (units "]")
          || same trimmedLine (units ",") then []
  else if startsWith (units "[") trimmedLine then extractJsonFromArray trimmedLine
  else [trimmedLine].

(** [processBuffer]: the texts handed to [JSON.parse], in order. *)
Definition processBuffer (buffer : Str) : list Str :=
  omap cleaned (List.concat (List.map processLine (split LF buffer))).

Section Reading.
(** [JSON.parse] followed by the reading of the value as a chunk;
    [None] when it throws, or gives [null]. *)
Variable JSON_parse : Str -> option StreamConverter.Chunk.

Definition candidate (text : Str) : StreamConverter.Candidate :=
  match JSON_parse text with
  | Some chunk => StreamConverter.Parsed chunk
  | None => StreamConverter.Unparseable
  end.

(** The loop of [pull] over the decoded values of the fulfilled reads:
    what each read hands to [processBufferedJson], and the buffer left
    at the end. *)
Fixpoint readAll (buffer : Str) (values : list Str)
    : list (list StreamConverter.Candidate) * Str :=
  match values with
  | [] => ([], buffer)
  | value :: rest =>
      let buffer := buffer ++ value in
      let decoded := List.map candidate (processBuffer buffer) in
      let lastCompleteIndex := findLastCompleteJson buffer in
      let buffer :=
        if (0 <=? lastCompleteIndex)%Z
        then substringFrom (Z.to_nat lastCompleteIndex) buffer else buffer in
      let '(more, final) := readAll buffer rest in
      (decoded :: more, final)
  end.

(** What is done with the buffer when the body ends. *)
Definition leftover (buffer : Str) : option StreamConverter.Candidate :=
  if same (trim buffer) [] then None else candidate <$> cleaned buffer.

(** [convertStream] on a body whose reads are all fulfilled and decode
    to [values]. *)
Definition convertStream (ids : nat -> string) (svc : ThoughtSignature.Service)
    (values : list Str) : StreamConverter.State :=
  let '(reads, final) := readAll [] values in
  StreamConverter.convertStream ids svc (List.map StreamConverter.ReadData reads)
                                (leftover final).
End Reading.

End StreamBuffer.

(* ===================================================================== *)
(** * Model configuration (models/config.ts)                              *)
(* ===================================================================== *)

Module ModelConfig.

Definition DEFAULT_GEMINI_MODEL : string := "gemini-3-flash-preview".

Definition GEMINI_3_FLASH_CAPS : ModelCapabilities :=
  mkCapabilities "gemini-3-flash-preview" true true (Some "HIGH") 65536.

Definition GEMINI_31_PRO_CAPS : ModelCapabilities :=
  mkCapabilities "gemini-3.1-pro-preview" true true (Some "HIGH") 65536.

(** The own properties of [MODEL_REGISTRY], in the order they are
    written. *)
Definition MODEL_REGISTRY : list (string * ModelCapabilities) :=
  [("gemini-3.1-pro", GEMINI_31_PRO_CAPS);
   ("gemini-3.1-pro-preview", GEMINI_31_PRO_CAPS);
   ("gemini-3.0-flash", GEMINI_3_FLASH_CAPS);
   ("gemini-3-flash-preview", GEMINI_3_FLASH_CAPS);
   ("gemini-2.5-pro", mkCapabilities "gemini-2.5-pro-preview-06-05" true false None 65536);
   ("gemini-flash-latest", mkCapabilities "gemini-flash-latest" true false None 65536);
   ("gemini-2.0-flash", mkCapabilities "gemini-2.0-flash" false false None 8192);
   ("claude-sonnet-4-6", GEMINI_3_FLASH_CAPS);
   ("claude-sonnet-4-20250514", GEMINI_3_FLASH_CAPS);
   ("claude-opus-4-6", GEMINI_3_FLASH_CAPS);
   ("claude-opus-4-20250414", GEMINI_3_FLASH_CAPS);
   ("claude-3-5-sonnet-20241022", GEMINI_3_FLASH_CAPS);
   ("claude-3-5-sonnet-latest", GEMINI_3_FLASH_CAPS);
   ("claude-3-5-haiku-20241022", GEMINI_3_FLASH_CAPS);
   ("claude-3-5-haiku-latest", GEMINI_3_FLASH_CAPS);
   ("claude-haiku-4-5-20251001", GEMINI_3_FLASH_CAPS);
   ("claude-3-opus-20240229", GEMINI_3_FLASH_CAPS);
   ("claude-3-sonnet-20240229", GEMINI_3_FLASH_CAPS);
   ("claude-3-haiku-20240307", GEMINI_3_FLASH_CAPS)].

(** The names that every object literal inherits from
    [Object.prototype]: [MODEL_REGISTRY[name]] is a function, or the
    prototype itself, for each of them. *)
Definition OBJECT_PROTOTYPE_KEYS : list string :=
  ["constructor"; "__defineGetter__"; "__defineSetter__"; "hasOwnProperty";
   "__lookupGetter__"; "__lookupSetter__"; "isPrototypeOf"; "propertyIsEnumerable";
   "toString"; "valueOf"; "__proto__"; "toLocaleString"].

(** [haystack.includes(needle)]. *)
Fixpoint includes (needle haystack : string) : bool :=
  String.prefix needle haystack
  || match haystack with
     | EmptyString => false
     | String _ rest => includes needle rest
     end.

Definition buildFallback (geminiModel : string) : ModelCapabilities :=
  let isGemini3 := includes "gemini-3" geminiModel || includes "gemini-3." geminiModel in
  mkCapabilities geminiModel true isGemini3
                 (if isGemini3 then Some "HIGH" else None) 65536.

(** What [resolve] returns: capabilities, or the inherited member that
    the registry lookup found under the requested name. *)
Inductive Resolved : Type :=
| Capabilities (capabilities : ModelCapabilities)
| Inherited (property : string).

(** [MODEL_REGISTRY[requestedModel]], own properties first. *)
Definition registryLookup (requestedModel : string) : option Resolved :=
  match List.find (fun kv => fst kv =? requestedModel) MODEL_REGISTRY with
  | Some kv => Some (Capabilities (snd kv))
  | None =>
      if existsb (String.eqb requestedModel) OBJECT_PROTOTYPE_KEYS
      then Some (Inherited requestedModel)
      else None
  end.

Definition resolve (overrides : gmap string string) (requestedModel : string) : Resolved :=
  let overriddenGeminiModel := overrides !! requestedModel in
  if Gemini.nonEmpty overriddenGeminiModel then
    let target := default "" overriddenGeminiModel in
    match List.find (fun c => geminiModel c =? target) (List.map snd MODEL_REGISTRY) with
    | Some found => Capabilities found
    | None => Capabilities (buildFallback target)
    end
  else
    match registryLookup requestedModel with
    | Some registered => registered
    | None =>
        if String.prefix "claude-" requestedModel
        then Capabilities (buildFallback DEFAULT_GEMINI_MODEL)
        else Capabilities (buildFallback requestedModel)
    end.

Definition listModels : list string :=
  List.filter (String.prefix "gemini-") (List.map fst MODEL_REGISTRY).

End ModelConfig.

(* ===================================================================== *)
(** * Request assembly (request-converter.ts, models)                     *)
(* ===================================================================== *)

(** The parts of [AnthropicMessagesRequest] beside the messages.  Token
    counts are integers; [temperature] and [top_p] are rationals, which
    the converter copies and never inspects. *)
Module MessagesRequest.

(** [AnthropicTool]. *)
Record Tool : Type := mkTool {
  name : string;
  description : option string;
  input_schema : JSON
}.

(** [AnthropicToolChoice]: its [type] and its [name]. *)
Record ToolChoice : Type := mkToolChoice {
  choice_type : string;
  choice_name : option string
}.

(** [AnthropicThinkingConfig]: its [type] and its [budget_tokens]. *)
Record ThinkingConfig : Type := mkThinking {
  thinking_type : string;
  budget_tokens : option Z
}.

(** [system]: a string, or text blocks given by their [text]. *)
Inductive SystemPrompt : Type :=
| SystemString (s : string)
| SystemBlocks (texts : list string).

Record t : Type := mkRequest {
  model : string;
  messages : list Anthropic.Message;
  max_tokens : option Z;
  system : option SystemPrompt;
  temperature : option QArith_base.Q;
  top_p : option QArith_base.Q;
  top_k : option Z;
  stop_sequences : option (list string);
  stream : option bool;
  tools : option (list Tool);
  tool_choice : option ToolChoice;
  thinking : option ThinkingConfig
}.

End MessagesRequest.

(** [GeminiGenerateContentRequest] and what it is made of. *)
Module GenerateContentRequest.

Record FunctionDeclaration : Type := mkDeclaration {
  name : string;
  description : option string;
  parameters : JSON
}.

(** An entry of [tools]: function declarations, or one of the two native
    web tools the router adds. *)
Inductive Tool : Type :=
| FunctionDeclarations (functionDeclarations : list FunctionDeclaration)
| GoogleSearch
| UrlContext.

(** [functionCallingConfig]. *)
Record ToolConfig : Type := mkToolConfig {
  mode : string;
  allowedFunctionNames : option (list string)
}.

Record ThinkingConfig : Type := mkThinkingConfig {
  includeThoughts : bool;
  thinkingBudget : option Z;
  thinkingLevel : option string
}.

Record GenerationConfig : Type := mkGenerationConfig {
  temperature : option QArith_base.Q;
  topP : option QArith_base.Q;
  topK : option Z;
  maxOutputTokens : option Z;
  stopSequences : option (list string);
  thinkingConfig : ThinkingConfig
}.

Record SafetySetting : Type := mkSafety { category : string; threshold : string }.

Record t : Type := mkRequest {
  contents : list Gemini.Content;
  systemInstruction : option Gemini.Content;
  tools : option (list Tool);
  toolConfig : option ToolConfig;
  generationConfig : GenerationConfig;
  safetySettings : list SafetySetting
}.

End GenerateContentRequest.

Module RequestAssembly.
Module G := GenerateContentRequest.

Definition convertSystemPrompt (system : MessagesRequest.SystemPrompt) : Gemini.Content :=
  match system with
  | MessagesRequest.SystemString s =>
      Gemini.mkContent Gemini.User [Gemini.TextPart s None None]
  | MessagesRequest.SystemBlocks texts =>
      Gemini.mkContent Gemini.User
        (List.map (fun text => Gemini.TextPart text None None) texts)
  end.

Section WithNumbers.
Variable Number_toString : Z -> string.

(** [tools.map(...)], left at the first schema on which
    [sanitizeSchema] raises. *)
Fixpoint convertDeclarations (tools : list MessagesRequest.Tool)
    : option (list G.FunctionDeclaration) :=
  match tools with
  | [] => Some []
  | tool :: more =>
      match SchemaSanitizer.sanitizeSchema Number_toString
              (MessagesRequest.input_schema tool) with
      | Some parameters =>
          match convertDeclarations more with
          | Some declarations =>
              Some (G.mkDeclaration (MessagesRequest.name tool)
                                    (MessagesRequest.description tool)
                                    parameters :: declarations)
          | None => None
          end
      | None => None
      end
  end.

Definition convertTools (tools : list MessagesRequest.Tool) : option (list G.Tool) :=
  match convertDeclarations tools with
  | Some declarations => Some [G.FunctionDeclarations declarations]
  | None => None
  end.
End WithNumbers.

(** The [switch (choice.type)], then the spread of
    [allowedFunctionNames] when it is set. *)
Definition convertToolChoice (choice : MessagesRequest.ToolChoice) : G.ToolConfig :=
  let type := MessagesRequest.choice_type choice in
  if type =? "auto" then G.mkToolConfig "AUTO" None
  else if type =? "any" then G.mkToolConfig "ANY" None
  else if type =? "none" then G.mkToolConfig "NONE" None
  else if type =? "tool" then
    G.mkToolConfig "ANY"
      (match MessagesRequest.choice_name choice with
       | Some name => if negb (name =? "") then Some [name] else None
       | None => None
       end)
  else G.mkToolConfig "AUTO" None.

Definition budgetToLevel (budget : Z) : string :=
  if (budget <=? 1024)%Z then "MINIMAL"
  else if (budget <=? 4096)%Z then "LOW"
  else if (budget <=? 16384)%Z then "MEDIUM"
  else "HIGH".

(** [thinking?.type === "disabled"]. *)
Definition isDisabled (thinking : option MessagesRequest.ThinkingConfig) : bool :=
  match thinking with
  | Some config => MessagesRequest.thinking_type config =? "disabled"
  | None => false
  end.

(** [thinking?.budget_tokens] when it is truthy. *)
Definition givenBudget (thinking : option MessagesRequest.ThinkingConfig) : option Z :=
  match thinking ≫= MessagesRequest.budget_tokens with
  | Some budget => if (budget =? 0)%Z then None else Some budget
  | None => None
  end.

Definition buildThinkingConfig (thinking : option MessagesRequest.ThinkingConfig)
    (capabilities : ModelCapabilities) : G.ThinkingConfig :=
  if isGemini3 capabilities then
    G.mkThinkingConfig true None
      (Some (if isDisabled thinking then "MINIMAL"
             else match givenBudget thinking with
                  | Some budget => budgetToLevel budget
                  | None => default "HIGH" (defaultThinkingLevel capabilities)
                  end))
  else if supportsThinking capabilities then
    G.mkThinkingConfig true
      (if isDisabled thinking then Some 0%Z else givenBudget thinking)
      None
  else G.mkThinkingConfig true None None.

Definition buildGenerationConfig (request : MessagesRequest.t)
    (capabilities : ModelCapabilities) : G.GenerationConfig :=
  G.mkGenerationConfig
    (MessagesRequest.temperature request)
    (MessagesRequest.top_p request)
    (MessagesRequest.top_k request)
    ((fun max_tokens => Z.min max_tokens (maxOutputTokens capabilities))
       <$> MessagesRequest.max_tokens request)
    (MessagesRequest.stop_sequences request)
    (buildThinkingConfig (MessagesRequest.thinking request) capabilities).

Definition SAFETY_SETTINGS : list G.SafetySetting :=
  [G.mkSafety "HARM_CATEGORY_HARASSMENT" "BLOCK_NONE";
   G.mkSafety "HARM_CATEGORY_HATE_SPEECH" "BLOCK_NONE";
   G.mkSafety "HARM_CATEGORY_SEXUALLY_EXPLICIT" "BLOCK_NONE";
   G.mkSafety "HARM_CATEGORY_DANGEROUS_CONTENT" "BLOCK_NONE"].

(** Truthiness of [request.system]: an array is truthy even when
    empty, a string only when not empty. *)
Definition givenSystem (system : option MessagesRequest.SystemPrompt)
    : option MessagesRequest.SystemPrompt :=
  match system with
  | Some (MessagesRequest.SystemString s) => if s =? "" then None else system
  | _ => system
  end.

(** [convert], with the service and the tool-name map that the converter
    object holds; [None] when [convertTools] raises. *)
Definition convert (Number_toString : Z -> string)
    (thoughtSignatures : ThoughtSignature.Service)
    (toolNameMap : gmap string string)
    (request : MessagesRequest.t) (capabilities : ModelCapabilities) : option G.t :=
  let contents :=
    RequestConverter.convertMessages thoughtSignatures toolNameMap
      (MessagesRequest.messages request) capabilities in
  let systemInstruction :=
    convertSystemPrompt <$> givenSystem (MessagesRequest.system request) in
  match (match MessagesRequest.tools request with
         | Some (tool :: more) =>
             match convertTools Number_toString (tool :: more) with
             | Some tools => Some (Some tools)
             | None => None
             end
         | _ => Some None
         end) with
  | Some tools =>
      Some (G.mkRequest contents systemInstruction tools
              (convertToolChoice <$> MessagesRequest.tool_choice request)
              (buildGenerationConfig request capabilities)
              SAFETY_SETTINGS)
  | None => None
  end.

End RequestAssembly.

(* ===================================================================== *)
(** * Errors (utils/errors.ts)                                            *)
(* ===================================================================== *)

Module Errors.

(** A [ProxyError] with the [name] its constructor sets; [upstreamStatus]
    is the extra field of an [UpstreamError]. *)
Record ProxyError : Type := mkProxyError {
  name : string;
  message : string;
  statusCode : Z;
  errorType : string;
  upstreamStatus : option Z
}.

Definition toResponse (e : ProxyError) : JSON :=
  JObj [("type", JStr "error");
        ("error", JObj [("type", JStr (errorType e)); ("message", JStr (message e))])].

Definition InvalidRequestError (message : string) : ProxyError :=
  mkProxyError "InvalidRequestError" message 400 "invalid_request_error" None.

Definition AuthenticationError (message : string) : ProxyError :=
  mkProxyError "AuthenticationError" message 401 "authentication_error" None.

Definition NotFoundError (message : string) : ProxyError :=
  mkProxyError "NotFoundError" message 404 "not_found_error" None.

Definition RateLimitError (message : string) : ProxyError :=
  mkProxyError "RateLimitError" message 429 "rate_limit_error" None.

Definition UpstreamError (message : string) (upstreamStatus : Z) : ProxyError :=
  let statusCode := if (500 <=? upstreamStatus)%Z then 502%Z else upstreamStatus in
  mkProxyError "UpstreamError" message statusCode "api_error" (Some upstreamStatus).

Definition OverloadedError (message : string) : ProxyError :=
  mkProxyError "OverloadedError" message 529 "overloaded_error" None.

(** [v?.key] for a key that no prototype defines ([error], [message],
    [messages], [max_tokens]): only an object can have it. *)
Definition member (key : string) (v : option JSON) : option JSON :=
  match v with
  | Some (JObj o) => get key o
  | _ => None
  end.

Section Parsing.
Variable Number_toString : Z -> string.
(** [JSON.parse], [None] when it throws. *)
Variable JSON_parse : string -> option JSON.

(** The message read from the upstream body: [parsed?.error?.message ??
    body], or the body when it is no JSON. *)
Definition upstreamMessage (body : string) : JSON :=
  match JSON_parse body with
  | Some parsed =>
      match member "message" (member "error" (Some parsed)) with
      | None | Some JNull => JStr body
      | Some message => message
      end
  | None => JStr body
  end.

(** [mapGeminiError], [None] when rendering the message raises. *)
Definition mapGeminiError (status : Z) (body : string) : option ProxyError :=
  message ← toString Number_toString (upstreamMessage body);
  Some
    (if (status =? 400)%Z then InvalidRequestError ("Gemini API: " ++ message)
     else if (status =? 401)%Z || (status =? 403)%Z then
       AuthenticationError ("Gemini API authentication failed: " ++ message)
     else if (status =? 404)%Z then NotFoundError ("Gemini model not found: " ++ message)
     else if (status =? 429)%Z then RateLimitError ("Gemini API rate limit: " ++ message)
     else if (status =? 503)%Z then OverloadedError ("Gemini API overloaded: " ++ message)
     else UpstreamError ("Gemini API error (" ++ numberToString Number_toString status
                           ++ "): " ++ message)
                        status).
End Parsing.

End Errors.

(* ===================================================================== *)
(** * Server-side web tools (services/web-tools.ts)                       *)
(* ===================================================================== *)

Module WebTools.

(** [typeof t.type === "string"] and the type starts with [web_search]
    or [web_fetch]. *)
Definition isServerTool (tool : JSON) : bool :=
  match tool with
  | JObj t =>
      match get "type" t with
      | Some (JStr type) => String.prefix "web_search" type || String.prefix "web_fetch" type
      | _ => false
      end
  | _ => false
  end.

Record Extracted : Type := mkExtracted {
  serverTools : list JSON;
  regularTools : list JSON
}.

(** One iteration of the loop; reading [t.type] of [null] raises. *)
Definition extractStep (acc : option Extracted) (tool : JSON) : option Extracted :=
  match acc, tool with
  | None, _ | _, JNull => None
  | Some e, _ =>
      if isServerTool tool
      then Some (mkExtracted (serverTools e ++ [tool]) (regularTools e))
      else Some (mkExtracted (serverTools e) (regularTools e ++ [tool]))
  end.

(** [extractServerTools], [None] when it raises. *)
Definition extractServerTools (tools : list JSON) : option Extracted :=
  fold_left extractStep tools (Some (mkExtracted [] [])).

(** [t.name === name] on a server tool. *)
Definition isNamed (name : string) (tool : JSON) : bool :=
  match tool with
  | JObj t => match get "name" t with Some (JStr n) => n =? name | _ => false end
  | _ => false
  end.

Definition hasWebSearch (tools : list JSON) : bool := existsb (isNamed "web_search") tools.

Definition hasWebFetch (tools : list JSON) : bool := existsb (isNamed "web_fetch") tools.

End WebTools.

(* ===================================================================== *)
(** * Router (server/router.ts)                                           *)
(* ===================================================================== *)

Module Router.
Import Errors.

Inductive Body : Type :=
| NoBody
| JsonBody (data : JSON)                           (* sent as [JSON.stringify(data)] *)
| EventStream (events : list StreamConverter.Event).

Record Response : Type := mkResponse {
  status : Z;
  headers : list (string * string);
  body : Body
}.

(** What a handler may raise: a [ProxyError], another [Error] with its
    message, or a value that is no [Error]. *)
Inductive Raised : Type :=
| RaisedProxyError (e : ProxyError)
| RaisedError (message : string)
| RaisedValue.

Definition jsonResponse (data : JSON) (status : Z) : Response :=
  mkResponse status
    [("Content-Type", "application/json");
     ("Access-Control-Allow-Origin", "*");
     ("Access-Control-Allow-Headers", "*");
     ("Access-Control-Allow-Methods", "GET, POST, OPTIONS")]
    (JsonBody data).

Definition errorResponse (error : ProxyError) : Response :=
  jsonResponse (toResponse error) (statusCode error).

Definition corsResponse : Response :=
  mkResponse 204
    [("Access-Control-Allow-Origin", "*");
     ("Access-Control-Allow-Headers", "*");
     ("Access-Control-Allow-Methods", "GET, POST, OPTIONS");
     ("Access-Control-Max-Age", "86400")]
    NoBody.

(** [handleListModels], [now] being what [Date.now()] returns. *)
Definition handleListModels (now : Z) : Response :=
  jsonResponse
    (JObj [("object", JStr "list");
           ("data", JArr (List.map (fun id => JObj [("id", JStr id);
                                                    ("object", JStr "model");
                                                    ("created", JNum now);
                                                    ("owned_by", JStr "google")])
                                   ModelConfig.listModels))])
    200.

(** The two checks at the head of [handleMessages]: [Some] is what is
    raised.  Reading a property of [null] raises a [TypeError], whose
    message is the engine's. *)
Definition validateBody (typeErrorMessage : string) (body : JSON) : option Raised :=
  match body with
  | JNull => Some (RaisedError typeErrorMessage)
  | _ =>
      match member "messages" (Some body) with
      | Some (JArr _) =>
          match member "max_tokens" (Some body) with
          | Some (JNum n) =>
              if (n =? 0)%Z
              then Some (RaisedProxyError
                           (InvalidRequestError "'max_tokens' is required and must be a number."))
              else None
          | _ => Some (RaisedProxyError
                         (InvalidRequestError "'max_tokens' is required and must be a number."))
          end
      | _ => Some (RaisedProxyError
                     (InvalidRequestError "'messages' is required and must be an array."))
      end
  end.

(** [handleMessages]: [parsed] is what [request.json()] gives, a value
    or the message of the error it rejects with; [proceed] is the rest of
    the handler, run on a body that passed the checks. *)
Definition handleMessages (typeErrorMessage : string) (parsed : JSON + string)
    (proceed : JSON -> Response + Raised) : Response + Raised :=
  match parsed with
  | inr message => inr (RaisedError message)
  | inl body =>
      match validateBody typeErrorMessage body with
      | Some raised => inr raised
      | None => proceed body
      end
  end.

(** [handle]: the dispatch inside its [try], and its [catch].
    [messagesOutcome] is how [handleMessages] completes when it is
    called. *)
Definition handle (now : Z) (method path : string) (messagesOutcome : Response + Raised)
    : Response :=
  if method =? "OPTIONS" then corsResponse
  else if (path =? "/v1/messages") && (method =? "POST") then
    match messagesOutcome with
    | inl response => response
    | inr (RaisedProxyError error) => errorResponse error
    | inr (RaisedError message) =>
        errorResponse (mkProxyError "ProxyError" message 500 "api_error" None)
    | inr RaisedValue =>
        errorResponse (mkProxyError "ProxyError" "Internal server error" 500 "api_error" None)
    end
  else if (path =? "/v1/models") && (method =? "GET") then handleListModels now
  else if (path =? "/health") && (method =? "GET") then
    jsonResponse (JObj [("status", JStr "ok")]) 200
  else errorResponse (InvalidRequestError ("Unknown endpoint: " ++ method ++ " " ++ path)).

(** [injectGeminiWebTools]. *)
Definition injectGeminiWebTools (geminiRequest : GenerateContentRequest.t)
    (serverTools : list JSON) : GenerateContentRequest.t :=
  let tools := default [] (GenerateContentRequest.tools geminiRequest) in
  let tools := if WebTools.hasWebSearch serverTools
               then tools ++ [GenerateContentRequest.GoogleSearch] else tools in
  let tools := if WebTools.hasWebFetch serverTools
               then tools ++ [GenerateContentRequest.UrlContext] else tools in
  GenerateContentRequest.mkRequest
    (GenerateContentRequest.contents geminiRequest)
    (GenerateContentRequest.systemInstruction geminiRequest)
    (Some tools)
    (GenerateContentRequest.toolConfig geminiRequest)
    (GenerateContentRequest.generationConfig geminiRequest)
    (GenerateContentRequest.safetySettings geminiRequest).

End Router.

(* ===================================================================== *)
(** * Vocabulary of the properties                                        *)
(* ===================================================================== *)

Module SignatureSpec.
Import Gemini ThoughtSignature.

(** The part at index [i] of [ps] is the first functionCall part. *)
Definition firstCallAt (ps : list Part) (i : nat) : bool :=
  match ps !! i with
  | Some part => isFunctionCall part && forallb (fun q => negb (isFunctionCall q)) (take i ps)
  | None => false
  end.

Definition carriesSignature (p : Part) : bool :=
  match thoughtSignatureOf p with Some _ => true | None => false end.

(** Among the functionCall parts, the first carries a signature and no
    other does. *)
Definition onlyFirstCallCarries (ps : list Part) : bool :=
  match List.filter isFunctionCall ps with
  | [] => true
  | first :: others =>
      carriesSignature first && forallb (fun q => negb (carriesSignature q)) others
  end.

(** The signature the first functionCall part ends up with. *)
Definition ensuredSignature (svc : Service) (t p : nat) (sig : option string) : string :=
  match sig with
  | Some s => if negb (s =? "") then s
              else default DUMMY_THOUGHT_SIGNATURE (getSignature t p svc)
  | None => default DUMMY_THOUGHT_SIGNATURE (getSignature t p svc)
  end.

(** What [ensureSignatures] makes of the first functionCall part. *)
Definition ensuredPart (svc : Service) (t p : nat) (part : Part) : Part :=
  match part with
  | FunctionCallPart name args sig =>
      FunctionCallPart name args (Some (ensuredSignature svc t p sig))
  | _ => part
  end.
End SignatureSpec.

Module RequestSpec.
Import Anthropic RequestConverter.

(** The text and image blocks of a message, as parts, in order. *)
Definition textImagePart (block : ContentBlockParam) : option Gemini.Part :=
  match block with
  | TextBlockParam text => Some (Gemini.TextPart text None None)
  | ImageBlockParam source => Some (convertImageBlock source)
  | _ => None
  end.

(** The turn a [tool_result] block is translated to. *)
Definition toolResultTurn (toolNameMap : gmap string string) (block : ContentBlockParam)
      : option Gemini.Content :=
  match block with
  | ToolResultBlockParam tool_use_id content is_error =>
      Some (convertToolResult toolNameMap tool_use_id content is_error)
  | _ => None
  end.

Definition isTextOrImage (block : ContentBlockParam) : bool :=
  match block with TextBlockParam _ | ImageBlockParam _ => true | _ => false end.

Definition isToolResult (block : ContentBlockParam) : bool :=
  match block with ToolResultBlockParam _ _ _ => true | _ => false end.

(** The [(id, name)] pairs of the [tool_use] blocks of a history, in
    order. *)
Definition toolUseOf (block : ContentBlockParam) : option (string * string) :=
  match block with ToolUseBlock id name _ => Some (id, name) | _ => None end.

Definition toolUsesOfMessage (message : Message) : list (string * string) :=
  match content message with
  | ContentString _ => []
  | ContentBlocks blocks => omap toolUseOf blocks
  end.

Definition toolUses (messages : list Message) : list (string * string) :=
  List.concat (List.map toolUsesOfMessage messages).

(** The name declared by the last [tool_use] block carrying [id]: each
    one met overrides what was found before. *)
Definition overrideName (id : string) (found : option string) (use : string * string)
      : option string :=
  if fst use =? id then Some (snd use) else found.

Definition lastNameFor (id : string) (uses : list (string * string)) : option string :=
  fold_left (overrideName id) uses None.

End RequestSpec.

Module ReplaySpec.

(** The functionCall parts collected for a model turn start with one
    that carries the sentinel. *)
Definition SentinelFirst (calls : list Gemini.Part) : Prop :=
  match calls with
  | [] => True
  | Gemini.FunctionCallPart _ _ (Some s) :: _ => s = ThoughtSignature.DUMMY_THOUGHT_SIGNATURE
  | _ => False
  end.

Definition noCall (q : Gemini.Part) : bool := negb (Gemini.isFunctionCall q).

(** A turn on which the signature pass changes nothing, whatever the
    ledger holds. *)
Definition Settled (turn : Gemini.Content) : Prop :=
  forall svc t,
    match Gemini.role turn with
    | Gemini.Model =>
        Gemini.mkContent Gemini.Model (ThoughtSignature.ensureParts svc t 0 false (Gemini.parts turn))
    | Gemini.User => turn
    end = turn.

End ReplaySpec.

Module ResponseSpec.
Import Gemini.
(** The parts and the finish reason of the candidate that [convert]
    translates. *)
Definition firstCandidate (response : GenerateContentResponse) : option Candidate :=
  candidates response ≫= head.

Definition upstreamParts (response : GenerateContentResponse) : list Part :=
  match firstCandidate response with
  | Some candidate =>
      match content candidate with Some c => parts c | None => [] end
  | None => []
  end.

Definition upstreamFinishReason (response : GenerateContentResponse) : option string :=
  match firstCandidate response with
  | Some candidate => finishReason candidate
  | None => None
  end.
End ResponseSpec.

Module StreamGrammar.
Import StreamConverter.

(** Where a reader of the outbound stream stands in
    [message_start, ping, (content_block_start, content_block_delta*,
    content_block_stop)*, message_delta, message_stop]. *)
Inductive Phase : Type :=
| AtStart
| AfterMessageStart
| BetweenBlocks (next : nat)
| InBlock (index : nat) (sawDelta : bool)
| AfterMessageDelta
| AtEnd
| Rejected.

(** One event read.  Blocks must be numbered 0, 1, 2, ... in the order
    they are closed; with [requireDelta] a block may only stop after at
    least one delta. *)
Definition step (requireDelta : bool) (ph : Phase) (e : Event) : Phase :=
  match ph, e with
  | AtStart, message_start _ => AfterMessageStart
  | AfterMessageStart, ping => BetweenBlocks 0
  | BetweenBlocks i, content_block_start j _ =>
      if Nat.eqb j i then InBlock i false else Rejected
  | InBlock i _, content_block_delta j _ =>
      if Nat.eqb j i then InBlock i true else Rejected
  | InBlock i sawDelta, content_block_stop j =>
      if Nat.eqb j i && (sawDelta || negb requireDelta)
      then BetweenBlocks (S i) else Rejected
  | BetweenBlocks _, message_delta _ _ => AfterMessageDelta
  | AfterMessageDelta, message_stop => AtEnd
  | _, _ => Rejected
  end.

Definition read (requireDelta : bool) (events : list Event) : Phase :=
  fold_left (step requireDelta) events AtStart.

Definition matchesGrammar (requireDelta : bool) (events : list Event) : bool :=
  match read requireDelta events with AtEnd => true | _ => false end.

Definition isToolUseStart (e : Event) : bool :=
  match e with content_block_start _ (StartToolUse _ _) => true | _ => false end.

Definition isError (e : Event) : bool :=
  match e with error _ => true | _ => false end.

(** The stop reason carried by the last [message_delta], if any. *)
Definition finalStopReason (events : list Event) : option Anthropic.StopReason :=
  fold_left (fun acc e => match e with message_delta r _ => Some r | _ => acc end)
            events None.

(** What the converter's fields say about the events sent so far. *)
Definition Consistent (st : State) : Prop :=
  finalStopReason (enqueued st) = None
  /\ existsb isError (enqueued st) = false
  /\ match read false (enqueued st), messageStarted st, currentBlockType st with
     | AtStart, false, None => blockIndex st = 0
     | BetweenBlocks i, true, None => blockIndex st = i
     | InBlock i _, true, Some _ => blockIndex st = i
     | _, _, _ => False
     end.

(** Either nothing was sent yet, or the message is started. *)
Definition Reached (st : State) : Prop :=
  Consistent st /\ (messageStarted st = true \/ enqueued st = [] ).

End StreamGrammar.

Module SanitizerSpec.
Import SchemaSanitizer.

(** How the flattening reads one alternative of the combinator. *)
Inductive Alternative : Type :=
| Literals (values : list JSON)
| NullType
| Unrecognised
| Skipped
| Unrenderable.

(** The values directly below a value. *)
Definition children (v : JSON) : list JSON :=
  match v with
  | JArr xs => xs
  | JObj es => List.map snd es
  | _ => []
  end.

(** Some object of the tree has a member named [toString]. *)
Fixpoint hasOwnToString (v : JSON) : bool :=
  match v with
  | JArr xs => existsb hasOwnToString xs
  | JObj es =>
      existsb (fun kv => fst kv =? "toString") es
      || existsb (fun kv => hasOwnToString (snd kv)) es
  | _ => false
  end.

(** The body of the loop over the entries of [properties]. *)
Definition sanitizeProperty (sanitize : JSON -> option JSON) (props : Obj)
    (kv : string * JSON) : option Obj :=
  match sanitize (snd kv) with
  | Some propSchema => Some (assign (fst kv) propSchema props)
  | None => None
  end.

Section WithNumbers.
Variable Number_toString : Z -> string.

(** A value the sanitiser returns as it is. *)
Definition Fixed (v : JSON) : Prop := sanitizeSchema Number_toString v = Some v.

(** What the sanitiser returns for [v], if it returns, it returns as it
    is. *)
Definition Settled (v : JSON) : Prop :=
  forall out, sanitizeSchema Number_toString v = Some out -> Fixed out.

(** The sanitiser returns on [v] when no object of [v] has a member
    named [toString]. *)
Definition Returns (v : JSON) : Prop :=
  hasOwnToString v = false -> exists out, sanitizeSchema Number_toString v = Some out.

(** The [properties] object the sanitiser builds: distinct names, none of
    them [__proto__], each schema already sanitised. *)
Definition CleanProps (ps : Obj) : Prop :=
  NoDup (List.map fst ps)
  /\ Forall (fun kv => fst kv <> "__proto__" /\ Fixed (snd kv)) ps.

(** An entry of a sanitised object. *)
Definition CleanEntry (kv : string * JSON) : Prop :=
  allowed (fst kv) = true
  /\ (fst kv = "properties" ->
      match snd kv with JObj ps => CleanProps ps | JArr _ => False | _ => True end)
  /\ (fst kv = "items" -> Fixed (snd kv)).

Definition Clean (o : Obj) : Prop :=
  NoDup (List.map fst o) /\ Forall CleanEntry o.

(** An object with a [const] gives the rendering of its value, and
    cannot be read when that rendering raises; else one with an [enum]
    array gives its members; else one of type ["null"] is the null
    alternative; any other object, and an array, is not recognised; a
    value that is no object is passed over. *)
Definition classify (alt : JSON) : Alternative :=
  match alt with
  | JObj opt =>
      match get "const" opt with
      | Some c =>
          match toString Number_toString c with
          | Some rendered => Literals [JStr rendered]
          | None => Unrenderable
          end
      | None =>
          match get "enum" opt with
          | Some (JArr members) => Literals members
          | _ => if isNullName (get "type" opt) then NullType else Unrecognised
          end
      end
  | JArr _ => Unrecognised
  | _ => Skipped
  end.

Definition literalsOf (alt : JSON) : list JSON :=
  match classify alt with Literals values => values | _ => [] end.

Definition isUnrecognised (alt : JSON) : bool :=
  match classify alt with Unrecognised => true | _ => false end.

Definition isNullType (alt : JSON) : bool :=
  match classify alt with NullType => true | _ => false end.

Definition isUnrenderable (alt : JSON) : bool :=
  match classify alt with Unrenderable => true | _ => false end.

(** The literals collected over all alternatives, in order. *)
Definition collected (alts : list JSON) : list JSON :=
  List.concat (List.map literalsOf alts).

(** Whether the flattening goes through: no alternative is unrecognised
    and at least one literal was collected. *)
Definition flattens (alts : list JSON) : bool :=
  negb (existsb isUnrecognised alts) && negb (Nat.eqb (length (collected alts)) 0).

End WithNumbers.

End SanitizerSpec.

Module LedgerSpec.
Import Gemini ThoughtSignature.

(** The non-empty signature carried by part [p] of turn [t], when that
    turn is a model turn. *)
Definition signatureAt (contents : list Content) (t p : nat) : option string :=
  match contents !! t with
  | Some turn =>
      match role turn, parts turn !! p with
      | Model, Some part =>
          if nonEmpty (thoughtSignatureOf part) then thoughtSignatureOf part else None
      | _, _ => None
      end
  | None => None
  end.

(** A history as a client sends it back: the functionCall parts of the
    model turns have lost their signature. *)
Definition stripCall (part : Part) : Part :=
  match part with
  | FunctionCallPart name args _ => FunctionCallPart name args None
  | _ => part
  end.

Definition stripTurn (turn : Content) : Content :=
  match role turn with
  | Model => mkContent Model (List.map stripCall (parts turn))
  | User => turn
  end.

(** In a model turn, the first functionCall part carries a non-empty
    signature and the later ones carry none. *)
Definition SignedOnce (turn : Content) : Prop :=
  role turn = Model ->
  match List.filter isFunctionCall (parts turn) with
  | [] => True
  | first :: others =>
      nonEmpty (thoughtSignatureOf first) = true
      /\ Forall (fun q => thoughtSignatureOf q = None) others
  end.

Definition signedPart (part : Part) : option string :=
  if nonEmpty (thoughtSignatureOf part) then thoughtSignatureOf part else None.

(** The signatures of the signed text parts of the model turns, in
    order. *)
Definition textSignatureOf (part : Part) : option string :=
  match part with
  | TextPart _ _ (Some sig) => if negb (sig =? "") then Some sig else None
  | _ => None
  end.

Definition textSignatures (contents : list Content) : list string :=
  List.concat
    (List.map (fun turn => match role turn with
                           | Model => omap textSignatureOf (parts turn)
                           | User => []
                           end) contents).

(** [a] when it is there, else [b]. *)
Definition orElse {A} (a b : option A) : option A :=
  match a with Some x => Some x | None => b end.

End LedgerSpec.

Module ContentSpec.
Import Gemini.

(** Strings put end to end. *)
Definition joined (l : list string) : string :=
  fold_right String.append "" l.

(** What a part shows to the reader: the text of a text part that is no
    thought, the text of a thought, the name and arguments of a call. *)
Definition visibleText (part : Part) : option string :=
  match part with
  | TextPart txt thought _ => if isTrue thought then None else Some txt
  | _ => None
  end.

Definition thoughtText (part : Part) : option string :=
  match part with
  | TextPart txt thought _ => if isTrue thought then Some txt else None
  | _ => None
  end.

Definition callOf (part : Part) : option (string * JSON) :=
  match part with
  | FunctionCallPart name args _ => Some (name, default (JObj []) args)
  | _ => None
  end.

(** The calls numbered from [k] on with the identifiers drawn. *)
Fixpoint numbered (ids : nat -> string) (k : nat) (calls : list (string * JSON))
    : list (string * string * JSON) :=
  match calls with
  | [] => []
  | (name, input) :: rest => (ids k, name, input) :: numbered ids (S k) rest
  end.

(** The same readings of the blocks of a translated response. *)
Definition blockText (b : Anthropic.ContentBlock) : option string :=
  match b with Anthropic.TextBlock txt => Some txt | _ => None end.

Definition blockThinking (b : Anthropic.ContentBlock) : option string :=
  match b with Anthropic.ThinkingBlock txt _ => Some txt | _ => None end.

Definition blockToolUse (b : Anthropic.ContentBlock) : option (string * string * JSON) :=
  match b with Anthropic.ToolUse id name input => Some (id, name, input) | _ => None end.

(** What the blocks pushed so far say about the parts read so far. *)
Definition Faithful (ids : nat -> string) (acc : ResponseConverter.Acc) (seen : list Part)
    : Prop :=
  joined (omap blockText (ResponseConverter.blocks acc)) = joined (omap visibleText seen)
  /\ joined (omap blockThinking (ResponseConverter.blocks acc)) = joined (omap thoughtText seen)
  /\ omap blockToolUse (ResponseConverter.blocks acc) = numbered ids 0 (omap callOf seen)
  /\ ResponseConverter.drawn acc = length (omap callOf seen).

End ContentSpec.

Module StreamSpec.
Import Gemini StreamConverter ContentSpec.

(** The same readings of the events of a stream. *)
Definition textDeltaOf (e : Event) : option string :=
  match e with content_block_delta _ (text_delta txt) => Some txt | _ => None end.

Definition thinkingDeltaOf (e : Event) : option string :=
  match e with content_block_delta _ (thinking_delta txt) => Some txt | _ => None end.

Definition startedToolUse (e : Event) : option (string * string) :=
  match e with content_block_start _ (StartToolUse id name) => Some (id, name) | _ => None end.

Definition inputOf (e : Event) : option JSON :=
  match e with content_block_delta _ (input_json_delta input) => Some input | _ => None end.

(** The parts of a chunk that [processChunk] gets through: those before
    the first entry on which it raises. *)
Fixpoint processed (ps : list RawPart) : list Part :=
  match ps with
  | Shaped part :: rest => part :: processed rest
  | _ => []
  end.

(** The entries of a chunk that [processChunk] reaches with an effect:
    the parts it gets through and, when that is what stops it, the null
    call for which an identifier was drawn. *)
Fixpoint reached (ps : list RawPart) : list RawPart :=
  match ps with
  | Shaped part :: rest => Shaped part :: reached rest
  | NullCall sig :: _ => [NullCall sig]
  | _ => []
  end.

Definition shapeOf (raw : RawPart) : option Part :=
  match raw with Shaped part => Some part | _ => None end.

Definition isNullCall (raw : RawPart) : bool :=
  match raw with NullCall _ => true | _ => false end.

(** The entries on which [handleToolUse] is entered, and those among
    them that are functionCall parts. *)
Definition entersToolUse (raw : RawPart) : bool :=
  match raw with
  | Shaped part => isFunctionCall part
  | NullCall _ => true
  | NotAnObject => false
  end.

Definition isCall (raw : RawPart) : bool :=
  match raw with Shaped part => isFunctionCall part | _ => false end.

(** What an entry draws from [generateToolUseId]: an identifier for its
    call, or an identifier that no block carries when the call is
    [null]. *)
Definition drawOf (raw : RawPart) : option (option (string * JSON)) :=
  match raw with
  | Shaped part => Some <$> callOf part
  | NullCall _ => Some None
  | NotAnObject => None
  end.

(** The calls with the identifiers drawn for them, from the [k]-th
    identifier on. *)
Fixpoint numberedDraws (ids : nat -> string) (k : nat)
    (draws : list (option (string * JSON))) : list (string * string * JSON) :=
  match draws with
  | [] => []
  | Some (name, input) :: rest => (ids k, name, input) :: numberedDraws ids (S k) rest
  | None :: rest => numberedDraws ids (S k) rest
  end.

Definition partsOfCandidate (candidate : Candidate) : list Part :=
  match candidate with
  | Parsed chunk => processed (default [] (parts chunk))
  | Unparseable => []
  end.

(** Every part the converter gets through, over the whole stream. *)
Definition streamParts (reads : list (list Candidate)) (leftover : option Candidate)
    : list Part :=
  List.concat
    (List.map partsOfCandidate
       (List.concat reads ++ match leftover with Some c => [c] | None => [] end)).

Definition reachedOfCandidate (candidate : Candidate) : list RawPart :=
  match candidate with
  | Parsed chunk => reached (default [] (parts chunk))
  | Unparseable => []
  end.

(** Every entry the converter reaches, over the whole stream. *)
Definition streamReached (reads : list (list Candidate)) (leftover : option Candidate)
    : list RawPart :=
  List.concat
    (List.map reachedOfCandidate
       (List.concat reads ++ match leftover with Some c => [c] | None => [] end)).

(** What the events sent so far say about the entries reached so far. *)
Definition Observed (ids : nat -> string) (st : State) (seen : list RawPart) : Prop :=
  joined (omap textDeltaOf (enqueued st)) = joined (omap visibleText (omap shapeOf seen))
  /\ joined (omap thinkingDeltaOf (enqueued st))
     = joined (omap thoughtText (omap shapeOf seen))
  /\ omap startedToolUse (enqueued st)
     = List.map (fun u => (fst (fst u), snd (fst u)))
         (numberedDraws ids 0 (omap drawOf seen))
  /\ omap inputOf (enqueued st) = List.map snd (omap callOf (omap shapeOf seen))
  /\ drawn st = length (omap drawOf seen).

(** What the flag and the blocks started say about the entries reached. *)
Definition Flagged (st : State) (seen : list RawPart) : Prop :=
  hasEmittedToolUse st = existsb entersToolUse seen
  /\ existsb StreamGrammar.isToolUseStart (enqueued st) = existsb isCall seen.

(** The chunks that reach [processChunk], over the whole stream. *)
Definition chunkOf (candidate : Candidate) : option Chunk :=
  match candidate with Parsed chunk => Some chunk | Unparseable => None end.

Definition streamChunks (reads : list (list Candidate)) (leftover : option Candidate)
    : list Chunk :=
  omap chunkOf (List.concat reads ++ match leftover with Some c => [c] | None => [] end).

(** The token counts a stream is to report: the prompt tokens of its
    first chunk, the output tokens of its last chunk that carries usage
    metadata. *)
Definition outputOf (meta : UsageMetadata) : Z :=
  (default 0 (candidatesTokenCount meta) + default 0 (thoughtsTokenCount meta))%Z.

Definition reportedInput (chunks : list Chunk) : Z :=
  match chunks with
  | [] => 0
  | first :: _ => default 0%Z (usageMetadata first ≫= promptTokenCount)
  end.

Definition reportedOutput (chunks : list Chunk) : Z :=
  match last (omap usageMetadata chunks) with
  | Some meta => outputOf meta
  | None => 0
  end.

(** The token counts the events carry. *)
Definition startTokens (events : list Event) : option Z :=
  match events with message_start n :: _ => Some n | _ => None end.

Definition finalOutputTokens (events : list Event) : option Z :=
  fold_left (fun acc e => match e with message_delta _ n => Some n | _ => acc end)
            events None.

Definition isBlockEvent (e : Event) : bool :=
  match e with
  | content_block_start _ _ | content_block_delta _ _ | content_block_stop _ => true
  | _ => false
  end.

(** From [st] to [st'] only block events were sent, and the counters of
    the message were left alone. *)
Definition Quiet (st st' : State) : Prop :=
  exists extra,
    enqueued st' = enqueued st ++ extra
    /\ forallb isBlockEvent extra = true
    /\ outputTokens st' = outputTokens st
    /\ messageStarted st' = messageStarted st.

(** What the converter's counters say about the chunks processed. *)
Definition Metered (st : State) (chunks : list Chunk) : Prop :=
  finalOutputTokens (enqueued st) = None
  /\ outputTokens st = reportedOutput chunks
  /\ match chunks with
     | [] => enqueued st = [] /\ messageStarted st = false
             /\ blockIndex st = 0 /\ currentBlockType st = None
     | _ :: _ => messageStarted st = true
                 /\ startTokens (enqueued st) = Some (reportedInput chunks)
     end.

End StreamSpec.

Module SlotSpec.
Import Gemini.

(** The signature that response translation records for a part: the
    non-empty signature of a text part or of a functionCall part. *)
Definition recordedSignature (part : Part) : option string :=
  match part with
  | TextPart _ _ sig | FunctionCallPart _ _ sig => if nonEmpty sig then sig else None
  | _ => None
  end.

(** The non-empty signature that an entry of a stream carries. *)
Definition signedEntry (raw : StreamConverter.RawPart) : option string :=
  match raw with
  | StreamConverter.Shaped part => LedgerSpec.signedPart part
  | StreamConverter.NullCall sig => if nonEmpty sig then sig else None
  | StreamConverter.NotAnObject => None
  end.

(** What the service of the stream holds after the entries [seen]. *)
Definition Recorded (st : StreamConverter.State) (svc : ThoughtSignature.Service)
    (seen : list StreamConverter.RawPart) : Prop :=
  ThoughtSignature.store (StreamConverter.thoughtSignatures st) = ThoughtSignature.store svc
  /\ ThoughtSignature.lastTextSignature (StreamConverter.thoughtSignatures st)
     = LedgerSpec.orElse (last (omap signedEntry seen))
                         (ThoughtSignature.lastTextSignature svc).

End SlotSpec.

Module ModelSpec.

(** What holds of every capabilities record the service hands out. *)
Definition WellFormed (c : ModelCapabilities) : Prop :=
  (isGemini3 c = true ->
     supportsThinking c = true /\ defaultThinkingLevel c = Some "HIGH")
  /\ (isGemini3 c = false -> defaultThinkingLevel c = None)
  /\ (0 < maxOutputTokens c <= 65536)%Z.

End ModelSpec.

Module AssemblySpec.
Import SchemaSanitizer.

(** A schema the Gemini API accepts: every key of the object is on the
    allow-list, and so it is in every member of an object [properties]
    and in an object [items].  An array under [items] is not looked
    into: the sanitiser passes it through. *)
Fixpoint accepted (schema : JSON) : bool :=
  match schema with
  | JObj entries =>
      forallb (fun kv =>
                 allowed (fst kv)
                 && (if fst kv =? "properties" then
                       match snd kv with
                       | JObj members => forallb (fun member => accepted (snd member)) members
                       | _ => true
                       end
                     else if fst kv =? "items" then accepted (snd kv)
                     else true))
              entries
  | _ => true
  end.

Definition acceptedEntry (kv : string * JSON) : bool :=
  allowed (fst kv)
  && (if fst kv =? "properties" then
        match snd kv with
        | JObj members => forallb (fun member => accepted (snd member)) members
        | _ => true
        end
      else if fst kv =? "items" then accepted (snd kv)
      else true).

(** What the sanitiser returns for [v], if it returns, the Gemini API
    accepts. *)
Definition Accepts (Number_toString : Z -> string) (v : JSON) : Prop :=
  forall out, sanitizeSchema Number_toString v = Some out -> accepted out = true.

(** The four thinking levels, in increasing order. *)
Definition THINKING_LEVELS : list string := ["MINIMAL"; "LOW"; "MEDIUM"; "HIGH"].

Definition levelRank (level : string) : nat :=
  if level =? "MINIMAL" then 0
  else if level =? "LOW" then 1
  else if level =? "MEDIUM" then 2
  else 3.

Definition isPlain (part : Gemini.Part) : bool :=
  match part with
  | Gemini.TextPart _ _ _ | Gemini.InlineDataPart _ _ _ => true
  | _ => false
  end.

(** A user turn made of one function response. *)
Definition responseTurn (turn : Gemini.Content) : Prop :=
  exists name response,
    turn = Gemini.mkContent Gemini.User [Gemini.FunctionResponsePart name response].

(** The three shapes of a translated turn: a model turn whose text and
    image parts come before its calls, a user turn of text and image
    parts, a user turn made of one function response.  No turn is
    empty. *)
Definition TurnShape (turn : Gemini.Content) : Prop :=
  Gemini.parts turn <> []
  /\ match Gemini.role turn with
     | Gemini.Model =>
         exists plain calls,
           Gemini.parts turn = plain ++ calls
           /\ forallb isPlain plain = true
           /\ forallb Gemini.isFunctionCall calls = true
     | Gemini.User =>
         forallb isPlain (Gemini.parts turn) = true
         \/ exists name response,
              Gemini.parts turn = [Gemini.FunctionResponsePart name response]
     end.

End AssemblySpec.

Module RouterSpec.
Import Errors Router.

(** The error body of the Anthropic API. *)
Definition errorBody (type message : string) : Body :=
  JsonBody (JObj [("type", JStr "error");
                  ("error", JObj [("type", JStr type); ("message", JStr message)])]).

End RouterSpec.

(** Vocabulary of the buffering of the upstream body. *)
Module BufferSpec.
Import Text StreamBuffer.

(** An event of the upstream body as Gemini sends it with [alt=sse]: a
    [data:] line and an empty line. *)
Definition dataLine (payload : Str) : Str := units "data: " ++ payload.

Definition event (payload : Str) : Str := dataLine payload ++ [LF; LF].

Definition frame (payloads : list Str) : Str :=
  List.concat (List.map event payloads).

(** What a character adds to the depth counted by [findLastCompleteJson]. *)
Definition delta (c : N) : Z :=
  if (c =? OPEN_BRACE)%N then 1 else if (c =? CLOSE_BRACE)%N then -1 else 0.

Fixpoint net (s : Str) : Z :=
  match s with
  | [] => 0
  | c :: rest => delta c + net rest
  end%Z.

(** From [depth], the count stays positive after every character. *)
Fixpoint staysOpen (depth : Z) (s : Str) : bool :=
  match s with
  | [] => true
  | c :: rest => (0 <? depth + delta c)%Z && staysOpen (depth + delta c) rest
  end.

Definition oneLine (s : Str) : bool := forallb (fun c => negb (c =? LF)%N) s.

(** A payload that is one object for the brace count: a single line whose
    last character is the closing brace that brings the count back to 0,
    for the first time. *)
Definition isPayload (payload : Str) : bool :=
  bool_decide (last payload = Some CLOSE_BRACE)
  && staysOpen 0 (removelast payload)
  && (net payload =? 0)%Z
  && oneLine payload.

(** A payload whose braces never balance, as when a string in it holds an
    opening brace: a single line that ends with a closing brace while the
    count is still positive. *)
Definition isUnbalanced (payload : Str) : bool :=
  bool_decide (last payload = Some CLOSE_BRACE)
  && staysOpen 0 payload
  && oneLine payload.

(** [JSON.parse] rejects every proper prefix of [text]. *)
Definition RejectsPrefixes (parse : Str -> option StreamConverter.Chunk) (text : Str) : Prop :=
  forall q r, text = q ++ r -> r <> [] -> parse q = None.

(** What the buffer holds up to the end of the last payload of [done]
    when it started with [pad]. *)
Fixpoint received (pad : Str) (done : list Str) : Str :=
  match done with
  | [] => []
  | payload :: more => pad ++ dataLine payload ++ received [LF; LF] more
  end.

Definition padAfter (pad : Str) (done : list Str) : Str :=
  match done with [] => pad | _ :: _ => [LF; LF] end.

(** [b] stops before the end of the first payload of [pad ++ frame pending]. *)
Definition Short (pad : Str) (pending : list Str) (b : Str) : Prop :=
  (exists r, pad = b ++ r)
  \/ (exists p rest q r,
        pending = p :: rest /\ b = pad ++ q /\ dataLine p = q ++ r /\ r <> []).

Definition handedLines (buffer : Str) : list Str :=
  List.concat (List.map processLine (split LF buffer)).

(** A parser that accepts one text only. *)
Definition onlyParses (text : Str) (chunk : StreamConverter.Chunk)
    : Str -> option StreamConverter.Chunk :=
  fun t => if same t text then Some chunk else None.

(** The buffer as [pull] leaves it after a read. *)
Definition kept (buffer : Str) : Str :=
  if (0 <=? findLastCompleteJson buffer)%Z
  then substringFrom (Z.to_nat (findLastCompleteJson buffer)) buffer else buffer.

End BufferSpec.

(* ===================================================================== *)
(** * Schema sanitiser: idempotence and flattening                        *)
(* ===================================================================== *)

Section ObjectLemmas.

Lemma get_set_eq key v : forall o, get key (set key v o) = Some v.
Proof.
  induction o as [|[k x] rest IH]; cbn [set get].
  - rewrite String.eqb_refl. reflexivity.
  - destruct (k =? key) eqn:E; cbn [get]; rewrite E; auto.
Qed.

Lemma get_set_ne key key' v : key <> key' -> forall o, get key (set key' v o) = get key o.
Proof.
  intros Hne. induction o as [|[k x] rest IH]; cbn [set get].
  - destruct (String.eqb_spec key' key); [congruence | reflexivity].
  - destruct (String.eqb_spec k key') as [->|Hk]; cbn [get].
    + destruct (String.eqb_spec key' key); [congruence | reflexivity].
    + rewrite IH. reflexivity.
Qed.

Lemma get_absent key : forall o, ~ In key (List.map fst o) -> get key o = None.
Proof.
  induction o as [|[k x] rest IH]; intros Hno; cbn [get]; [reflexivity|].
  cbn in Hno. destruct (String.eqb_spec k key); [tauto | apply IH; tauto].
Qed.

Lemma set_fresh key v : forall o, ~ In key (List.map fst o) -> set key v o = o ++ [(key, v)].
Proof.
  induction o as [|[k x] rest IH]; intros Hno; cbn [set app]; [reflexivity|].
  cbn in Hno. destruct (String.eqb_spec k key); [tauto|].
  rewrite IH by tauto. reflexivity.
Qed.

Lemma set_keys key v : forall o,
  List.map fst (set key v o) = List.map fst o
  \/ (~ In key (List.map fst o) /\ List.map fst (set key v o) = List.map fst o ++ [key]).
Proof.
  induction o as [|[k x] rest IH]; cbn [set List.map fst app].
  - right. split; [tauto | reflexivity].
  - destruct (String.eqb_spec k key) as [->|Hk]; cbn [List.map fst].
    + left. reflexivity.
    + destruct IH as [IH|[Hno IH]]; rewrite IH; [left; reflexivity|].
      right. split; [cbn; tauto | reflexivity].
Qed.

Lemma set_NoDup key v o : NoDup (List.map fst o) -> NoDup (List.map fst (set key v o)).
Proof.
  intros Hnd. destruct (set_keys key v o) as [E|[Hno E]]; rewrite E; [exact Hnd|].
  apply NoDup_app. repeat split; auto.
  - intros x Hx Hk. apply list_elem_of_In in Hx, Hk. destruct Hk as [<-|[]]. auto.
  - apply NoDup_singleton.
Qed.

Lemma set_Forall (P : string * JSON -> Prop) key v :
  P (key, v) -> forall o, Forall P o -> Forall P (set key v o).
Proof.
  intros Hp. induction o as [|[k x] rest IH]; intros Ho; cbn [set].
  - constructor; [exact Hp | constructor].
  - inversion Ho as [|? ? Hkx Hrest]; subst.
    destruct (String.eqb_spec k key) as [->|Hk]; constructor; auto.
Qed.

(** The loop over an array value of [properties] visits the entries
    that [Object.entries] gives for the array: index keys in order. *)
Lemma sanitizeProperties_indexed (sanitize : JSON -> option JSON) xs i acc :
  match SchemaSanitizer.loop
          (fun st x =>
             match sanitize x with
             | Some propSchema =>
                 Some (S (fst st), assign (indexKey (fst st)) propSchema (snd st))
             | None => None
             end) xs (i, acc) with
  | Some st => Some (snd st)
  | None => None
  end
  = SchemaSanitizer.loop (SanitizerSpec.sanitizeProperty sanitize) (indexed i xs) acc.
Proof.
  revert i acc. induction xs as [|x rest IH]; intros i acc; [reflexivity|].
  cbn [SchemaSanitizer.loop indexed]. unfold SanitizerSpec.sanitizeProperty at 1.
  cbn [fst snd]. destruct (sanitize x); [apply IH | reflexivity].
Qed.

Lemma sanitizeProperties_entries (sanitize : JSON -> option JSON) value :
  SchemaSanitizer.sanitizeProperties sanitize value
  = SchemaSanitizer.loop (SanitizerSpec.sanitizeProperty sanitize) (entriesOf value) [].
Proof.
  destruct value; cbn [SchemaSanitizer.sanitizeProperties entriesOf];
    try reflexivity.
  apply sanitizeProperties_indexed.
Qed.

(** What every iteration of a loop keeps holds when the loop is left
    without a raise. *)
Lemma loop_invariant {A S : Type} (P : S -> Prop) (Q : A -> Prop)
    (body : S -> A -> option S) items : forall st st',
  (forall s x s', P s -> Q x -> body s x = Some s' -> P s') ->
  Forall Q items -> P st ->
  SchemaSanitizer.loop body items st = Some st' -> P st'.
Proof.
  induction items as [|x rest IH]; intros st st' Hstep Hall Hst Hrun;
    cbn [SchemaSanitizer.loop] in Hrun.
  - injection Hrun as <-. exact Hst.
  - inversion Hall as [|? ? Hx Hrest]; subst.
    destruct (body st x) as [s|] eqn:Hb; [|discriminate].
    apply (IH s st' Hstep Hrest); [|exact Hrun].
    apply (Hstep st x s Hst Hx Hb).
Qed.

(** A loop whose iterations do not raise does not raise. *)
Lemma loop_returns {A S : Type} (Q : A -> Prop) (body : S -> A -> option S) items :
  forall st,
  (forall s x, Q x -> exists s', body s x = Some s') ->
  Forall Q items -> exists st', SchemaSanitizer.loop body items st = Some st'.
Proof.
  induction items as [|x rest IH]; intros st Hstep Hall; cbn [SchemaSanitizer.loop].
  - exists st. reflexivity.
  - inversion Hall as [|? ? Hx Hrest]; subst.
    destruct (Hstep st x Hx) as [s' ->]. apply IH; assumption.
Qed.

Lemma Forall_indexed (P : JSON -> Prop) xs : forall i,
  Forall P xs -> Forall (fun kv => P (snd kv)) (indexed i xs).
Proof.
  induction xs as [|x rest IH]; intros i H; cbn [indexed]; [constructor|].
  inversion H; subst. constructor; auto.
Qed.

Lemma Forall_entries (P : JSON -> Prop) v :
  Forall P (SanitizerSpec.children v) -> Forall (fun kv => P (snd kv)) (entriesOf v).
Proof.
  destruct v as [| | | |xs|es]; cbn [SanitizerSpec.children entriesOf]; intros H;
    try constructor.
  - apply Forall_indexed. exact H.
  - induction es as [|kv rest IH]; cbn [List.map] in H; [constructor|].
    inversion H; subst. constructor; auto.
Qed.

End ObjectLemmas.

Section Idempotence.
Import SchemaSanitizer SanitizerSpec.
Variable Number_toString : Z -> string.
Local Abbreviation sanitize := (sanitizeSchema Number_toString).
Local Abbreviation Fixed' := (Fixed Number_toString).
Local Abbreviation Settled' := (Settled Number_toString).
Local Abbreviation Clean' := (Clean Number_toString).
Local Abbreviation CleanProps' := (CleanProps Number_toString).
Local Abbreviation CleanEntry' := (CleanEntry Number_toString).

Lemma sanitize_object entries :
  sanitize (JObj entries)
  = match copyAllowed sanitize entries with
    | Some sanitized =>
        match flattenCombinators Number_toString entries sanitized with
        | Some flattened => Some (JObj flattened)
        | None => None
        end
    | None => None
    end.
Proof. reflexivity. Qed.

Lemma Fixed_not_object v :
  match v with JObj _ => False | _ => True end -> Fixed' v.
Proof. destruct v; intros H; try contradiction; reflexivity. Qed.

(** ** A sanitised object is returned as it is *)

Lemma assign_fresh key v o :
  key <> "__proto__" -> ~ In key (List.map fst o) -> assign key v o = o ++ [(key, v)].
Proof.
  intros Hk Hno. unfold assign.
  destruct (String.eqb_spec key "__proto__"); [contradiction|].
  apply set_fresh. exact Hno.
Qed.

Lemma NoDup_keys_app_cons (acc : Obj) k v rest :
  NoDup (List.map fst (acc ++ (k, v) :: rest)) ->
  ~ In k (List.map fst acc) /\ NoDup (List.map fst ((acc ++ [(k, v)]) ++ rest)).
Proof.
  intros H. split.
  - rewrite List.map_app in H. cbn in H. apply NoDup_app in H as (_ & Hd & _).
    intros Hin. apply (Hd k); [apply list_elem_of_In; exact Hin | left].
  - rewrite <- app_assoc. exact H.
Qed.

Lemma properties_fixed ps : forall acc,
  NoDup (List.map fst (acc ++ ps)) ->
  Forall (fun kv => fst kv <> "__proto__" /\ Fixed' (snd kv)) ps ->
  loop (sanitizeProperty sanitize) ps acc = Some (acc ++ ps).
Proof.
  induction ps as [|[k v] rest IH]; intros acc Hnd Hall; cbn [loop].
  - rewrite app_nil_r. reflexivity.
  - inversion Hall as [|? ? [Hk Hv] Hrest]; subst. cbn [fst snd] in *.
    destruct (NoDup_keys_app_cons acc k v rest Hnd) as [Hno Hnd'].
    unfold sanitizeProperty at 1. cbn [fst snd]. rewrite Hv, assign_fresh by assumption.
    rewrite IH by assumption. rewrite <- app_assoc. reflexivity.
Qed.

Lemma copyEntry_fixed acc k v :
  CleanEntry' (k, v) -> ~ In k (List.map fst acc) ->
  copyEntry sanitize acc (k, v) = Some (acc ++ [(k, v)]).
Proof.
  intros (Hallowed & Hprops & Hitems) Hno. unfold copyEntry. cbn [fst snd] in *.
  rewrite Hallowed. cbn [negb].
  destruct (String.eqb_spec k "properties") as [->|Hk]; cbn [andb].
  - specialize (Hprops eq_refl).
    destruct v as [| | | |xs|ps]; cbn [isObjectLike];
      try (rewrite set_fresh by exact Hno; reflexivity); [contradiction|].
    rewrite sanitizeProperties_entries. cbn [entriesOf]. destruct Hprops as [Hnd Hall].
    rewrite (properties_fixed ps []) by assumption. cbn [app].
    rewrite set_fresh by exact Hno. reflexivity.
  - destruct (String.eqb_spec k "items") as [->|Hk']; cbn [andb].
    + destruct (isObjectLike v); [|rewrite set_fresh by exact Hno; reflexivity].
      rewrite (Hitems eq_refl), set_fresh by exact Hno. reflexivity.
    + rewrite set_fresh by exact Hno. reflexivity.
Qed.

Lemma copyAllowed_fixed es : forall acc,
  NoDup (List.map fst (acc ++ es)) -> Forall CleanEntry' es ->
  loop (copyEntry sanitize) es acc = Some (acc ++ es).
Proof.
  induction es as [|[k v] rest IH]; intros acc Hnd Hall; cbn [loop].
  - rewrite app_nil_r. reflexivity.
  - inversion Hall as [|? ? Hkv Hrest]; subst.
    destruct (NoDup_keys_app_cons acc k v rest Hnd) as [Hno Hnd'].
    rewrite copyEntry_fixed by assumption.
    rewrite IH by assumption. rewrite <- app_assoc. reflexivity.
Qed.

Lemma get_not_allowed key o :
  allowed key = false -> Forall CleanEntry' o -> get key o = None.
Proof.
  intros Hk Hall. apply get_absent. intros Hin.
  apply in_map_iff in Hin as ([k v] & <- & Hin).
  rewrite List.Forall_forall in Hall. destruct (Hall _ Hin) as (Ha & _).
  cbn [fst] in *. congruence.
Qed.

Lemma Clean_Fixed o : Clean' o -> Fixed' (JObj o).
Proof.
  intros [Hnd Hall]. unfold Fixed. rewrite sanitize_object.
  unfold copyAllowed. rewrite (copyAllowed_fixed o []) by assumption. cbn [app].
  unfold flattenCombinators, pickCombinator.
  rewrite !(get_not_allowed _ o) by (reflexivity || assumption).
  reflexivity.
Qed.

(** ** What the sanitiser builds is a sanitised object *)

Lemma set_Clean key v o : Clean' o -> CleanEntry' (key, v) -> Clean' (set key v o).
Proof.
  intros [Hnd Hall] Hkv. split; [apply set_NoDup; exact Hnd | apply set_Forall; assumption].
Qed.

Lemma assign_CleanProps key v ps :
  CleanProps' ps -> Fixed' v -> CleanProps' (assign key v ps).
Proof.
  intros [Hnd Hall] Hv. unfold assign.
  destruct (String.eqb_spec key "__proto__") as [->|Hk]; [split; assumption|].
  split; [apply set_NoDup; exact Hnd|].
  apply (set_Forall (fun kv => fst kv <> "__proto__" /\ Fixed' (snd kv))); auto.
Qed.

Lemma CleanProps_nil : CleanProps' [].
Proof. split; constructor. Qed.

Lemma sanitizeProperties_clean v ps :
  Forall Settled' (children v) ->
  sanitizeProperties sanitize v = Some ps -> CleanProps' ps.
Proof.
  intros Hall. rewrite sanitizeProperties_entries.
  apply (loop_invariant CleanProps' (fun kv => Settled' (snd kv))).
  - intros props kv props' Hprops Hkv. unfold sanitizeProperty.
    destruct (sanitize (snd kv)) as [s|] eqn:Hs; [|discriminate].
    intros [= <-]. apply assign_CleanProps; [exact Hprops | apply Hkv; exact Hs].
  - apply (Forall_entries Settled'). exact Hall.
  - apply CleanProps_nil.
Qed.

Lemma isObjectLike_false_Fixed v : isObjectLike v = false -> Fixed' v.
Proof. destruct v; cbn; try discriminate; reflexivity. Qed.

Lemma copyEntry_clean acc k v acc' :
  Clean' acc -> Settled' v -> Forall Settled' (children v) ->
  copyEntry sanitize acc (k, v) = Some acc' -> Clean' acc'.
Proof.
  intros Hacc Hv Hchildren. unfold copyEntry. cbn [fst snd].
  destruct (allowed k) eqn:Hallowed; cbn [negb]; [|intros [= <-]; exact Hacc].
  destruct (String.eqb_spec k "properties") as [->|Hk]; cbn [andb].
  - destruct (isObjectLike v) eqn:Hobj.
    + destruct (sanitizeProperties sanitize v) as [ps|] eqn:Hps; [|discriminate].
      intros [= <-]. apply set_Clean; [exact Hacc|].
      split; [reflexivity|]. split; [|discriminate].
      intros _. cbn [snd]. eapply sanitizeProperties_clean; eassumption.
    + intros [= <-]. apply set_Clean; [exact Hacc|].
      split; [reflexivity|]. split; [|discriminate].
      intros _. cbn [snd]. destruct v; cbn in Hobj; try discriminate; exact I.
  - destruct (String.eqb_spec k "items") as [->|Hk']; cbn [andb].
    + destruct (isObjectLike v) eqn:Hobj.
      * destruct (sanitize v) as [items|] eqn:Hitems; [|discriminate].
        intros [= <-]. apply set_Clean; [exact Hacc|].
        split; [reflexivity|]. split; [discriminate|]. intros _. apply Hv. exact Hitems.
      * intros [= <-]. apply set_Clean; [exact Hacc|].
        split; [reflexivity|]. split; [discriminate|]. intros _.
        apply isObjectLike_false_Fixed. exact Hobj.
    + intros [= <-]. apply set_Clean; [exact Hacc|]. split; [exact Hallowed|].
      split; intros E; cbn [fst] in E; congruence.
Qed.

Lemma copyAllowed_clean es acc acc' :
  Forall (fun kv => Settled' (snd kv) /\ Forall Settled' (children (snd kv))) es ->
  Clean' acc ->
  loop (copyEntry sanitize) es acc = Some acc' -> Clean' acc'.
Proof.
  intros Hall Hacc.
  apply (loop_invariant Clean'
           (fun kv => Settled' (snd kv) /\ Forall Settled' (children (snd kv))));
    [| exact Hall | exact Hacc].
  intros s [k v] s' Hs [Hv Hc]. apply copyEntry_clean; assumption.
Qed.

Lemma CleanEntry_plain key v :
  allowed key = true -> key <> "properties" -> key <> "items" -> CleanEntry' (key, v).
Proof. intros Ha Hp Hi. split; [exact Ha|]. split; intros E; cbn [fst] in E; congruence. Qed.

Lemma flattenOption_clean st alt st' :
  Clean' (sanitizedSoFar st) ->
  flattenOption Number_toString st alt = Some st' -> Clean' (sanitizedSoFar st').
Proof.
  intros H. unfold flattenOption.
  destruct (optionProps alt) as [opt|]; [|intros [= <-]; exact H].
  destruct (get "const" opt) as [c|].
  { destruct (toString Number_toString c); [|discriminate]. intros [= <-]. exact H. }
  assert (Hnull : forall st'',
            (if isNullName (get "type" opt)
             then Some (mkFlatten (enumValues st) (canEnum st)
                                  (set "nullable" (JBool true) (sanitizedSoFar st)))
             else Some (mkFlatten (enumValues st) false (sanitizedSoFar st))) = Some st'' ->
            Clean' (sanitizedSoFar st'')).
  { intros st''. destruct (isNullName (get "type" opt)); intros [= <-];
      cbn [sanitizedSoFar]; [|exact H].
    apply set_Clean; [exact H|].
    apply CleanEntry_plain; [reflexivity | discriminate | discriminate]. }
  destruct (get "enum" opt) as [[| | | |members|]|]; try apply Hnull.
  intros [= <-]. exact H.
Qed.

Lemma flattenCombinators_clean schema sanitized out :
  Clean' sanitized ->
  flattenCombinators Number_toString schema sanitized = Some out -> Clean' out.
Proof.
  intros H. unfold flattenCombinators.
  destruct (pickCombinator schema) as [[| | | |[|o os]|]|]; try (intros [= <-]; exact H).
  destruct (loop (flattenOption Number_toString) (o :: os) (mkFlatten [] true sanitized))
    as [st|] eqn:Hloop; [|discriminate].
  assert (Hst : Clean' (sanitizedSoFar st)).
  { revert Hloop.
    apply (loop_invariant (fun st => Clean' (sanitizedSoFar st)) (fun _ => True)).
    - intros s x s' Hs _. apply flattenOption_clean. exact Hs.
    - apply List.Forall_forall. auto.
    - exact H. }
  intros [= <-].
  destruct (canEnum _ && _); [|exact Hst].
  assert (Henum : Clean' (set "enum" (JArr (enumValues st)) (sanitizedSoFar st))).
  { apply set_Clean; [exact Hst|].
    apply CleanEntry_plain; [reflexivity | discriminate | discriminate]. }
  cbv zeta. destruct (negb _); [|exact Henum].
  apply set_Clean; [exact Henum|].
  apply CleanEntry_plain; [reflexivity | discriminate | discriminate].
Qed.

(** What the sanitiser returns for a value it returns as it is, and so
    it is for every value directly below. *)
Lemma sanitize_settles : forall v,
  Settled' v /\ Forall Settled' (children v).
Proof.
  induction v as [| | | |xs IH|es IH] using JSON_ind;
    try (split; [intros out [= <-]; reflexivity | constructor]).
  - split; [intros out [= <-]; reflexivity|]. cbn [children].
    induction IH as [|x rest [Hx _] _ IHrest]; constructor; assumption.
  - split.
    + intros out. rewrite sanitize_object.
      destruct (copyAllowed sanitize es) as [sanitized|] eqn:Hcopy; [|discriminate].
      destruct (flattenCombinators Number_toString es sanitized) as [flattened|] eqn:Hflat;
        [|discriminate].
      intros [= <-]. apply Clean_Fixed.
      eapply flattenCombinators_clean; [|exact Hflat].
      apply (copyAllowed_clean es [] sanitized IH); [split; constructor | exact Hcopy].
    + cbn [children]. induction IH as [|kv rest [Hx _] _ IHrest]; cbn [List.map];
        constructor; assumption.
Qed.

(** ** Where the sanitiser raises *)

Lemma existsb_false {A} (f : A -> bool) l x :
  existsb f l = false -> In x l -> f x = false.
Proof.
  intros H Hin. destruct (f x) eqn:E; [|reflexivity].
  rewrite <- H. symmetry. apply existsb_exists. exists x. auto.
Qed.

Lemma toString_returns : forall c,
  hasOwnToString c = false -> exists s, toString Number_toString c = Some s.
Proof.
  induction c as [| [|] | | |xs IH|es IH] using JSON_ind; intros H;
    try (eexists; reflexivity).
  - cbn [hasOwnToString] in H. cbn [toString].
    assert (Heach : exists rendered,
              (fix each (l : list JSON) : option (list string) :=
                 match l with
                 | [] => Some []
                 | x :: rest =>
                     match (match x with
                            | JNull => Some ""
                            | _ => toString Number_toString x
                            end), each rest with
                     | Some s, Some more => Some (s :: more)
                     | _, _ => None
                     end
                 end) xs = Some rendered).
    { induction IH as [|x rest Hx _ IHrest]; [eexists; reflexivity|].
      cbn [existsb] in H. apply orb_false_iff in H as [Hx' Hrest'].
      destruct (IHrest Hrest') as [more ->]. destruct (Hx Hx') as [s Hs].
      destruct x; try (rewrite Hs); eexists; reflexivity. }
    destruct Heach as [rendered ->]. eexists. reflexivity.
  - cbn [hasOwnToString] in H. apply orb_false_iff in H as [H _].
    cbn [toString]. rewrite H. eexists. reflexivity.
Qed.

Lemma get_In key v : forall o, get key o = Some v -> In (key, v) o.
Proof.
  induction o as [|[k x] rest IH]; cbn [get]; [discriminate|].
  destruct (String.eqb_spec k key) as [->|Hk]; [intros [= ->]; left; reflexivity|].
  intros H. right. apply IH. exact H.
Qed.

Lemma hasOwnToString_member es k v :
  hasOwnToString (JObj es) = false -> In (k, v) es -> hasOwnToString v = false.
Proof.
  cbn [hasOwnToString]. intros H Hin. apply orb_false_iff in H as [_ H].
  apply (existsb_false _ _ (k, v) H Hin).
Qed.

Lemma hasOwnToString_children v :
  hasOwnToString v = false -> Forall (fun c => hasOwnToString c = false) (children v).
Proof.
  intros H. apply List.Forall_forall. intros c Hin.
  destruct v as [| | | |xs|es]; cbn [children] in Hin; try contradiction.
  - cbn [hasOwnToString] in H. apply (existsb_false _ _ c H Hin).
  - apply in_map_iff in Hin as ([k x] & <- & Hin).
    apply (hasOwnToString_member es k x H Hin).
Qed.

Lemma pickCombinator_member schema v :
  pickCombinator schema = Some v -> exists key, In (key, v) schema.
Proof.
  unfold pickCombinator, nullish. intros H.
  destruct (get "anyOf" schema) as [a|] eqn:Ha.
  - destruct a; try (injection H as <-; eexists; apply get_In; exact Ha).
    destruct (get "oneOf" schema) as [b|] eqn:Hb.
    + destruct b; try (injection H as <-; eexists; apply get_In; exact Hb).
      eexists; apply get_In; exact H.
    + eexists; apply get_In; exact H.
  - destruct (get "oneOf" schema) as [b|] eqn:Hb.
    + destruct b; try (injection H as <-; eexists; apply get_In; exact Hb).
      eexists; apply get_In; exact H.
    + eexists; apply get_In; exact H.
Qed.

Lemma flattenOption_returns st alt :
  hasOwnToString alt = false ->
  exists st', flattenOption Number_toString st alt = Some st'.
Proof.
  intros H. unfold flattenOption.
  destruct alt as [| | | |xs|opt]; cbn [optionProps get]; try (eexists; reflexivity).
  destruct (get "const" opt) as [c|] eqn:Hc.
  - destruct (toString_returns c) as [s ->]; [|eexists; reflexivity].
    eapply hasOwnToString_member; [exact H | apply get_In; exact Hc].
  - destruct (get "enum" opt) as [[| | | |members|]|];
      try (destruct (isNullName (get "type" opt))); eexists; reflexivity.
Qed.

Lemma flattenCombinators_returns schema sanitized :
  hasOwnToString (JObj schema) = false ->
  exists out, flattenCombinators Number_toString schema sanitized = Some out.
Proof.
  intros H. unfold flattenCombinators.
  destruct (pickCombinator schema) as [[| | | |[|o os]|]|] eqn:Hpick;
    try (eexists; reflexivity).
  destruct (pickCombinator_member schema _ Hpick) as [key Hin].
  pose proof (hasOwnToString_member schema key _ H Hin) as Halts.
  destruct (loop_returns (fun alt => hasOwnToString alt = false)
              (flattenOption Number_toString) (o :: os) (mkFlatten [] true sanitized))
    as [st ->].
  - intros s x Hx. apply flattenOption_returns. exact Hx.
  - apply (hasOwnToString_children (JArr (o :: os)) Halts).
  - eexists. reflexivity.
Qed.

Lemma sanitizeProperties_returns v :
  Forall (fun c => exists out, sanitize c = Some out) (children v) ->
  exists ps, sanitizeProperties sanitize v = Some ps.
Proof.
  intros Hall. rewrite sanitizeProperties_entries.
  apply (loop_returns (fun kv => exists out, sanitize (snd kv) = Some out)).
  - intros props kv [out Hout]. unfold sanitizeProperty. rewrite Hout.
    eexists. reflexivity.
  - apply (Forall_entries (fun c => exists out, sanitize c = Some out)). exact Hall.
Qed.

Lemma Forall_returns (l : list JSON) :
  Forall (Returns Number_toString) l ->
  Forall (fun c => hasOwnToString c = false) l ->
  Forall (fun c => exists out, sanitize c = Some out) l.
Proof.
  intros H. induction H as [|c rest Hc _ IH]; intros Hno; [constructor|].
  inversion Hno; subst. constructor; auto.
Qed.

Lemma copyEntry_returns acc k v :
  Returns Number_toString v -> Forall (Returns Number_toString) (children v) ->
  hasOwnToString v = false ->
  exists acc', copyEntry sanitize acc (k, v) = Some acc'.
Proof.
  intros Hv Hchildren Hno. unfold copyEntry. cbn [fst snd].
  destruct (negb (allowed k)); [eexists; reflexivity|].
  destruct ((k =? "properties") && isObjectLike v).
  - destruct (sanitizeProperties_returns v) as [ps ->]; [|eexists; reflexivity].
    apply Forall_returns; [exact Hchildren | apply hasOwnToString_children; exact Hno].
  - destruct ((k =? "items") && isObjectLike v); [|eexists; reflexivity].
    destruct (Hv Hno) as [out ->]. eexists. reflexivity.
Qed.

(** The sanitiser returns on every value in which no object has a member
    named [toString]. *)
Lemma sanitize_returns : forall v,
  Returns Number_toString v /\ Forall (Returns Number_toString) (children v).
Proof.
  induction v as [| | | |xs IH|es IH] using JSON_ind;
    try (split; [intros _; eexists; reflexivity | constructor]).
  - split; [intros _; eexists; reflexivity|]. cbn [children].
    induction IH as [|x rest [Hx _] _ IHrest]; constructor; assumption.
  - split.
    + intros Hno. rewrite sanitize_object.
      destruct (loop_returns
                  (fun kv => Returns Number_toString (snd kv)
                             /\ Forall (Returns Number_toString) (children (snd kv))
                             /\ hasOwnToString (snd kv) = false)
                  (copyEntry sanitize) es []) as [sanitized Hcopy].
      * intros s [k v] (Hv & Hc & Hn). apply copyEntry_returns; assumption.
      * apply List.Forall_forall. intros [k v] Hin.
        rewrite List.Forall_forall in IH. destruct (IH _ Hin) as [Hv Hc].
        repeat split; auto. eapply hasOwnToString_member; eassumption.
      * unfold copyAllowed. rewrite Hcopy.
        destruct (flattenCombinators_returns es sanitized Hno) as [out ->].
        eexists. reflexivity.
    + cbn [children]. induction IH as [|kv rest [Hx _] _ IHrest]; cbn [List.map];
        constructor; assumption.
Qed.

End Idempotence.

Section Flattening.
Import SchemaSanitizer SanitizerSpec.
Variable Number_toString : Z -> string.

Lemma set_set_same key v : forall o, set key v (set key v o) = set key v o.
Proof.
  induction o as [|[k x] rest IH]; cbn [set].
  - rewrite String.eqb_refl. reflexivity.
  - destruct (k =? key) eqn:E; cbn [set]; rewrite E; [reflexivity | rewrite IH; reflexivity].
Qed.

(** The state of the loop after one alternative, by its reading. *)
Lemma flattenOption_classify st alt :
  flattenOption Number_toString st alt
  = if isUnrenderable Number_toString alt then None
    else Some (mkFlatten (enumValues st ++ literalsOf Number_toString alt)
                         (canEnum st && negb (isUnrecognised Number_toString alt))
                         (if isNullType Number_toString alt
                          then set "nullable" (JBool true) (sanitizedSoFar st)
                          else sanitizedSoFar st)).
Proof.
  unfold flattenOption, literalsOf, isUnrecognised, isNullType, isUnrenderable, classify.
  destruct st as [values can so]. cbn [enumValues canEnum sanitizedSoFar].
  destruct alt as [| | | |xs|opt]; cbn [optionProps get];
    rewrite ?app_nil_r, ?andb_true_r, ?andb_false_r; try reflexivity.
  destruct (get "const" opt) as [c|].
  { destruct (toString Number_toString c); [rewrite andb_true_r|]; reflexivity. }
  destruct (get "enum" opt) as [[| | | |members|]|];
    try (destruct (isNullName (get "type" opt));
         rewrite ?app_nil_r, ?andb_true_r, ?andb_false_r; reflexivity).
Qed.

Lemma flattenOptions_fold alts : forall st,
  loop (flattenOption Number_toString) alts st
  = if existsb (isUnrenderable Number_toString) alts then None
    else Some (mkFlatten (enumValues st ++ collected Number_toString alts)
                         (canEnum st && negb (existsb (isUnrecognised Number_toString) alts))
                         (if existsb (isNullType Number_toString) alts
                          then set "nullable" (JBool true) (sanitizedSoFar st)
                          else sanitizedSoFar st)).
Proof.
  induction alts as [|alt rest IH]; intros st; cbn [loop existsb].
  - unfold collected. cbn. rewrite app_nil_r, andb_true_r. destruct st; reflexivity.
  - rewrite flattenOption_classify.
    destruct (isUnrenderable Number_toString alt); cbn [orb]; [reflexivity|].
    rewrite IH. cbn [enumValues canEnum sanitizedSoFar].
    destruct (existsb (isUnrenderable Number_toString) rest); [reflexivity|].
    unfold collected. cbn [List.map List.concat]. rewrite <- app_assoc.
    rewrite negb_orb, andb_assoc. f_equal. f_equal.
    destruct (isNullType Number_toString alt); cbn [orb].
    + destruct (existsb (isNullType Number_toString) rest);
        [apply set_set_same | reflexivity].
    + reflexivity.
Qed.

End Flattening.

Section SanitizerClaims.
Import SchemaSanitizer SanitizerSpec.

(** C5.  The schema sanitiser is idempotent on every JSON value:
    sanitising what the sanitiser returned returns it unchanged, so that
    [sanitize(sanitize(x))] and [sanitize(x)] are the same computation.
    The sanitiser returns unless some object of the value has a member
    named [toString], the only values on which [String(opt.const)] can
    raise; both sides then raise alike. *)
Theorem C5_sanitize_idempotent (Number_toString : Z -> string) (x : JSON) :
  (sanitizeSchema Number_toString x ≫= sanitizeSchema Number_toString)
  = sanitizeSchema Number_toString x
  /\ match sanitizeSchema Number_toString x with
     | Some y => sanitizeSchema Number_toString y = Some y
     | None => hasOwnToString x = true
     end.
Proof.
  pose proof (proj1 (sanitize_settles Number_toString x)) as Hset.
  pose proof (proj1 (sanitize_returns Number_toString x)) as Hret.
  unfold Settled, Fixed, Returns in *.
  destruct (sanitizeSchema Number_toString x) as [y|] eqn:Hx; cbn.
  - rewrite (Hset y eq_refl). split; reflexivity.
  - split; [reflexivity|].
    destruct (hasOwnToString x); [reflexivity|].
    destruct (Hret eq_refl) as [out Hout]. discriminate.
Qed.

(** C4 (as amended).  Let the combinator of an object schema be the first
    of [anyOf], [oneOf], [allOf] that is present and not [null], and let it
    be a non-empty array.  Each alternative that is an object contributes
    the rendering of its [const], else the members of its [enum] array,
    else marks the result [nullable] when its type is ["null"], else stops
    the flattening, as an array alternative does; alternatives that are
    no objects are passed over.  When the rendering of a [const] raises,
    and when the filtered copy cannot be built because a schema below
    raises, the sanitiser raises.  Otherwise [enum] becomes the collected
    literals, and [type] becomes ["string"] when the filtered copy has
    none that is truthy, exactly when nothing stopped the flattening and a
    literal was collected; otherwise [enum] and [type] are those of the
    filtered copy.  Every other key is that of the filtered copy.  The
    two-constant [anyOf] of the scenario sanitises to the object with
    [type] ["string"] and [enum] [["red", "blue"]]. *)
Theorem C4_flatten_combinator (Number_toString : Z -> string)
    (schema : Obj) (alts : list JSON) :
  pickCombinator schema = Some (JArr alts) ->
  alts <> [] ->
  match copyAllowed (sanitizeSchema Number_toString) schema with
  | None => sanitizeSchema Number_toString (JObj schema) = None
  | Some filtered =>
      if existsb (isUnrenderable Number_toString) alts
      then sanitizeSchema Number_toString (JObj schema) = None
      else
        exists out,
          sanitizeSchema Number_toString (JObj schema) = Some (JObj out)
          /\ get "enum" out
             = (if flattens Number_toString alts
                then Some (JArr (collected Number_toString alts))
                else get "enum" filtered)
          /\ get "type" out
             = (if flattens Number_toString alts
                   && negb (truthyProp (get "type" filtered))
                then Some (JStr "string") else get "type" filtered)
          /\ get "nullable" out
             = (if existsb (isNullType Number_toString) alts
                then Some (JBool true) else get "nullable" filtered)
          /\ (forall key, key <> "enum" -> key <> "type" -> key <> "nullable" ->
                get key out = get key filtered)
  end
  /\ (exists out,
        sanitizeSchema Number_toString
          (JObj [("anyOf", JArr [JObj [("type", JStr "string"); ("const", JStr "red")];
                                 JObj [("type", JStr "string"); ("const", JStr "blue")]])])
        = Some (JObj out)
        /\ Permutation out [("type", JStr "string");
                            ("enum", JArr [JStr "red"; JStr "blue"])]).
Proof.
  intros Hpick Hne. split.
  2:{ eexists. split; [reflexivity|]. apply perm_swap. }
  rewrite sanitize_object.
  destruct (copyAllowed (sanitizeSchema Number_toString) schema) as [filtered|];
    [|reflexivity].
  unfold flattenCombinators. rewrite Hpick.
  destruct alts as [|o os]; [congruence|].
  rewrite flattenOptions_fold. cbn [enumValues canEnum sanitizedSoFar app andb].
  set (alts := o :: os).
  destruct (existsb (isUnrenderable Number_toString) alts); [reflexivity|].
  cbn [enumValues canEnum sanitizedSoFar app andb]. cbv zeta.
  set (marked := if existsb (isNullType Number_toString) alts
                 then set "nullable" (JBool true) filtered else filtered).
  assert (Hm : forall key, key <> "nullable" -> get key marked = get key filtered).
  { intros key Hk. subst marked.
    destruct (existsb (isNullType Number_toString) alts); [|reflexivity].
    apply get_set_ne. exact Hk. }
  assert (Hn : get "nullable" marked
               = if existsb (isNullType Number_toString) alts then Some (JBool true)
                 else get "nullable" filtered).
  { subst marked. destruct (existsb (isNullType Number_toString) alts);
      [apply get_set_eq | reflexivity]. }
  fold (flattens Number_toString alts).
  eexists. split; [reflexivity|].
  destruct (flattens Number_toString alts); cbn [andb].
  - rewrite (get_set_ne "type" "enum") by discriminate.
    rewrite (Hm "type") by discriminate.
    destruct (truthyProp (get "type" filtered)) eqn:Ht; cbn [negb].
    + repeat split.
      * apply get_set_eq.
      * rewrite (get_set_ne "type" "enum") by discriminate. apply Hm. discriminate.
      * rewrite (get_set_ne "nullable" "enum") by discriminate. exact Hn.
      * intros key He Hty Hnu. rewrite get_set_ne by exact He. apply Hm. exact Hnu.
    + repeat split.
      * rewrite (get_set_ne "enum" "type") by discriminate. apply get_set_eq.
      * apply get_set_eq.
      * rewrite (get_set_ne "nullable" "type"), (get_set_ne "nullable" "enum")
          by discriminate. exact Hn.
      * intros key He Hty Hnu. rewrite !get_set_ne by assumption. apply Hm. exact Hnu.
  - repeat split.
    + apply Hm. discriminate.
    + apply Hm. discriminate.
    + exact Hn.
    + intros key _ _ Hnu. apply Hm. exact Hnu.
Qed.

Lemma C4_witness :
  exists out,
    sanitizeSchema decimal
      (JObj [("type", JStr "string"); ("title", JStr "Colour");
             ("oneOf", JArr [JObj [("const", JStr "red")];
                             JObj [("enum", JArr [JStr "green"; JStr "blue"])];
                             JObj [("type", JStr "null")]])])
    = Some (JObj out)
    /\ get "enum" out = Some (JArr [JStr "red"; JStr "green"; JStr "blue"])
    /\ get "type" out = Some (JStr "string")
    /\ get "nullable" out = Some (JBool true)
    /\ get "title" out = None.
Proof.
  destruct (proj1 (C4_flatten_combinator decimal
      [("type", JStr "string"); ("title", JStr "Colour");
       ("oneOf", JArr [JObj [("const", JStr "red")];
                       JObj [("enum", JArr [JStr "green"; JStr "blue"])];
                       JObj [("type", JStr "null")]])]
      [JObj [("const", JStr "red")];
       JObj [("enum", JArr [JStr "green"; JStr "blue"])];
       JObj [("type", JStr "null")]]
      eq_refl ltac:(discriminate)))
    as (out & Hout & Henum & Htype & Hnull & Hother).
  exists out. split; [exact Hout|]. split; [exact Henum|]. split; [exact Htype|].
  split; [exact Hnull|].
  exact (Hother "title" ltac:(discriminate) ltac:(discriminate) ltac:(discriminate)).
Defined.

(** C4 as stated fails: an empty [anyOf] hides a [oneOf] of constants, so
    no [enum] is set; an alternative that is a plain string is passed over
    and [enum] is set all the same; a numeric [const] is collected as its
    rendering, not as the number; and a [const] that is an object with a
    member named [toString] makes the sanitiser raise.  The one number
    here is rendered in decimal, whatever [Number::toString] gives beyond
    2^53. *)
Lemma C4_counterexample :
  sanitizeSchema decimal (JObj [("anyOf", JArr []);
                                ("oneOf", JArr [JObj [("const", JStr "a")]])])
  = Some (JObj [])
  /\ sanitizeSchema decimal
       (JObj [("anyOf", JArr [JObj [("const", JStr "a")]; JStr "free"])])
     = Some (JObj [("enum", JArr [JStr "a"]); ("type", JStr "string")])
  /\ sanitizeSchema decimal (JObj [("type", JStr "integer");
                                   ("anyOf", JArr [JObj [("const", JNum 1)]])])
     = Some (JObj [("type", JStr "integer"); ("enum", JArr [JStr "1"])])
  /\ sanitizeSchema decimal
       (JObj [("anyOf", JArr [JObj [("const", JObj [("toString", JNum 1)])]])])
     = None.
Proof. repeat split; reflexivity. Qed.

End SanitizerClaims.

(* ===================================================================== *)
(** * Thought signatures: the strict pass and the ledger                  *)
(* ===================================================================== *)

Section EnsureSignatures.
Import Gemini ThoughtSignature SignatureSpec.
Variable svc : Service.

Lemma ensureParts_found t : forall ps p, ensureParts svc t p true ps = ps.
Proof.
  induction ps as [|part rest IH]; intros p; simpl; [reflexivity|].
  destruct part; simpl; rewrite IH; reflexivity.
Qed.

Lemma ensureParts_no_call t : forall ps p,
  forallb (fun q => negb (isFunctionCall q)) ps = true ->
  ensureParts svc t p false ps = ps.
Proof.
  induction ps as [|part rest IH]; intros p H; simpl in *; [reflexivity|].
  apply andb_true_iff in H as [Hp Hr].
  destruct part; simpl in *; try discriminate; rewrite IH; auto.
Qed.

Lemma ensureParts_first t : forall pre p name args sig post,
  forallb (fun q => negb (isFunctionCall q)) pre = true ->
  ensureParts svc t p false (pre ++ FunctionCallPart name args sig :: post)
  = pre ++ FunctionCallPart name args (Some (ensuredSignature svc t (p + length pre) sig)) :: post.
Proof.
  induction pre as [|part rest IH]; intros p name args sig post H; simpl in *.
  - rewrite ensureParts_found. rewrite Nat.add_0_r.
    unfold ensuredSignature, nonEmpty.
    destruct sig as [s|]; simpl; [destruct (s =? ""); reflexivity | reflexivity].
  - apply andb_true_iff in H as [Hp Hr].
    replace (p + S (length rest)) with (S p + length rest) by lia.
    destruct part; simpl in *; try discriminate; rewrite IH; auto.
Qed.

Lemma ensureParts_length t : forall ps p found,
  length (ensureParts svc t p found ps) = length ps.
Proof.
  induction ps as [|part rest IH]; intros p found; simpl; [reflexivity|].
  destruct part; simpl; rewrite IH; reflexivity.
Qed.

Lemma ensuredPart_keeps t p part :
  nonEmpty (thoughtSignatureOf part) = true -> ensuredPart svc t p part = part.
Proof.
  destruct part as [| |name args sig|]; simpl; try reflexivity.
  unfold ensuredSignature, nonEmpty. destruct sig as [s|]; [|discriminate].
  intros H. rewrite H. reflexivity.
Qed.

Lemma ensureParts_lookup t : forall ps p0 found i part,
  ps !! i = Some part ->
  ensureParts svc t p0 found ps !! i
  = Some (if negb found && firstCallAt ps i
          then ensuredPart svc t (p0 + i) part else part).
Proof.
  induction ps as [|x rest IH]; intros p0 found i part H; [discriminate|].
  destruct i as [|i].
  - simpl in H. inversion H; subst x. unfold firstCallAt. simpl.
    rewrite Nat.add_0_r.
    destruct part as [| |name args sig|]; simpl; try (rewrite andb_false_r; reflexivity).
    destruct found; simpl; [reflexivity|].
    unfold ensuredSignature, nonEmpty.
    destruct sig as [s|]; simpl; [destruct (s =? ""); reflexivity | reflexivity].
  - simpl in H.
    replace (p0 + S i) with (S p0 + i) by lia.
    assert (Hf : firstCallAt (x :: rest) (S i)
                 = negb (isFunctionCall x) && firstCallAt rest i).
    { unfold firstCallAt. simpl. rewrite H.
      destruct (isFunctionCall part), (isFunctionCall x); simpl; reflexivity. }
    rewrite Hf.
    destruct x as [| |name args sig|]; simpl;
      rewrite (IH _ _ _ _ H); simpl; try reflexivity.
    rewrite andb_false_r. reflexivity.
Qed.

Lemma ensureTurns_lookup : forall contents t0 t turn,
  contents !! t = Some turn ->
  ensureTurns svc t0 contents !! t
  = Some (match role turn with
          | Model => mkContent Model (ensureParts svc (t0 + t) 0 false (parts turn))
          | User => turn
          end).
Proof.
  induction contents as [|c rest IH]; intros t0 t turn H; [discriminate|].
  destruct t as [|t]; simpl in *.
  - inversion H; subst. rewrite Nat.add_0_r. reflexivity.
  - rewrite (IH (S t0) t turn H). replace (S t0 + t) with (t0 + S t) by lia. reflexivity.
Qed.

Lemma ensureTurns_length : forall contents t0,
  length (ensureTurns svc t0 contents) = length contents.
Proof. induction contents; intros; simpl; auto. Qed.

End EnsureSignatures.

Section SignatureClaims.
Import Gemini ThoughtSignature SignatureSpec.

(** C10.  [ensureSignatures] changes at most the first functionCall part
    of a model-role turn, and then only its [thoughtSignature], which is
    set when the part lacks one; turns and parts keep their number and
    order, user-role turns and every other part are the same, and with
    the strict flag off the contents come back as they were. *)
Theorem C10_ensureSignatures_frame (svc : Service) (contents : list Content) (strict : bool) :
  ensureSignatures svc contents false = contents
  /\ length (ensureSignatures svc contents strict) = length contents
  /\ forall t turn, contents !! t = Some turn ->
       exists turn',
         ensureSignatures svc contents strict !! t = Some turn'
         /\ role turn' = role turn
         /\ length (parts turn') = length (parts turn)
         /\ (role turn = User -> turn' = turn)
         /\ forall p part, parts turn !! p = Some part ->
              exists part',
                parts turn' !! p = Some part'
                /\ (part' = part
                    \/ (strict = true /\ role turn = Model
                        /\ firstCallAt (parts turn) p = true
                        /\ nonEmpty (thoughtSignatureOf part) = false
                        /\ exists name args sig,
                             part = FunctionCallPart name args sig
                             /\ part' = FunctionCallPart name args
                                  (Some (default DUMMY_THOUGHT_SIGNATURE
                                           (getSignature t p svc))))).
Proof.
  split; [reflexivity|]. split.
  { unfold ensureSignatures. destruct strict; simpl; [apply ensureTurns_length | reflexivity]. }
  intros t turn Ht. unfold ensureSignatures.
  destruct strict; simpl.
  2:{ exists turn. repeat split; auto. intros p part Hp. exists part. auto. }
  rewrite (ensureTurns_lookup svc contents 0 t turn Ht). simpl.
  destruct turn as [r ps]; simpl in *. destruct r.
  - eexists. repeat split; auto. intros p part Hp. exists part. auto.
  - eexists. split; [reflexivity|]. simpl.
    split; [reflexivity|]. split; [apply ensureParts_length|].
    split; [discriminate|].
    intros p part Hp. rewrite (ensureParts_lookup svc t ps 0 false p part Hp). simpl.
    destruct (firstCallAt ps p) eqn:Hfirst; [|eexists; split; [reflexivity | left; reflexivity]].
    destruct (nonEmpty (thoughtSignatureOf part)) eqn:Hne.
    + rewrite ensuredPart_keeps by exact Hne. eexists; split; [reflexivity | left; reflexivity].
    + eexists; split; [reflexivity|]. right.
      repeat split; auto.
      unfold firstCallAt in Hfirst. rewrite Hp in Hfirst.
      destruct part as [| |name args sig|]; simpl in Hfirst; try discriminate.
      exists name, args, sig. split; [reflexivity|]. simpl.
      unfold ensuredSignature. simpl in Hne. unfold nonEmpty in Hne.
      destruct sig as [s|]; [|reflexivity].
      rewrite Hne. reflexivity.
Qed.

(** C1 (as amended).  In a model-role turn, strict mode leaves the first
    functionCall part with a [thoughtSignature] -- its own when it had a
    non-empty one, else the token stored for that very position, else the
    sentinel -- and leaves every other part as it was: a later
    functionCall part carries a signature afterwards exactly when it
    carried one before. *)
Theorem C1_first_call_signed (svc : Service) (contents : list Content) (t : nat)
    (turn : Content) (before after : list Part)
    (name : string) (args : option JSON) (sig : option string) :
  contents !! t = Some turn ->
  role turn = Model ->
  parts turn = before ++ FunctionCallPart name args sig :: after ->
  forallb (fun q => negb (isFunctionCall q)) before = true ->
  let signed := FunctionCallPart name args (Some (ensuredSignature svc t (length before) sig)) in
  ensureSignatures svc contents true !! t
  = Some (mkContent Model (before ++ signed :: after))
  /\ (nonEmpty sig = true -> Some (ensuredSignature svc t (length before) sig) = sig)
  /\ (nonEmpty sig = false ->
        ensuredSignature svc t (length before) sig
        = default DUMMY_THOUGHT_SIGNATURE (getSignature t (length before) svc))
  /\ onlyFirstCallCarries (before ++ signed :: after)
     = forallb (fun q => negb (carriesSignature q)) (List.filter isFunctionCall after).
Proof.
  intros Ht Hrole Hparts Hbefore. cbv zeta. split; [|split; [|split]].
  - unfold ensureSignatures. cbn [negb].
    rewrite (ensureTurns_lookup svc contents 0 t turn Ht), Hrole, Hparts.
    rewrite ensureParts_first by exact Hbefore. reflexivity.
  - unfold ensuredSignature, nonEmpty. destruct sig as [s|]; [|discriminate].
    intros ->. reflexivity.
  - unfold ensuredSignature, nonEmpty. destruct sig as [s|]; [|reflexivity].
    intros ->. reflexivity.
  - unfold onlyFirstCallCarries. rewrite List.filter_app.
    assert (Hnone : List.filter isFunctionCall before = []).
    { clear - Hbefore. induction before as [|q rest IH]; [reflexivity|].
      cbn in *. apply andb_true_iff in Hbefore as [Hq Hrest].
      destruct (isFunctionCall q); [discriminate | auto]. }
    rewrite Hnone. reflexivity.
Qed.

Lemma C1_witness :
  let contents :=
    [mkContent User [TextPart "go" None None];
     mkContent Model [TextPart "calling" None None;
                      FunctionCallPart "tool_a" (Some (JObj [])) None;
                      FunctionCallPart "tool_b" (Some (JObj [])) None]] in
  ensureSignatures (store_signature 1 1 "stored_sig" fresh) contents true !! 1
  = Some (mkContent Model [TextPart "calling" None None;
                           FunctionCallPart "tool_a" (Some (JObj [])) (Some "stored_sig");
                           FunctionCallPart "tool_b" (Some (JObj [])) None]).
Proof.
  cbv zeta.
  exact (proj1 (C1_first_call_signed (store_signature 1 1 "stored_sig" fresh)
            [mkContent User [TextPart "go" None None];
             mkContent Model [TextPart "calling" None None;
                              FunctionCallPart "tool_a" (Some (JObj [])) None;
                              FunctionCallPart "tool_b" (Some (JObj [])) None]]
            1
            (mkContent Model [TextPart "calling" None None;
                              FunctionCallPart "tool_a" (Some (JObj [])) None;
                              FunctionCallPart "tool_b" (Some (JObj [])) None])
            [TextPart "calling" None None]
            [FunctionCallPart "tool_b" (Some (JObj [])) None]
            "tool_a" (Some (JObj [])) None eq_refl eq_refl eq_refl eq_refl)).
Defined.

(** C1 as stated fails where a later functionCall part of the turn
    already carries a signature: it still carries it afterwards. *)
Lemma C1_counterexample :
  let contents :=
    [mkContent Model [FunctionCallPart "tool_a" (Some (JObj [])) None;
                      FunctionCallPart "tool_b" (Some (JObj [])) (Some "sig_b")]] in
  ensureSignatures fresh contents true
  = [mkContent Model
       [FunctionCallPart "tool_a" (Some (JObj [])) (Some DUMMY_THOUGHT_SIGNATURE);
        FunctionCallPart "tool_b" (Some (JObj [])) (Some "sig_b")]]
  /\ onlyFirstCallCarries
       [FunctionCallPart "tool_a" (Some (JObj [])) (Some DUMMY_THOUGHT_SIGNATURE);
        FunctionCallPart "tool_b" (Some (JObj [])) (Some "sig_b")] = false.
Proof. cbv zeta. split; reflexivity. Qed.

End SignatureClaims.

Section LedgerProofs.
Import Gemini ThoughtSignature.
Variable ids : nat -> string.

Lemma storeIfPresent_store sig svc : store (storeIfPresent sig svc) = store svc.
Proof. destruct sig as [s|]; cbn; [destruct (negb (s =? "")); reflexivity | reflexivity]. Qed.

Lemma convertPart_store acc part :
  store (ResponseConverter.thoughtSignatures (ResponseConverter.convertPart ids acc part))
  = store (ResponseConverter.thoughtSignatures acc).
Proof.
  destruct part as [txt thought sig|mime data sig|name args sig|name response];
    cbn [ResponseConverter.convertPart]; try reflexivity.
  - destruct ((txt =? "") && nonEmpty sig); cbn; apply storeIfPresent_store.
  - cbn. apply storeIfPresent_store.
Qed.

Lemma convertParts_store ps svc :
  store (snd (ResponseConverter.convertParts ids ps svc)) = store svc.
Proof.
  unfold ResponseConverter.convertParts. cbn [snd].
  change svc with (ResponseConverter.thoughtSignatures (ResponseConverter.mkAcc [] svc 0)) at 2.
  generalize (ResponseConverter.mkAcc [] svc 0).
  induction ps as [|part rest IH]; intros acc; cbn [fold_left]; [reflexivity|].
  rewrite IH. apply convertPart_store.
Qed.

Lemma convert_store messageId response svc :
  store (snd (ResponseConverter.convert ids messageId response svc)) = store svc.
Proof.
  unfold ResponseConverter.convert.
  destruct (candidates response ≫= head) as [c|]; cbn [snd]; [|reflexivity].
  pose proof (convertParts_store (default [] (Gemini.parts <$> Gemini.content c)) svc) as H.
  destruct (ResponseConverter.convertParts ids _ svc) as [blocks svc']. exact H.
Qed.

End LedgerProofs.

Section LedgerClaims.
Import Gemini ThoughtSignature.

(** Response translation never writes the keyed ledger: whatever the
    response, [getSignature] answers afterwards what it answered before. *)
Theorem convert_leaves_ledger (ids : nat -> string) (messageId : string)
    (response : GenerateContentResponse) (svc : Service) (t p : nat) :
  getSignature t p (snd (ResponseConverter.convert ids messageId response svc))
  = getSignature t p svc.
Proof. unfold getSignature. rewrite convert_store. reflexivity. Qed.

(** C3 at the failing input: a response whose functionCall part carries
    the token [sig_A], translated with a fresh ledger.  The token ends in
    the last-text slot only; no position of the ledger holds it, and the
    replay of that tool call receives the sentinel. *)
Theorem C3_token_not_recoverable :
  let ids := fun _ : nat => "toolu_0" in
  let call sig := FunctionCallPart "get_weather" (Some (JObj [("city", JStr "Paris")])) sig in
  let response :=
    mkResponse (Some [mkCandidate (Some (mkContent Model [call (Some "sig_A")]))
                                  (Some "STOP")]) None in
  let svc := snd (ResponseConverter.convert ids "msg_0" response fresh) in
  getLastTextSignature svc = Some "sig_A"
  /\ (forall t p, getSignature t p svc = None)
  /\ ensureSignatures svc
       [mkContent User [TextPart "weather in Paris?" None None];
        mkContent Model [call None]] true
     = [mkContent User [TextPart "weather in Paris?" None None];
        mkContent Model [call (Some DUMMY_THOUGHT_SIGNATURE)]].
Proof.
  cbv zeta. split; [reflexivity|]. split; [|reflexivity].
  intros t p. unfold getSignature. rewrite convert_store. apply lookup_empty.
Qed.

End LedgerClaims.

(* ===================================================================== *)
(** * Request translation: tool names, turn splitting, replay             *)
(* ===================================================================== *)

Section RequestProofs.
Import Anthropic RequestConverter RequestSpec.
Variable toolNameMap : gmap string string.
Variable capabilities : ModelCapabilities.

Lemma collect_textAndImage role blocks : forall acc,
  textAndImageParts (fold_left (collectBlock role capabilities toolNameMap) blocks acc)
  = textAndImageParts acc ++ omap textImagePart blocks.
Proof.
  induction blocks as [|b rest IH]; intros acc; cbn [fold_left omap].
  - rewrite app_nil_r. reflexivity.
  - rewrite IH. destruct b; cbn; rewrite <- ?app_assoc; reflexivity.
Qed.

Lemma collect_toolResults role blocks : forall acc,
  toolResultContents (fold_left (collectBlock role capabilities toolNameMap) blocks acc)
  = toolResultContents acc ++ omap (toolResultTurn toolNameMap) blocks.
Proof.
  induction blocks as [|b rest IH]; intros acc; cbn [fold_left omap].
  - rewrite app_nil_r. reflexivity.
  - rewrite IH. destruct b; cbn; rewrite <- ?app_assoc; reflexivity.
Qed.

Lemma omap_textImage_nonempty blocks :
  existsb isTextOrImage blocks = true -> omap textImagePart blocks <> [].
Proof.
  induction blocks as [|b rest IH]; cbn [existsb omap]; [discriminate|].
  destruct b; cbn; try discriminate; auto.
Qed.

Lemma convertSingleMessage_user blocks :
  convertSingleMessage toolNameMap (mkMessage user (ContentBlocks blocks)) capabilities
  = match omap textImagePart blocks, omap (toolResultTurn toolNameMap) blocks with
    | [], [] => [Gemini.mkContent Gemini.User [Gemini.TextPart "" None None]]
    | [], results => results
    | textImage, results => Gemini.mkContent Gemini.User textImage :: results
    end.
Proof.
  unfold convertSingleMessage. cbn [role content mapRole isModel].
  rewrite collect_textAndImage, collect_toolResults. cbn [textAndImageParts toolResultContents app].
  destruct (omap textImagePart blocks) as [|p ps];
    destruct (omap (toolResultTurn toolNameMap) blocks) as [|r rs]; reflexivity.
Qed.

End RequestProofs.

Section ToolNames.
Import Anthropic RequestConverter RequestSpec.

Lemma recordToolUse_lookup id blocks : forall m : gmap string string,
  fold_left recordToolUse blocks m !! id
  = fold_left (overrideName id) (omap toolUseOf blocks) (m !! id).
Proof.
  induction blocks as [|b rest IH]; intros m; [reflexivity|].
  destruct b as [| |id' name input| |];
    cbn [fold_left recordToolUse]; rewrite IH;
    cbn [omap list_omap toolUseOf fold_left]; try reflexivity.
  f_equal. unfold overrideName. cbn [fst snd].
  destruct (String.eqb_spec id' id) as [->|Hne].
  - rewrite lookup_insert_eq. reflexivity.
  - rewrite lookup_insert_ne by exact Hne. reflexivity.
Qed.

Lemma scanMessage_lookup id messages : forall m : gmap string string,
  fold_left scanMessage messages m !! id
  = fold_left (overrideName id) (toolUses messages) (m !! id).
Proof.
  induction messages as [|msg rest IH]; intros m; cbn [fold_left]; [reflexivity|].
  rewrite IH. unfold toolUses. cbn [List.map List.concat]. rewrite fold_left_app.
  f_equal. unfold scanMessage, toolUsesOfMessage.
  destruct (content msg); [reflexivity | apply recordToolUse_lookup].
Qed.

Lemma buildToolNameMap_lookup id messages :
  buildToolNameMap messages !! id = lastNameFor id (toolUses messages).
Proof.
  unfold buildToolNameMap. rewrite scanMessage_lookup. rewrite lookup_empty. reflexivity.
Qed.

Lemma overrideName_absent id uses : forall init,
  ~ In id (List.map fst uses) -> fold_left (overrideName id) uses init = init.
Proof.
  induction uses as [|[i n] rest IH]; intros init Hno; cbn [fold_left]; [reflexivity|].
  cbn in Hno. rewrite IH by tauto. unfold overrideName. cbn [fst].
  destruct (String.eqb_spec i id); [tauto | reflexivity].
Qed.

Lemma lastNameFor_last id declared before after :
  ~ In id (List.map fst after) ->
  lastNameFor id (before ++ (id, declared) :: after) = Some declared.
Proof.
  intros Hno. unfold lastNameFor. rewrite fold_left_app. cbn [fold_left].
  rewrite overrideName_absent by exact Hno.
  unfold overrideName. cbn [fst snd]. rewrite String.eqb_refl. reflexivity.
Qed.

Lemma lastNameFor_absent id uses :
  ~ In id (List.map fst uses) -> lastNameFor id uses = None.
Proof. apply overrideName_absent. Qed.

Lemma convertMessages_fold capabilities (m : gmap string string) messages : forall acc,
  fold_left (fun contents message =>
               contents ++ convertSingleMessage m message capabilities) messages acc
  = acc ++ List.concat (List.map (fun message => convertSingleMessage m message capabilities)
                                 messages).
Proof.
  induction messages as [|msg rest IH]; intros acc; cbn [fold_left List.map List.concat].
  - rewrite app_nil_r. reflexivity.
  - rewrite IH, app_assoc. reflexivity.
Qed.

Lemma ensureTurns_keeps_user svc turn contents : forall t,
  In turn contents -> Gemini.role turn = Gemini.User ->
  In turn (ThoughtSignature.ensureTurns svc t contents).
Proof.
  induction contents as [|c rest IH]; intros t Hin Hrole; [contradiction|].
  cbn [ThoughtSignature.ensureTurns]. destruct Hin as [->|Hin].
  - left. rewrite Hrole. reflexivity.
  - right. apply IH; assumption.
Qed.

End ToolNames.

Section RequestClaims.
Import Anthropic RequestConverter RequestSpec.

(** C8.  A user-role message holding at least one text or image block
    and at least one [tool_result] block becomes one user turn with the
    text and image parts, followed by one user turn per [tool_result]
    block in their order, each made of a single functionResponse part
    named by [resolveToolName]. *)
Theorem C8_user_turn_split (toolNameMap : gmap string string)
    (capabilities : ModelCapabilities) (blocks : list ContentBlockParam) :
  existsb isTextOrImage blocks = true ->
  existsb isToolResult blocks = true ->
  convertSingleMessage toolNameMap (mkMessage user (ContentBlocks blocks)) capabilities
  = Gemini.mkContent Gemini.User (omap textImagePart blocks)
    :: omap (toolResultTurn toolNameMap) blocks
  /\ Forall (fun turn => exists tool_use_id response,
               turn = Gemini.mkContent Gemini.User
                        [Gemini.FunctionResponsePart
                           (resolveToolName toolNameMap tool_use_id) response])
            (omap (toolResultTurn toolNameMap) blocks)
  /\ length (omap (toolResultTurn toolNameMap) blocks)
     = length (List.filter isToolResult blocks).
Proof.
  intros Hti Htr. split; [|split].
  - rewrite convertSingleMessage_user.
    pose proof (omap_textImage_nonempty blocks Hti) as Hne.
    destruct (omap textImagePart blocks); [congruence|reflexivity].
  - clear. induction blocks as [|b rest IH]; cbn [omap]; [constructor|].
    destruct b; cbn; auto. constructor; [|exact IH].
    unfold convertToolResult. eexists _, _. reflexivity.
  - clear. induction blocks as [|b rest IH]; cbn; [reflexivity|].
    destruct b; cbn; auto.
Qed.

Lemma C8_witness :
  let blocks := [TextBlockParam "see the results";
                 ToolResultBlockParam "toolu_1" (Some (ResultString "42")) None;
                 ToolResultBlockParam "toolu_2" (Some (ResultString "boom")) (Some true)] in
  let toolNameMap := buildToolNameMap
      [mkMessage assistant (ContentBlocks [ToolUseBlock "toolu_1" "add" (JObj []);
                                          ToolUseBlock "toolu_2" "div" (JObj [])])] in
  convertSingleMessage toolNameMap (mkMessage user (ContentBlocks blocks))
    (mkCapabilities "gemini-3-flash-preview" true true (Some "HIGH") 65536)
  = [Gemini.mkContent Gemini.User [Gemini.TextPart "see the results" None None];
     Gemini.mkContent Gemini.User
       [Gemini.FunctionResponsePart "add" (JObj [("result", JStr "42")])];
     Gemini.mkContent Gemini.User
       [Gemini.FunctionResponsePart "div" (JObj [("error", JStr "boom")])]].
Proof.
  cbv zeta.
  refine (eq_trans (proj1 (C8_user_turn_split _ _ _ _ _)) _); reflexivity.
Defined.

(** C6 (as amended).  After the pre-pass and the translation, a
    [tool_result] block of a user-role message is present in the output as a
    user turn made of one functionResponse part; its name is the one
    declared by the last [tool_use] block of the history that carries the
    block's [tool_use_id], and the id itself when no [tool_use] block
    carries it. *)
Theorem C6_tool_result_name (messages : list Message) (capabilities : ModelCapabilities)
    (message : Message) (blocks : list ContentBlockParam)
    (tool_use_id : string) (result : option ToolResultContent) (is_error : option bool) :
  In message messages ->
  role message = user ->
  content message = ContentBlocks blocks ->
  In (ToolResultBlockParam tool_use_id result is_error) blocks ->
  let toolNameMap := buildToolNameMap messages in
  let name := resolveToolName toolNameMap tool_use_id in
  (exists response,
      convertToolResult toolNameMap tool_use_id result is_error
      = Gemini.mkContent Gemini.User [Gemini.FunctionResponsePart name response]
      /\ In (Gemini.mkContent Gemini.User [Gemini.FunctionResponsePart name response])
            (translateMessages messages capabilities))
  /\ (forall before declared after,
        toolUses messages = before ++ (tool_use_id, declared) :: after ->
        ~ In tool_use_id (List.map fst after) ->
        name = declared)
  /\ (~ In tool_use_id (List.map fst (toolUses messages)) -> name = tool_use_id).
Proof.
  intros Hmsg Hrole Hcontent Hblock. cbv zeta. split; [|split].
  - eexists. split; [reflexivity|].
    set (m := buildToolNameMap messages).
    assert (Hin : In (convertToolResult m tool_use_id result is_error)
                     (List.concat (List.map (fun message =>
                        convertSingleMessage m message capabilities) messages))).
    { apply in_concat. exists (convertSingleMessage m message capabilities). split.
      - apply in_map_iff. exists message. auto.
      - destruct message as [r c]. cbn in Hrole, Hcontent. subst r c.
        rewrite convertSingleMessage_user.
        assert (Hres : In (convertToolResult m tool_use_id result is_error)
                          (omap (toolResultTurn m) blocks)).
        { apply list_elem_of_In. apply list_elem_of_omap.
          exists (ToolResultBlockParam tool_use_id result is_error).
          split; [apply list_elem_of_In; exact Hblock | reflexivity]. }
        destruct (omap textImagePart blocks);
          destruct (omap (toolResultTurn m) blocks); try contradiction; cbn; auto. }
    unfold translateMessages, convertMessages.
    rewrite convertMessages_fold. cbn [app].
    destruct (isGemini3 capabilities); [|exact Hin].
    unfold ThoughtSignature.ensureSignatures. cbn [negb].
    apply ensureTurns_keeps_user; [exact Hin | reflexivity].
  - intros before declared after Huses Hlast.
    unfold resolveToolName. rewrite buildToolNameMap_lookup, Huses.
    rewrite lastNameFor_last by exact Hlast. reflexivity.
  - intros Hno. unfold resolveToolName.
    rewrite buildToolNameMap_lookup, lastNameFor_absent by exact Hno. reflexivity.
Qed.

Lemma C6_witness :
  let call := ToolUseBlock "toolu_1" "add" (JObj [("a", JNum 1)]) in
  let known := ToolResultBlockParam "toolu_1" (Some (ResultString "2")) None in
  let unknown := ToolResultBlockParam "toolu_9" (Some (ResultString "?")) None in
  let messages := [mkMessage assistant (ContentBlocks [call]);
                   mkMessage user (ContentBlocks [known; unknown])] in
  resolveToolName (buildToolNameMap messages) "toolu_1" = "add"
  /\ resolveToolName (buildToolNameMap messages) "toolu_9" = "toolu_9".
Proof.
  cbv zeta. split.
  - refine (proj1 (proj2 (C6_tool_result_name
        [mkMessage assistant (ContentBlocks [ToolUseBlock "toolu_1" "add" (JObj [("a", JNum 1)])]);
         mkMessage user (ContentBlocks
           [ToolResultBlockParam "toolu_1" (Some (ResultString "2")) None;
            ToolResultBlockParam "toolu_9" (Some (ResultString "?")) None])]
        (mkCapabilities "gemini-3-flash-preview" true true (Some "HIGH") 65536)
        (mkMessage user (ContentBlocks
           [ToolResultBlockParam "toolu_1" (Some (ResultString "2")) None;
            ToolResultBlockParam "toolu_9" (Some (ResultString "?")) None]))
        _ "toolu_1" (Some (ResultString "2")) None _ eq_refl eq_refl _))
      [] "add" [] eq_refl _).
    + simpl. auto.
    + simpl. auto.
    + simpl. tauto.
  - refine (proj2 (proj2 (C6_tool_result_name
        [mkMessage assistant (ContentBlocks [ToolUseBlock "toolu_1" "add" (JObj [("a", JNum 1)])]);
         mkMessage user (ContentBlocks
           [ToolResultBlockParam "toolu_1" (Some (ResultString "2")) None;
            ToolResultBlockParam "toolu_9" (Some (ResultString "?")) None])]
        (mkCapabilities "gemini-3-flash-preview" true true (Some "HIGH") 65536)
        (mkMessage user (ContentBlocks
           [ToolResultBlockParam "toolu_1" (Some (ResultString "2")) None;
            ToolResultBlockParam "toolu_9" (Some (ResultString "?")) None]))
        _ "toolu_9" (Some (ResultString "?")) None _ eq_refl eq_refl _)) _).
    + simpl. auto.
    + simpl. auto.
    + simpl. intros [H|[]]. discriminate H.
Defined.

(** C6 as stated fails twice: a [tool_result] block inside an
    assistant-role message yields no functionResponse part at all, and
    when two [tool_use] blocks share an id the result is named after the
    later one, not after the first. *)
Lemma C6_counterexample :
  let capabilities := mkCapabilities "gemini-2.5-pro" true false None 65536 in
  let read := ToolUseBlock "toolu_1" "read_file" (JObj []) in
  let write := ToolUseBlock "toolu_1" "write_file" (JObj []) in
  let result := ToolResultBlockParam "toolu_1" (Some (ResultString "ok")) None in
  translateMessages [mkMessage assistant (ContentBlocks [read]);
                     mkMessage assistant (ContentBlocks [result])] capabilities
  = [Gemini.mkContent Gemini.Model [Gemini.FunctionCallPart "read_file" (Some (JObj [])) None];
     Gemini.mkContent Gemini.Model [Gemini.TextPart "" None None]]
  /\ translateMessages [mkMessage assistant (ContentBlocks [read]);
                        mkMessage assistant (ContentBlocks [write]);
                        mkMessage user (ContentBlocks [result])] capabilities
     = [Gemini.mkContent Gemini.Model
          [Gemini.FunctionCallPart "read_file" (Some (JObj [])) None];
        Gemini.mkContent Gemini.Model
          [Gemini.FunctionCallPart "write_file" (Some (JObj [])) None];
        Gemini.mkContent Gemini.User
          [Gemini.FunctionResponsePart "write_file" (JObj [("result", JStr "ok")])]].
Proof. cbv zeta. split; reflexivity. Qed.

End RequestClaims.

Section ReplayProofs.
Import Anthropic RequestConverter RequestSpec ReplaySpec.
Variable toolNameMap : gmap string string.
Variable capabilities : ModelCapabilities.
Hypothesis strict : isGemini3 capabilities = true.

Lemma collect_model_invariant blocks : forall acc,
  forallb noCall (textAndImageParts acc) = true ->
  SentinelFirst (toolUseParts acc) ->
  let acc' := fold_left (collectBlock Gemini.Model capabilities toolNameMap) blocks acc in
  forallb noCall (textAndImageParts acc') = true /\ SentinelFirst (toolUseParts acc').
Proof.
  induction blocks as [|b rest IH]; intros acc Hti Htu; cbn [fold_left]; [auto|].
  apply IH; destruct b as [txt|src|id name input|id c e|ty];
    cbn [collectBlock textAndImageParts toolUseParts]; auto.
  - rewrite forallb_app, Hti. reflexivity.
  - rewrite forallb_app, Hti. destruct src; reflexivity.
  - rewrite strict. cbn [isModel andb].
    destruct (toolUseParts acc) as [|first more]; cbn; [reflexivity | exact Htu].
Qed.

Lemma ensureParts_sentinel svc t texts calls :
  forallb noCall texts = true -> SentinelFirst calls ->
  ThoughtSignature.ensureParts svc t 0 false (texts ++ calls) = texts ++ calls.
Proof.
  intros Hti Htu. destruct calls as [|first more].
  - rewrite app_nil_r. apply ensureParts_no_call. exact Hti.
  - destruct first as [| |name args [s|]|]; try contradiction. cbn in Htu. subst s.
    rewrite ensureParts_first by exact Hti. reflexivity.
Qed.

Lemma convertSingleMessage_settled message :
  Forall Settled (convertSingleMessage toolNameMap message capabilities).
Proof.
  destruct message as [r c]. unfold convertSingleMessage. cbn [role content].
  destruct c as [s|blocks].
  - constructor; [|constructor]. intros svc t. destruct r; reflexivity.
  - destruct r; cbn [mapRole isModel].
    + set (acc := fold_left _ blocks _).
      assert (Hu : Forall Settled
                (List.app (if Nat.ltb 0 (length (textAndImageParts acc))
                           then [Gemini.mkContent Gemini.User (textAndImageParts acc)] else [])
                          (toolResultContents acc))).
      { apply Forall_app. split.
        - destruct (Nat.ltb 0 _); constructor; [intros svc t; reflexivity | constructor].
        - subst acc. rewrite collect_toolResults. cbn [toolResultContents app].
          clear. induction blocks as [|b rest IH]; cbn [omap list_omap]; [constructor|].
          destruct b; cbn; auto. constructor; [intros svc t; reflexivity | exact IH]. }
      destruct (Nat.eqb _ 0); [|exact Hu].
      constructor; [intros svc t; reflexivity | constructor].
    + destruct (collect_model_invariant blocks (mkCollected [] [] []) eq_refl I) as [Hti Htu].
      set (acc := fold_left _ blocks _) in *.
      assert (Hm : Settled (Gemini.mkContent Gemini.Model
                              (textAndImageParts acc ++ toolUseParts acc))).
      { intros svc t. cbn [Gemini.role Gemini.parts].
        rewrite ensureParts_sentinel by assumption. reflexivity. }
      destruct (Nat.ltb 0 _); cbn [length Nat.eqb].
      * constructor; [exact Hm | constructor].
      * constructor; [intros svc t; reflexivity | constructor].
Qed.

Lemma ensureTurns_settled svc contents : forall t,
  Forall Settled contents -> ThoughtSignature.ensureTurns svc t contents = contents.
Proof.
  induction contents as [|turn rest IH]; intros t Hall; [reflexivity|].
  inversion Hall as [|? ? Hturn Hrest]; subst.
  cbn [ThoughtSignature.ensureTurns]. rewrite IH by exact Hrest.
  f_equal. exact (Hturn svc t).
Qed.

Lemma assembled_settled messages :
  Forall Settled
    (List.concat (List.map (fun message =>
                    convertSingleMessage toolNameMap message capabilities) messages)).
Proof.
  induction messages as [|msg rest IH]; cbn [List.map List.concat]; [constructor|].
  apply Forall_app. split; [apply convertSingleMessage_settled | exact IH].
Qed.

End ReplayProofs.

Section ReplayClaims.
Import Anthropic RequestConverter RequestSpec ReplaySpec.

(** For a strict model the signature pass finds every first functionCall
    part already carrying the sentinel: whatever the ledger holds, the
    contents are the plain concatenation of the converted messages. *)
Theorem replay_ignores_ledger (svc : ThoughtSignature.Service)
    (toolNameMap : gmap string string) (messages : list Message)
    (capabilities : ModelCapabilities) :
  convertMessages svc toolNameMap messages capabilities
  = List.concat (List.map (fun message =>
                   convertSingleMessage toolNameMap message capabilities) messages).
Proof.
  unfold convertMessages. rewrite convertMessages_fold. cbn [app].
  destruct (isGemini3 capabilities) eqn:Hstrict; [|reflexivity].
  unfold ThoughtSignature.ensureSignatures. cbn [negb].
  apply ensureTurns_settled. apply assembled_settled. exact Hstrict.
Qed.

End ReplayClaims.

(* ===================================================================== *)
(** * Stream converter: event grammar, stop reason, failures              *)
(* ===================================================================== *)

Section StreamProofs.
Import Gemini StreamConverter StreamGrammar.
Variable ids : nat -> string.

Lemma read_snoc requireDelta es e :
  read requireDelta (es ++ [e]) = step requireDelta (read requireDelta es) e.
Proof. unfold read. rewrite fold_left_app. reflexivity. Qed.

Lemma existsb_snoc {A} (f : A -> bool) l x : existsb f (l ++ [x]) = existsb f l || f x.
Proof. rewrite existsb_app. simpl. rewrite orb_false_r. reflexivity. Qed.

Lemma finalStopReason_snoc es e :
  finalStopReason (es ++ [e])
  = match e with message_delta r _ => Some r | _ => finalStopReason es end.
Proof. unfold finalStopReason. rewrite fold_left_app. reflexivity. Qed.

Ltac fields :=
  cbn [emitEvent setBlock setMessageStarted setUsage setService drawToolUse close
       blockIndex messageStarted currentBlockType currentThinkingSignature
       hasEmittedToolUse inputTokens outputTokens thoughtSignatures drawn enqueued closed] in *.

Ltac stream_simpl :=
  repeat (rewrite ?read_snoc, ?existsb_snoc, ?finalStopReason_snoc;
          cbn [emitEvent setBlock setMessageStarted setUsage setService drawToolUse close
               blockIndex messageStarted currentBlockType currentThinkingSignature
               hasEmittedToolUse inputTokens outputTokens thoughtSignatures drawn
               enqueued closed isToolUseStart isError orb andb negb step isType]).

Ltac stream_done Hr :=
  unfold Consistent;
  repeat (stream_simpl; rewrite ?Hr, ?Nat.eqb_refl, ?orb_true_r, ?orb_false_r);
  repeat split; auto.

Lemma closeCurrentBlock_consistent st :
  Consistent st -> messageStarted st = true ->
  Consistent (closeCurrentBlock st)
  /\ messageStarted (closeCurrentBlock st) = true
  /\ currentBlockType (closeCurrentBlock st) = None.
Proof.
  intros (Hfin & Herr & Hph) Hs. unfold closeCurrentBlock.
  destruct st as [bi ms cbt sig tu it ot svc dr q cl]; fields. subst ms.
  destruct cbt as [bt|]; [|unfold Consistent; fields; auto].
  destruct (read false q) as [| |nxt|i saw| | |] eqn:Hr; try contradiction. subst i.
  destruct (isType thinking (Some bt) && negb (sig =? "")); stream_done Hr.
Qed.

(** After [closeCurrentBlock] on a started stream the reader stands
    between two blocks. *)
Lemma closeCurrentBlock_between st :
  Consistent st -> messageStarted st = true ->
  read false (enqueued (closeCurrentBlock st)) = BetweenBlocks (blockIndex (closeCurrentBlock st)).
Proof.
  intros H Hs. destruct (closeCurrentBlock_consistent st H Hs) as ((_ & _ & Hph) & Hms & Hc).
  rewrite Hms, Hc in Hph.
  destruct (read false (enqueued (closeCurrentBlock st))); try contradiction.
  congruence.
Qed.

Lemma handleTextDelta_consistent txt st :
  Consistent st -> messageStarted st = true ->
  Consistent (handleTextDelta txt st) /\ messageStarted (handleTextDelta txt st) = true.
Proof.
  intros H Hs. unfold handleTextDelta.
  destruct (isType text (currentBlockType st)) eqn:Ht; cbn [negb].
  - destruct H as (Hfin & Herr & Hph).
    destruct st as [bi ms cbt sig tu it ot svc dr q cl]; fields. subst ms.
    destruct cbt as [[| |]|]; try discriminate.
    destruct (read false q) as [| |nxt|i saw| | |] eqn:Hr; try contradiction. subst i.
    stream_done Hr.
  - pose proof (closeCurrentBlock_between st H Hs) as Hr.
    destruct (closeCurrentBlock_consistent st H Hs) as ((Hfin & Herr & _) & Hms & Hc).
    destruct (closeCurrentBlock st) as [bi ms cbt sig tu it ot svc dr q cl]; fields.
    subst ms cbt. stream_done Hr.
Qed.

Lemma handleThinkingDelta_consistent thought signature st :
  Consistent st -> messageStarted st = true ->
  Consistent (handleThinkingDelta thought signature st)
  /\ messageStarted (handleThinkingDelta thought signature st) = true.
Proof.
  intros H Hs. unfold handleThinkingDelta.
  destruct (isType thinking (currentBlockType st)) eqn:Ht; cbn [negb].
  - destruct H as (Hfin & Herr & Hph).
    destruct st as [bi ms cbt sig tu it ot svc dr q cl]; fields. subst ms.
    destruct cbt as [[| |]|]; try discriminate.
    destruct (read false q) as [| |nxt|i saw| | |] eqn:Hr; try contradiction. subst i.
    destruct signature as [s|]; [destruct (negb (s =? ""))|];
      destruct (negb (thought =? "")); stream_done Hr.
  - pose proof (closeCurrentBlock_between st H Hs) as Hr.
    destruct (closeCurrentBlock_consistent st H Hs) as ((Hfin & Herr & _) & Hms & Hc).
    destruct (closeCurrentBlock st) as [bi ms cbt sig tu it ot svc dr q cl]; fields.
    subst ms cbt.
    destruct signature as [s|]; [destruct (negb (s =? ""))|];
      destruct (negb (thought =? "")); stream_done Hr.
Qed.

Lemma handleToolUse_consistent name args st :
  Consistent st -> messageStarted st = true ->
  Consistent (handleToolUse ids name args st)
  /\ messageStarted (handleToolUse ids name args st) = true.
Proof.
  intros H Hs. unfold handleToolUse.
  pose proof (closeCurrentBlock_between st H Hs) as Hr.
  destruct (closeCurrentBlock_consistent st H Hs) as ((Hfin & Herr & _) & Hms & Hc).
  destruct (closeCurrentBlock st) as [bi ms cbt sig tu it ot svc dr q cl]; fields.
  subst ms cbt. stream_done Hr.
Qed.

Lemma setService_consistent svc st :
  Consistent st -> Consistent (setService svc st).
Proof. destruct st; unfold Consistent; fields; auto. Qed.

Lemma handleNullToolUse_consistent st :
  Consistent st -> messageStarted st = true ->
  Consistent (handleNullToolUse st) /\ messageStarted (handleNullToolUse st) = true.
Proof.
  intros H Hs. unfold handleNullToolUse.
  destruct (closeCurrentBlock_consistent st H Hs) as (Hc & Hms & _).
  destruct (closeCurrentBlock st); unfold Consistent in *; fields; auto.
Qed.

Lemma processPart_consistent raw st :
  Consistent st -> messageStarted st = true ->
  forall st', (processPart ids raw st = Done st' \/ processPart ids raw st = Threw st') ->
  Consistent st' /\ messageStarted st' = true.
Proof.
  intros H Hs st' Hout. destruct raw as [part|sig|]; cbn [processPart] in Hout.
  3:{ destruct Hout as [Hout|Hout]; inversion Hout; subst; auto. }
  2:{ destruct Hout as [Hout|Hout]; inversion Hout; subst. apply handleNullToolUse_consistent.
      - apply setService_consistent. exact H.
      - destruct st; exact Hs. }
  set (st1 := setService _ st) in Hout.
  assert (H1 : Consistent st1) by (apply setService_consistent; exact H).
  assert (Hs1 : messageStarted st1 = true) by (destruct st; exact Hs).
  clearbody st1.
  destruct part as [txt thought sig|mime data sig|name args sig|name response].
  - destruct ((txt =? "") && nonEmpty (thoughtSignatureOf (TextPart txt thought sig))).
    { destruct Hout as [Hout|Hout]; inversion Hout; subst; auto. }
    destruct (isTrue thought).
    { destruct Hout as [Hout|Hout]; inversion Hout; subst.
      apply handleThinkingDelta_consistent; auto. }
    destruct (negb (txt =? "")).
    { destruct Hout as [Hout|Hout]; inversion Hout; subst.
      apply handleTextDelta_consistent; auto. }
    destruct Hout as [Hout|Hout]; inversion Hout; subst; auto.
  - destruct Hout as [Hout|Hout]; inversion Hout; subst; auto.
  - destruct Hout as [Hout|Hout]; inversion Hout; subst.
    apply handleToolUse_consistent; auto.
  - destruct Hout as [Hout|Hout]; inversion Hout; subst; auto.
Qed.

Lemma processParts_consistent ps : forall st,
  Consistent st -> messageStarted st = true ->
  forall st', (processParts ids ps st = Done st' \/ processParts ids ps st = Threw st') ->
  Consistent st' /\ messageStarted st' = true.
Proof.
  induction ps as [|raw rest IH]; intros st H Hs st' Hout; cbn [processParts] in Hout.
  - destruct Hout as [Hout|Hout]; inversion Hout; subst; auto.
  - destruct (processPart ids raw st) as [s|s] eqn:Hp.
    + destruct (processPart_consistent raw st H Hs s (or_introl Hp)) as [H' Hs'].
      eapply IH; eauto.
    + destruct (processPart_consistent raw st H Hs s (or_intror Hp)) as [H' Hs'].
      destruct Hout as [Hout|Hout]; inversion Hout; subst; auto.
Qed.

Lemma processChunk_consistent chunk st :
  Consistent st ->
  forall st', (processChunk ids chunk st = Done st' \/ processChunk ids chunk st = Threw st') ->
  Consistent st' /\ messageStarted st' = true.
Proof.
  intros H st' Hout. unfold processChunk in Hout.
  set (st1 := if negb (messageStarted st) then _ else st) in Hout.
  assert (H1 : Consistent st1 /\ messageStarted st1 = true).
  { subst st1. destruct (messageStarted st) eqn:Hs; cbn [negb]; [auto|].
    destruct H as (Hfin & Herr & Hph).
    destruct st as [bi ms cbt sig tu it ot svc dr q cl]; fields. subst ms.
    destruct (read false q) as [| |nxt|i saw| | |] eqn:Hr; try contradiction.
    destruct cbt; try contradiction.
    unfold emitMessageStart. stream_done Hr. }
  clearbody st1. destruct H1 as [H1 Hs1].
  set (st2 := match usageMetadata chunk with Some _ => _ | None => st1 end) in Hout.
  assert (H2 : Consistent st2 /\ messageStarted st2 = true).
  { subst st2. destruct (usageMetadata chunk); [|auto].
    destruct st1; unfold Consistent in *; fields; auto. }
  clearbody st2. destruct H2 as [H2 Hs2].
  destruct (parts chunk) as [ps|].
  - eapply processParts_consistent; eauto.
  - destruct Hout as [Hout|Hout]; inversion Hout; subst; auto.
Qed.

Lemma processBufferedJson_reached candidate st :
  Reached st -> Reached (processBufferedJson ids candidate st).
Proof.
  intros [H Hq]. destruct candidate as [|chunk]; cbn [processBufferedJson]; [split; auto|].
  destruct (processChunk ids chunk st) as [s|s] eqn:Hp.
  - destruct (processChunk_consistent chunk st H s (or_introl Hp)); split; auto.
  - destruct (processChunk_consistent chunk st H s (or_intror Hp)); split; auto.
Qed.

Lemma processBuffer_reached decoded : forall st,
  Reached st -> Reached (processBuffer ids decoded st).
Proof.
  unfold processBuffer.
  induction decoded as [|c rest IH]; intros st H; cbn [fold_left]; [exact H|].
  apply IH. apply processBufferedJson_reached. exact H.
Qed.

Lemma initial_reached svc : Reached (initial svc).
Proof. unfold Reached, Consistent, initial; cbn. auto. Qed.

(** The end of the stream, reached with every read fulfilled. *)
Lemma finish_reached st :
  Reached st ->
  let out := close (emitMessageEnd (closeCurrentBlock st)) in
  matchesGrammar false (enqueued out) = true
  /\ closed out = true
  /\ existsb isError (enqueued out) = false
  /\ finalStopReason (enqueued out)
     = Some (if hasEmittedToolUse out then Anthropic.tool_use else Anthropic.end_turn).
Proof.
  intros [H Hq]. cbv zeta.
  destruct (messageStarted st) eqn:Hs.
  - pose proof (closeCurrentBlock_between st H Hs) as Hr.
    destruct (closeCurrentBlock_consistent st H Hs) as ((Hfin & Herr & _) & Hms & Hc).
    destruct (closeCurrentBlock st) as [bi ms cbt sig tu it ot svc dr q cl]; fields.
    subst ms cbt. unfold emitMessageEnd, matchesGrammar. fields.
    rewrite andb_false_r. stream_done Hr.
  - destruct Hq as [Hq|Hq]; [discriminate|].
    destruct H as (Hfin & Herr & Hph).
    destruct st as [bi ms cbt sig tu it ot svc dr q cl]; fields. subst ms q.
    cbn in Hph. destruct cbt; try contradiction. subst bi.
    cbn. destruct tu; auto.
Qed.

Lemma pull_fulfilled leftover : forall css st,
  Reached st ->
  let out := pull ids (List.map ReadData css) leftover st in
  matchesGrammar false (enqueued out) = true
  /\ closed out = true
  /\ existsb isError (enqueued out) = false
  /\ finalStopReason (enqueued out)
     = Some (if hasEmittedToolUse out then Anthropic.tool_use else Anthropic.end_turn).
Proof.
  induction css as [|decoded rest IH]; intros st H; cbn [List.map pull].
  - apply finish_reached. destruct leftover; [apply processBufferedJson_reached|]; exact H.
  - apply IH. apply processBuffer_reached. exact H.
Qed.

(** A rejected read ends the stream with one [error] event. *)
Lemma pull_rejected leftover message rest : forall css st,
  Reached st ->
  let out := pull ids (List.map ReadData css ++ ReadRejected message :: rest) leftover st in
  exists sent,
    enqueued out = sent ++ [error message]
    /\ existsb isError sent = false
    /\ closed out = true
    /\ sent = enqueued (processBuffer ids (List.concat css) st).
Proof.
  induction css as [|decoded more IH]; intros st H; cbn [List.map app pull].
  - exists (enqueued st). destruct H as [(_ & Herr & _) _].
    destruct st; cbn. auto.
  - destruct (IH (processBuffer ids decoded st) (processBuffer_reached decoded st H))
      as (sent & Hq & Herr & Hcl & Hsent).
    exists sent. repeat split; auto.
    rewrite Hsent. cbn [List.concat]. unfold processBuffer. rewrite fold_left_app. reflexivity.
Qed.

(** [convertParts] pushes a [tool_use] block exactly for the functionCall
    parts. *)
Lemma convertPart_tool_use acc part :
  existsb ResponseConverter.isToolUse
    (ResponseConverter.blocks (ResponseConverter.convertPart ids acc part))
  = existsb ResponseConverter.isToolUse (ResponseConverter.blocks acc) || isFunctionCall part.
Proof.
  destruct part as [txt thought sig|mime data sig|name args sig|name response];
    cbn [ResponseConverter.convertPart isFunctionCall].
  - destruct ((txt =? "") && nonEmpty sig); cbn; [rewrite orb_false_r; reflexivity|].
    destruct (isTrue thought); [|destruct (negb (txt =? ""))];
      rewrite ?existsb_snoc; cbn; rewrite ?orb_false_r; reflexivity.
  - rewrite orb_false_r; reflexivity.
  - cbn. rewrite existsb_snoc. reflexivity.
  - rewrite orb_false_r; reflexivity.
Qed.

Lemma convertParts_fold_tool_use ps : forall acc,
  existsb ResponseConverter.isToolUse
    (ResponseConverter.blocks (fold_left (ResponseConverter.convertPart ids) ps acc))
  = existsb ResponseConverter.isToolUse (ResponseConverter.blocks acc)
    || existsb isFunctionCall ps.
Proof.
  induction ps as [|part rest IH]; intros acc; cbn [fold_left existsb].
  - rewrite orb_false_r; reflexivity.
  - rewrite IH, convertPart_tool_use, orb_assoc. reflexivity.
Qed.

Lemma convertParts_tool_use ps svc :
  existsb ResponseConverter.isToolUse (fst (ResponseConverter.convertParts ids ps svc))
  = existsb isFunctionCall ps.
Proof.
  unfold ResponseConverter.convertParts. cbn [fst].
  pose proof (convertParts_fold_tool_use ps (ResponseConverter.mkAcc [] svc 0)) as H.
  cbn [ResponseConverter.blocks existsb orb] in H.
  destruct (ResponseConverter.blocks _) as [|b bs] eqn:Hb; cbn [length Nat.eqb].
  - rewrite <- H. reflexivity.
  - exact H.
Qed.

(** ** Invariants stated on the entries reached *)

Section Lifting.
Import StreamSpec.
Variable Inv : State -> list RawPart -> Prop.
Hypothesis Inv_shaped : forall part st seen,
  Inv st seen ->
  exists st', processPart ids (Shaped part) st = Done st'
              /\ Inv st' (seen ++ [Shaped part]).
Hypothesis Inv_null : forall sig st seen,
  Inv st seen ->
  exists st', processPart ids (NullCall sig) st = Threw st'
              /\ Inv st' (seen ++ [NullCall sig]).
Hypothesis Inv_start : forall promptTokens st seen,
  Inv st seen -> Inv (setMessageStarted (emitMessageStart promptTokens st)) seen.
Hypothesis Inv_usage : forall input output st seen,
  Inv st seen -> Inv (setUsage input output st) seen.
Hypothesis Inv_finish : forall st seen,
  Inv st seen -> Inv (close (emitMessageEnd (closeCurrentBlock st))) seen.

Lemma processParts_lifted ps : forall st seen,
  Inv st seen ->
  exists st', (processParts ids ps st = Done st' \/ processParts ids ps st = Threw st')
              /\ Inv st' (seen ++ reached ps).
Proof.
  induction ps as [|raw rest IH]; intros st seen H; cbn [processParts reached].
  - exists st. rewrite app_nil_r. auto.
  - destruct raw as [part|sig|].
    + destruct (Inv_shaped part st seen H) as (st1 & -> & H1).
      destruct (IH st1 _ H1) as (st' & Hout & H').
      exists st'. split; [exact Hout|].
      rewrite <- app_assoc in H'. exact H'.
    + destruct (Inv_null sig st seen H) as (st1 & -> & H1).
      exists st1. auto.
    + exists st. cbn [processPart]. rewrite app_nil_r. auto.
Qed.

Lemma processBufferedJson_lifted candidate st seen :
  Inv st seen ->
  Inv (processBufferedJson ids candidate st) (seen ++ reachedOfCandidate candidate).
Proof.
  intros H. destruct candidate as [|chunk]; cbn [processBufferedJson reachedOfCandidate].
  - rewrite app_nil_r. exact H.
  - unfold processChunk.
    set (st1 := if negb (messageStarted st) then _ else st).
    assert (H1 : Inv st1 seen).
    { subst st1. destruct (messageStarted st); cbn [negb]; [exact H|].
      apply Inv_start. exact H. }
    clearbody st1.
    set (st2 := match usageMetadata chunk with Some _ => _ | None => st1 end).
    assert (H2 : Inv st2 seen).
    { subst st2. destruct (usageMetadata chunk); [|exact H1]. apply Inv_usage. exact H1. }
    clearbody st2.
    destruct (parts chunk) as [ps|]; cbn [default reached].
    + destruct (processParts_lifted ps st2 seen H2) as (st' & [-> | ->] & H'); exact H'.
    + rewrite app_nil_r. exact H2.
Qed.

Lemma processBuffer_lifted decoded : forall st seen,
  Inv st seen ->
  Inv (processBuffer ids decoded st)
      (seen ++ List.concat (List.map reachedOfCandidate decoded)).
Proof.
  unfold processBuffer.
  induction decoded as [|c rest IH]; intros st seen H; cbn [fold_left List.map List.concat].
  - rewrite app_nil_r. exact H.
  - rewrite app_assoc. apply IH. apply processBufferedJson_lifted. exact H.
Qed.

Lemma pull_lifted leftover : forall reads st seen,
  Inv st seen ->
  Inv (pull ids (List.map ReadData reads) leftover st)
      (seen ++ streamReached reads leftover).
Proof.
  unfold streamReached.
  induction reads as [|decoded rest IH]; intros st seen H; cbn [List.map pull List.concat app].
  - apply Inv_finish.
    destruct leftover as [c|]; cbn [List.map List.concat app]; rewrite ?app_nil_r.
    + apply processBufferedJson_lifted. exact H.
    + exact H.
  - rewrite <- app_assoc, List.map_app, List.concat_app, app_assoc.
    apply IH. apply processBuffer_lifted. exact H.
Qed.

End Lifting.

(** The parts got through are the shaped entries reached. *)
Lemma processed_reached ps :
  StreamSpec.processed ps = omap StreamSpec.shapeOf (StreamSpec.reached ps).
Proof.
  induction ps as [|[part|sig|] rest IH]; cbn; [reflexivity | | reflexivity | reflexivity].
  rewrite IH. reflexivity.
Qed.

Lemma omap_concat {A B} (f : A -> option B) (ls : list (list A)) :
  omap f (List.concat ls) = List.concat (List.map (omap f) ls).
Proof.
  induction ls as [|l rest IH]; cbn [List.concat List.map]; [reflexivity|].
  rewrite omap_app, IH. reflexivity.
Qed.

Lemma streamParts_reached reads leftover :
  StreamSpec.streamParts reads leftover
  = omap StreamSpec.shapeOf (StreamSpec.streamReached reads leftover).
Proof.
  unfold StreamSpec.streamParts, StreamSpec.streamReached.
  rewrite omap_concat, List.map_map. f_equal. apply List.map_ext.
  intros [|chunk]; cbn [StreamSpec.partsOfCandidate StreamSpec.reachedOfCandidate];
    [reflexivity | apply processed_reached].
Qed.

(** ** The flag and the blocks started *)

Lemma closeCurrentBlock_flag st :
  hasEmittedToolUse (closeCurrentBlock st) = hasEmittedToolUse st
  /\ existsb isToolUseStart (enqueued (closeCurrentBlock st))
     = existsb isToolUseStart (enqueued st).
Proof.
  unfold closeCurrentBlock. destruct st as [bi ms cbt sig tu it ot svc dr q cl]; fields.
  destruct cbt as [bt|]; [|auto].
  destruct (isType thinking (Some bt) && negb (sig =? ""));
    stream_simpl; rewrite ?orb_false_r; auto.
Qed.

Lemma handleTextDelta_flag txt st :
  hasEmittedToolUse (handleTextDelta txt st) = hasEmittedToolUse st
  /\ existsb isToolUseStart (enqueued (handleTextDelta txt st))
     = existsb isToolUseStart (enqueued st).
Proof.
  unfold handleTextDelta. destruct (isType text (currentBlockType st)); cbn [negb].
  - destruct st; stream_simpl; rewrite ?orb_false_r; auto.
  - destruct (closeCurrentBlock_flag st) as [<- <-].
    destruct (closeCurrentBlock st); stream_simpl; rewrite ?orb_false_r; auto.
Qed.

Lemma handleThinkingDelta_flag thought signature st :
  hasEmittedToolUse (handleThinkingDelta thought signature st) = hasEmittedToolUse st
  /\ existsb isToolUseStart (enqueued (handleThinkingDelta thought signature st))
     = existsb isToolUseStart (enqueued st).
Proof.
  unfold handleThinkingDelta. destruct (isType thinking (currentBlockType st)); cbn [negb].
  - destruct st. destruct signature as [g|]; [destruct (negb (g =? ""))|];
      destruct (negb (thought =? "")); stream_simpl; rewrite ?orb_false_r; auto.
  - destruct (closeCurrentBlock_flag st) as [<- <-].
    destruct (closeCurrentBlock st).
    destruct signature as [g|]; [destruct (negb (g =? ""))|];
      destruct (negb (thought =? "")); stream_simpl; rewrite ?orb_false_r; auto.
Qed.

Lemma handleToolUse_flag name args st :
  hasEmittedToolUse (handleToolUse ids name args st) = true
  /\ existsb isToolUseStart (enqueued (handleToolUse ids name args st)) = true.
Proof.
  unfold handleToolUse. destruct (closeCurrentBlock st).
  stream_simpl. rewrite ?orb_false_r, ?orb_true_r. auto.
Qed.

Lemma Flagged_snoc st st' seen raw :
  StreamSpec.Flagged st seen ->
  hasEmittedToolUse st' = hasEmittedToolUse st || StreamSpec.entersToolUse raw ->
  existsb isToolUseStart (enqueued st')
  = existsb isToolUseStart (enqueued st) || StreamSpec.isCall raw ->
  StreamSpec.Flagged st' (seen ++ [raw]).
Proof.
  intros [Hf Hs] Hf' Hs'. unfold StreamSpec.Flagged.
  rewrite !existsb_snoc, Hf', Hs', Hf, Hs. auto.
Qed.

Lemma processPart_flagged part st seen :
  StreamSpec.Flagged st seen ->
  exists st', processPart ids (Shaped part) st = Done st'
              /\ StreamSpec.Flagged st' (seen ++ [Shaped part]).
Proof.
  intros H. cbn [processPart].
  set (st1 := setService _ st).
  assert (H1 : StreamSpec.Flagged st1 seen) by (destruct st; exact H).
  clearbody st1.
  assert (Hkeep : forall st',
            hasEmittedToolUse st' = hasEmittedToolUse st1
            /\ existsb isToolUseStart (enqueued st')
               = existsb isToolUseStart (enqueued st1) ->
            isFunctionCall part = false ->
            StreamSpec.Flagged st' (seen ++ [Shaped part])).
  { intros st' [Hf Hs] Hno. apply (Flagged_snoc st1); auto;
      cbn [StreamSpec.entersToolUse StreamSpec.isCall]; rewrite Hno, orb_false_r; auto. }
  destruct part as [txt thought sig|mime data sig|name args sig|name response].
  - destruct ((txt =? "") && nonEmpty (thoughtSignatureOf (TextPart txt thought sig))).
    { eexists; split; [reflexivity|]. apply Hkeep; auto. }
    destruct (isTrue thought).
    { eexists; split; [reflexivity|].
      apply Hkeep; [apply handleThinkingDelta_flag | reflexivity]. }
    destruct (negb (txt =? "")).
    + eexists; split; [reflexivity|].
      apply Hkeep; [apply handleTextDelta_flag | reflexivity].
    + eexists; split; [reflexivity|]. apply Hkeep; auto.
  - eexists; split; [reflexivity|]. apply Hkeep; auto.
  - eexists; split; [reflexivity|].
    destruct (handleToolUse_flag name args st1) as [Hf Hs].
    apply (Flagged_snoc st1); auto;
      cbn [StreamSpec.entersToolUse StreamSpec.isCall isFunctionCall];
      rewrite ?Hf, ?Hs, orb_true_r; reflexivity.
  - eexists; split; [reflexivity|]. apply Hkeep; auto.
Qed.

Lemma processNull_flagged sig st seen :
  StreamSpec.Flagged st seen ->
  exists st', processPart ids (NullCall sig) st = Threw st'
              /\ StreamSpec.Flagged st' (seen ++ [NullCall sig]).
Proof.
  intros H. cbn [processPart]. eexists; split; [reflexivity|].
  set (st1 := setService _ st).
  assert (H1 : StreamSpec.Flagged st1 seen) by (destruct st; exact H).
  clearbody st1. unfold handleNullToolUse.
  destruct (closeCurrentBlock_flag st1) as [Hf Hs].
  apply (Flagged_snoc st1); auto; cbn [StreamSpec.entersToolUse StreamSpec.isCall].
  - destruct (closeCurrentBlock st1); fields. rewrite orb_true_r. reflexivity.
  - destruct (closeCurrentBlock st1); fields. rewrite orb_false_r. exact Hs.
Qed.

Lemma pull_flagged leftover reads st seen :
  StreamSpec.Flagged st seen ->
  StreamSpec.Flagged (pull ids (List.map ReadData reads) leftover st)
                     (seen ++ StreamSpec.streamReached reads leftover).
Proof.
  apply (pull_lifted StreamSpec.Flagged).
  - apply processPart_flagged.
  - apply processNull_flagged.
  - intros promptTokens s l H. unfold emitMessageStart.
    destruct s; unfold StreamSpec.Flagged in *; stream_simpl.
    rewrite ?orb_false_r. exact H.
  - intros input output s l H. destruct s; exact H.
  - intros s l [Hf Hs]. destruct (closeCurrentBlock_flag s) as [Hf' Hs'].
    rewrite <- Hf', <- Hs' in *. clear Hf' Hs'.
    destruct (closeCurrentBlock s) as [bi ms cbt sig tu it ot svc dr q cl].
    unfold emitMessageEnd, emitMessageStart, StreamSpec.Flagged in *. fields.
    destruct (Nat.eqb bi 0 && negb ms); stream_simpl; rewrite ?orb_false_r; auto.
Qed.

Lemma entersToolUse_isCall (entries : list RawPart) :
  existsb StreamSpec.isNullCall entries = false ->
  existsb StreamSpec.entersToolUse entries = existsb StreamSpec.isCall entries.
Proof.
  induction entries as [|[part|sig|] rest IH]; cbn; intros H; try discriminate;
    try reflexivity; rewrite IH by exact H; reflexivity.
Qed.

End StreamProofs.

Section StreamClaims.
Import Gemini StreamConverter StreamGrammar StreamSpec ResponseSpec.

(** C7.  Response translation answers [tool_use] exactly when a
    [tool_use] block was produced (that is, when the candidate holds a
    functionCall part), whatever the upstream finish reason; otherwise
    [STOP] gives [end_turn], [MAX_TOKENS] gives [max_tokens] and any other
    or absent reason gives [end_turn].  The stream's final [message_delta]
    carries [tool_use] exactly when [handleToolUse] was entered, for a
    functionCall part or for a null call, and [end_turn] otherwise, while
    a [tool_use] block was started exactly when a functionCall part was
    reached: the two agree on every stream that holds no null call.  At
    the failing input, a chunk whose only part has a [functionCall] that
    is [null], the stream ends with [tool_use] and no block was sent. *)
Theorem C7_stop_reason (ids : nat -> string) (messageId : string)
    (response : GenerateContentResponse) (svc : ThoughtSignature.Service)
    (reads : list (list Candidate)) (leftover : option Candidate) :
  let r := fst (ResponseConverter.convert ids messageId response svc) in
  let hasToolUse := existsb ResponseConverter.isToolUse (Anthropic.response_content r) in
  let sent := enqueued (convertStream ids svc (List.map ReadData reads) leftover) in
  let entries := streamReached reads leftover in
  let failing :=
    enqueued (convertStream ids svc
                [ReadData [Parsed (mkChunk None (Some [NullCall None]))]] None) in
  hasToolUse = existsb isFunctionCall (upstreamParts response)
  /\ (hasToolUse = true -> Anthropic.stop_reason r = Anthropic.tool_use)
  /\ (hasToolUse = false ->
        (upstreamFinishReason response = Some "STOP" ->
           Anthropic.stop_reason r = Anthropic.end_turn)
        /\ (upstreamFinishReason response = Some "MAX_TOKENS" ->
             Anthropic.stop_reason r = Anthropic.max_tokens)
        /\ (upstreamFinishReason response <> Some "MAX_TOKENS" ->
             Anthropic.stop_reason r = Anthropic.end_turn))
  /\ finalStopReason sent
     = Some (if existsb entersToolUse entries
             then Anthropic.tool_use else Anthropic.end_turn)
  /\ existsb isToolUseStart sent = existsb isCall entries
  /\ (existsb isNullCall entries = false ->
        finalStopReason sent
        = Some (if existsb isToolUseStart sent
                then Anthropic.tool_use else Anthropic.end_turn))
  /\ failing = [message_start 0; ping;
                message_delta Anthropic.tool_use 0; message_stop]
  /\ existsb isToolUseStart failing = false.
Proof.
  cbv zeta. split; [|split; [|split; [|split; [|split; [|split; [|split]]]]]].
  - unfold ResponseConverter.convert, upstreamParts, firstCandidate.
    destruct (candidates response ≫= head) as [c|] eqn:Hc; cbn [fst].
    + destruct (ResponseConverter.convertParts ids _ svc) as [blocks svc'] eqn:Hp.
      cbn [fst Anthropic.response_content].
      replace blocks with (fst (ResponseConverter.convertParts ids
                                  (default [] (Gemini.parts <$> Gemini.content c)) svc))
        by (rewrite Hp; reflexivity).
      rewrite convertParts_tool_use. cbn. destruct (Gemini.content c); reflexivity.
    + reflexivity.
  - unfold ResponseConverter.convert.
    destruct (candidates response ≫= head) as [c|] eqn:Hc; cbn [fst].
    + destruct (ResponseConverter.convertParts ids _ svc) as [blocks svc'].
      cbn [fst Anthropic.response_content Anthropic.stop_reason].
      unfold ResponseConverter.convertFinishReason. intros ->. reflexivity.
    + cbn. discriminate.
  - unfold ResponseConverter.convert, upstreamFinishReason, firstCandidate.
    destruct (candidates response ≫= head) as [c|] eqn:Hc; cbn [fst].
    + destruct (ResponseConverter.convertParts ids _ svc) as [blocks svc'].
      cbn [fst Anthropic.response_content Anthropic.stop_reason].
      unfold ResponseConverter.convertFinishReason. intros ->.
      repeat split.
      * intros ->. reflexivity.
      * intros ->. reflexivity.
      * intros Hne. destruct (finishReason c) as [s|]; [|reflexivity].
        destruct (s =? "STOP"); [reflexivity|].
        destruct (String.eqb_spec s "MAX_TOKENS") as [->|Hs]; [congruence|reflexivity].
    + cbn. intros _. repeat split; try discriminate.
  - destruct (pull_fulfilled ids leftover reads (initial svc) (initial_reached svc))
      as (_ & _ & _ & Hstop).
    destruct (pull_flagged ids leftover reads (initial svc) [] (conj eq_refl eq_refl))
      as [Hflag _].
    unfold convertStream. rewrite Hstop, Hflag. reflexivity.
  - apply (pull_flagged ids leftover reads (initial svc) [] (conj eq_refl eq_refl)).
  - intros Hnull.
    destruct (pull_fulfilled ids leftover reads (initial svc) (initial_reached svc))
      as (_ & _ & _ & Hstop).
    destruct (pull_flagged ids leftover reads (initial svc) [] (conj eq_refl eq_refl))
      as [Hflag Hsent].
    unfold convertStream. rewrite Hstop, Hflag, Hsent. cbn [app].
    rewrite (entersToolUse_isCall _ Hnull). reflexivity.
  - reflexivity.
  - reflexivity.
Qed.

End StreamClaims.

Section StreamFailureClaims.
Import Gemini StreamConverter StreamGrammar.

(** C2 (as amended).  Whatever chunks the successive reads deliver, the
    events sent are [message_start, ping], then blocks
    [content_block_start, content_block_delta*, content_block_stop]
    numbered 0, 1, 2, ... in the order they are closed, then
    [message_delta, message_stop]. *)
Theorem C2_event_grammar (ids : nat -> string) (svc : ThoughtSignature.Service)
    (reads : list (list Candidate)) (leftover : option Candidate) :
  matchesGrammar false
    (enqueued (convertStream ids svc (List.map ReadData reads) leftover)) = true.
Proof.
  apply (pull_fulfilled ids leftover reads (initial svc) (initial_reached svc)).
Qed.

(** C2 as stated fails: an upstream that delivers nothing, and one whose
    only part is an empty thinking text, each yield a block that is
    started and stopped with no delta between. *)
Lemma C2_counterexample :
  let ids := fun _ : nat => "toolu_0" in
  let nothing := enqueued (convertStream ids ThoughtSignature.fresh [] None) in
  let emptyThought :=
    enqueued (convertStream ids ThoughtSignature.fresh
                [ReadData [Parsed (mkChunk None
                                     (Some [Shaped (TextPart "" (Some true) None)]))]]
                None) in
  nothing = [message_start 0; ping;
             content_block_start 0 StartText; content_block_stop 0;
             message_delta Anthropic.end_turn 0; message_stop]
  /\ matchesGrammar true nothing = false
  /\ emptyThought = [message_start 0; ping;
                     content_block_start 0 StartThinking; content_block_stop 0;
                     message_delta Anthropic.end_turn 0; message_stop]
  /\ matchesGrammar true emptyThought = false.
Proof. cbv zeta. repeat split; reflexivity. Qed.

(** C9 at the failing input: a chunk whose [parts] hold a [null] between
    two texts.  The raise inside [processChunk] is swallowed: the stream
    ends as a normal one, without the last text and without any [error]
    event. *)
Theorem C9_swallowed_exception :
  let ids := fun _ : nat => "toolu_0" in
  let chunk := mkChunk None (Some [Shaped (TextPart "Hi" None None); NotAnObject;
                                   Shaped (TextPart "!" None None)]) in
  let out := convertStream ids ThoughtSignature.fresh [ReadData [Parsed chunk]] None in
  processChunk ids chunk (initial ThoughtSignature.fresh)
  = Threw (handleTextDelta "Hi"
             (setMessageStarted (emitMessageStart None (initial ThoughtSignature.fresh))))
  /\ enqueued out = [message_start 0; ping;
                     content_block_start 0 StartText;
                     content_block_delta 0 (text_delta "Hi");
                     content_block_stop 0;
                     message_delta Anthropic.end_turn 0; message_stop]
  /\ existsb isError (enqueued out) = false
  /\ closed out = true.
Proof. cbv zeta. repeat split; reflexivity. Qed.

(** A rejected read, after any number of fulfilled ones: the events sent
    so far are followed by exactly one [error] event, the stream is
    closed, and what the upstream would have delivered afterwards plays
    no part. *)
Theorem rejected_read_single_error (ids : nat -> string) (svc : ThoughtSignature.Service)
    (reads : list (list Candidate)) (message : string)
    (later : list ReadResult) (leftover : option Candidate) :
  let out := convertStream ids svc (List.map ReadData reads ++ ReadRejected message :: later)
                           leftover in
  enqueued out
  = enqueued (processBuffer ids (List.concat reads) (initial svc)) ++ [error message]
  /\ existsb isError (enqueued (processBuffer ids (List.concat reads) (initial svc))) = false
  /\ closed out = true
  /\ out = convertStream ids svc (List.map ReadData reads ++ [ReadRejected message]) None.
Proof.
  cbv zeta.
  destruct (pull_rejected ids leftover message later reads (initial svc) (initial_reached svc))
    as (sent & Hq & Herr & Hcl & Hsent).
  unfold convertStream. subst sent. repeat split; auto.
  clear. generalize (initial svc).
  induction reads as [|decoded rest IH]; intros st; cbn [List.map app pull]; auto.
Qed.

End StreamFailureClaims.

(* ===================================================================== *)
(** * The signature ledger: keys, extraction, round trip                  *)
(* ===================================================================== *)

Section LedgerKeys.
Import Gemini ThoughtSignature LedgerSpec.

Lemma append_nil_l (s : string) : ("" ++ s)%string = s.
Proof. reflexivity. Qed.

Lemma append_cons_l c (a s : string) : (String c a ++ s)%string = String c (a ++ s)%string.
Proof. reflexivity. Qed.

Lemma string_of_uint_colonFree d : forall a b,
  NilZero.string_of_uint d <> (a ++ ":" ++ b)%string.
Proof.
  assert (H : forall d a b, NilEmpty.string_of_uint d <> (a ++ ":" ++ b)%string).
  { induction d0; intros a b; cbn [NilEmpty.string_of_uint];
      destruct a as [|c a]; rewrite ?append_nil_l, ?append_cons_l, ?append_nil_l; try discriminate;
      intros E; injection E as _ E; try exact (IHd0 _ _ E). }
  intros a b. unfold NilZero.string_of_uint.
  destruct d; try apply H.
  destruct a as [|c [|c' a]]; rewrite ?append_nil_l, ?append_cons_l, ?append_nil_l; discriminate.
Qed.

Lemma split_at_colon a : forall a' b b',
  (forall x y, a <> (x ++ ":" ++ y)%string) ->
  (forall x y, a' <> (x ++ ":" ++ y)%string) ->
  (a ++ ":" ++ b = a' ++ ":" ++ b')%string -> a = a' /\ b = b'.
Proof.
  induction a as [|c a IH]; intros a' b b' Ha Ha' E.
  - destruct a' as [|c' a']; rewrite ?append_nil_l, ?append_cons_l, ?append_nil_l in E.
    + injection E as ->. auto.
    + injection E as <- E. exfalso. apply (Ha' "" a'). reflexivity.
  - destruct a' as [|c' a']; rewrite ?append_nil_l, ?append_cons_l, ?append_nil_l in E.
    + injection E as -> E. exfalso. apply (Ha "" a). reflexivity.
    + injection E as -> E.
      destruct (IH a' b b') as [-> ->]; auto.
      * intros x y Hx. apply (Ha (String c' x) y). rewrite Hx. reflexivity.
      * intros x y Hx. apply (Ha' (String c' x) y). rewrite Hx. reflexivity.
Qed.

Lemma to_uint_nonnil n : Nat.to_uint n <> Decimal.Nil.
Proof.
  pose proof (Unsigned.to_of (Nat.to_uint n)) as H.
  rewrite Unsigned.of_to in H. rewrite H. apply unorm_nonnil.
Qed.

Lemma indexKey_inj i j : indexKey i = indexKey j -> i = j.
Proof.
  unfold indexKey. intros E.
  assert (E' : Nat.to_uint i = Nat.to_uint j).
  { apply (f_equal NilZero.uint_of_string) in E.
    rewrite !NilZero.usu in E by apply to_uint_nonnil. congruence. }
  apply (f_equal Nat.of_uint) in E'.
  rewrite !DecimalNat.Unsigned.of_to in E'. exact E'.
Qed.

Lemma key_inj t p t' p' : key t p = key t' p' -> t = t' /\ p = p'.
Proof.
  unfold key. intros E.
  apply split_at_colon in E as [Et Ep];
    try (unfold indexKey; apply string_of_uint_colonFree).
  split; apply indexKey_inj; assumption.
Qed.

Lemma getSignature_store t p s t' p' svc :
  getSignature t' p' (store_signature t p s svc)
  = if decide (t = t' /\ p = p') then Some s else getSignature t' p' svc.
Proof.
  unfold getSignature, store_signature. cbn [store].
  destruct (decide (t = t' /\ p = p')) as [[-> ->]|Hne].
  - apply lookup_insert_eq.
  - apply lookup_insert_ne. intros E. apply Hne. apply key_inj. exact E.
Qed.

Lemma getSignature_storeText t p sig svc :
  getSignature t p (storeTextSignature sig svc) = getSignature t p svc.
Proof. reflexivity. Qed.

Lemma extractParts_lookup t t' p' : forall ps p0 svc,
  getSignature t' p' (extractParts t p0 ps svc)
  = match (if decide (t = t' /\ p0 <= p') then ps !! (p' - p0) ≫= signedPart else None) with
    | Some sig => Some sig
    | None => getSignature t' p' svc
    end.
Proof.
  induction ps as [|part rest IH]; intros p0 svc; cbn [extractParts].
  - destruct (decide _); reflexivity.
  - rewrite IH.
    assert (Hstep : getSignature t' p'
              (match thoughtSignatureOf part with
               | Some sig =>
                   if negb (sig =? "") then
                     match part with
                     | TextPart _ _ _ => storeTextSignature sig (store_signature t p0 sig svc)
                     | _ => store_signature t p0 sig svc
                     end
                   else svc
               | None => svc
               end)
            = match (if decide (t = t' /\ p0 = p') then signedPart part else None) with
              | Some sig => Some sig
              | None => getSignature t' p' svc
              end).
    { unfold signedPart, nonEmpty.
      destruct (thoughtSignatureOf part) as [sig|] eqn:Hsig;
        [|destruct (decide _); reflexivity].
      destruct (negb (sig =? "")); [|destruct (decide _); reflexivity].
      assert (Hst : getSignature t' p' (store_signature t p0 sig svc)
                    = match (if decide (t = t' /\ p0 = p') then Some sig else None) with
                      | Some sig => Some sig
                      | None => getSignature t' p' svc
                      end).
      { rewrite getSignature_store. destruct (decide _); reflexivity. }
      destruct part; exact Hst. }
    rewrite Hstep. clear Hstep IH.
    destruct (decide (t = t' /\ S p0 <= p')) as [[-> Hle]|Hn].
    + destruct (decide (t' = t' /\ p0 <= p')) as [_|Hn']; [|exfalso; apply Hn'; split; [reflexivity|lia]].
      destruct (decide (t' = t' /\ p0 = p')) as [[_ ->]|_]; [lia|].
      replace (p' - p0) with (S (p' - S p0)) by lia. cbn [lookup list_lookup].
      reflexivity.
    + destruct (decide (t = t' /\ p0 = p')) as [[-> ->]|Hn2].
      * destruct (decide (t' = t' /\ p' <= p')) as [_|Hn']; [|exfalso; apply Hn'; split; [reflexivity|lia]].
        rewrite Nat.sub_diag. cbn. destruct (signedPart part); reflexivity.
      * destruct (decide (t = t' /\ p0 <= p')) as [[-> Hle]|_]; [|reflexivity].
        exfalso. destruct (decide (p0 = p')) as [->|Hp]; [apply Hn2; auto | apply Hn; split; [reflexivity|lia]].
Qed.

Lemma signatureAt_cons turn rest t p :
  signatureAt (turn :: rest) (S t) p = signatureAt rest t p.
Proof. reflexivity. Qed.

Lemma extractTurns_lookup t' p' : forall contents t0 svc,
  getSignature t' p' (extractTurns t0 contents svc)
  = match (if decide (t0 <= t') then signatureAt contents (t' - t0) p' else None) with
    | Some sig => Some sig
    | None => getSignature t' p' svc
    end.
Proof.
  induction contents as [|turn rest IH]; intros t0 svc; cbn [extractTurns].
  - unfold signatureAt. destruct (decide _); reflexivity.
  - rewrite IH.
    destruct (decide (S t0 <= t')) as [Hle|Hn].
    + destruct (decide (t0 <= t')) as [_|Hn']; [|lia].
      replace (t' - t0) with (S (t' - S t0)) by lia. rewrite signatureAt_cons.
      destruct (signatureAt rest (t' - S t0) p'); [reflexivity|].
      destruct (role turn); [reflexivity|].
      rewrite extractParts_lookup.
      destruct (decide (t0 = t' /\ 0 <= p')) as [[-> _]|_]; [lia | reflexivity].
    + destruct (decide (t0 <= t')) as [Hle|Hgt].
      * assert (t0 = t') as -> by lia. rewrite Nat.sub_diag.
        unfold signatureAt. cbn [lookup list_lookup].
        destruct (role turn); [reflexivity|].
        rewrite extractParts_lookup.
        destruct (decide (t' = t' /\ 0 <= p')) as [_|Hn']; [|exfalso; apply Hn'; split; [reflexivity|lia]].
        rewrite Nat.sub_0_r. unfold signedPart.
        destruct (parts turn !! p') as [part|]; cbn; [|reflexivity].
        destruct (nonEmpty (thoughtSignatureOf part)); [|reflexivity].
        destruct (thoughtSignatureOf part); reflexivity.
      * destruct (role turn); [reflexivity|].
        rewrite extractParts_lookup.
        destruct (decide (t0 = t' /\ 0 <= p')) as [[-> _]|_]; [lia | reflexivity].
Qed.

Lemma last_app_orElse {A} (l1 l2 : list A) :
  last (l1 ++ l2) = orElse (last l2) (last l1).
Proof.
  destruct l2 as [|x l2 _] using rev_ind.
  - rewrite app_nil_r. reflexivity.
  - rewrite app_assoc, !last_snoc. reflexivity.
Qed.

Lemma extractParts_lastText t : forall ps p0 svc,
  lastTextSignature (extractParts t p0 ps svc)
  = orElse (last (omap textSignatureOf ps)) (lastTextSignature svc).
Proof.
  induction ps as [|part rest IH]; intros p0 svc; cbn [extractParts]; [reflexivity|].
  rewrite IH. change (part :: rest) with ([part] ++ rest).
  rewrite omap_app, last_app_orElse.
  destruct (last (omap textSignatureOf rest)); [reflexivity|]. cbn [orElse].
  destruct part as [txt th [sig|]|m d [sig|]|n a [sig|]|n r]; cbn; try reflexivity;
    destruct (negb (sig =? "")); reflexivity.
Qed.

Lemma extractTurns_lastText : forall contents t0 svc,
  lastTextSignature (extractTurns t0 contents svc)
  = orElse (last (textSignatures contents)) (lastTextSignature svc).
Proof.
  induction contents as [|turn rest IH]; intros t0 svc; cbn [extractTurns]; [reflexivity|].
  rewrite IH. unfold textSignatures. cbn [List.map List.concat].
  rewrite last_app_orElse. fold (textSignatures rest).
  destruct (last (textSignatures rest)); [reflexivity|]. cbn [orElse].
  destruct (role turn); [reflexivity|]. apply extractParts_lastText.
Qed.

Lemma stripCall_unsigned rest :
  Forall (fun q => thoughtSignatureOf q = None) (List.filter isFunctionCall rest) ->
  List.map stripCall rest = rest.
Proof.
  induction rest as [|part rest IH]; intros H; [reflexivity|]. cbn [List.map].
  destruct part as [| |n a sig|]; cbn in H |- *; try (rewrite IH by exact H; reflexivity).
  inversion H as [|? ? Hsig Hrest]; subst. cbn in Hsig. subst sig.
  rewrite IH by exact Hrest. reflexivity.
Qed.

Lemma restore_parts svc t : forall ps p0,
  (forall i part, ps !! i = Some part -> nonEmpty (thoughtSignatureOf part) = true ->
     getSignature t (p0 + i) svc = thoughtSignatureOf part) ->
  match List.filter isFunctionCall ps with
  | [] => True
  | first :: others =>
      nonEmpty (thoughtSignatureOf first) = true
      /\ Forall (fun q => thoughtSignatureOf q = None) others
  end ->
  ensureParts svc t p0 false (List.map stripCall ps) = ps.
Proof.
  induction ps as [|part rest IH]; intros p0 Hget Hshape; [reflexivity|].
  assert (Hrest : forall i q, rest !! i = Some q -> nonEmpty (thoughtSignatureOf q) = true ->
                    getSignature t (S p0 + i) svc = thoughtSignatureOf q).
  { intros i q Hi Hq. replace (S p0 + i) with (p0 + S i) by lia. apply Hget; assumption. }
  destruct part as [txt th sig|m d sig|n a sig|n r]; cbn in Hshape |- *;
    try (rewrite IH by assumption; reflexivity).
  destruct Hshape as [Hsig Hothers].
  rewrite ensureParts_found, stripCall_unsigned by exact Hothers.
  pose proof (Hget 0 (FunctionCallPart n a sig) eq_refl Hsig) as H0.
  rewrite Nat.add_0_r in H0. rewrite H0. cbn.
  destruct sig as [s|]; [reflexivity | discriminate].
Qed.

End LedgerKeys.

Section LedgerExtras.
Import Gemini ThoughtSignature LedgerSpec.

(** Storing a signature at a position makes it the answer for that
    position and changes the answer for no other position: the keys of
    two different positions never coincide. *)
Theorem store_get_signature (svc : Service) (t p t' p' : nat) (sig : string) :
  getSignature t' p' (store_signature t p sig svc)
  = (if decide (t = t' /\ p = p') then Some sig else getSignature t' p' svc)
  /\ getLastTextSignature (store_signature t p sig svc) = getLastTextSignature svc.
Proof. split; [apply getSignature_store | reflexivity]. Qed.

(** After [extractFromContents], the ledger answers for a position the
    non-empty signature of the part at that position of a model turn, and
    what it answered before for every other position; the last-text slot
    holds the signature of the last signed text part of a model turn, if
    there is one. *)
Theorem extractFromContents_lookup (contents : list Content) (svc : Service) (t p : nat) :
  getSignature t p (extractFromContents contents svc)
  = match signatureAt contents t p with
    | Some sig => Some sig
    | None => getSignature t p svc
    end
  /\ getLastTextSignature (extractFromContents contents svc)
     = match last (textSignatures contents) with
       | Some sig => Some sig
       | None => getLastTextSignature svc
       end.
Proof.
  split.
  - unfold extractFromContents. rewrite extractTurns_lookup.
    destruct (decide (0 <= t)) as [_|H]; [|lia]. rewrite Nat.sub_0_r. reflexivity.
  - apply extractTurns_lastText.
Qed.

(** Round trip: when in every model turn the first functionCall part is
    signed and the later ones are not, extracting the signatures of a
    history and then running the strict pass on the same history with the
    signatures of its functionCall parts removed gives the history back. *)
Theorem extract_then_ensure_restores (contents : list Content) :
  Forall SignedOnce contents ->
  ensureSignatures (extractFromContents contents fresh) (List.map stripTurn contents) true
  = contents.
Proof.
  intros Hall. unfold ensureSignatures. cbn [negb].
  set (svc := extractFromContents contents fresh).
  apply list_eq. intros t.
  destruct (contents !! t) as [turn|] eqn:Ht.
  - rewrite (ensureTurns_lookup svc _ 0 t (stripTurn turn))
      by (rewrite list_lookup_fmap, Ht; reflexivity).
    f_equal. cbn [Nat.add].
    assert (Hturn : SignedOnce turn).
    { rewrite List.Forall_forall in Hall. apply Hall.
      apply list_elem_of_In. eapply list_elem_of_lookup_2. exact Ht. }
    destruct turn as [r ps]. unfold stripTurn. cbn [role parts] in *.
    destruct r; [reflexivity|]. cbn [role parts]. f_equal.
    apply restore_parts.
    + intros i part Hi Hsig. cbn [Nat.add].
      subst svc. unfold extractFromContents. rewrite extractTurns_lookup.
      destruct (decide (0 <= t)) as [_|Hneg]; [|lia]. rewrite Nat.sub_0_r.
      unfold signatureAt. rewrite Ht. cbn [role parts]. rewrite Hi, Hsig.
      destruct (thoughtSignatureOf part); [reflexivity | discriminate].
    + apply Hturn. reflexivity.
  - apply lookup_ge_None. rewrite ensureTurns_length, length_map.
    apply lookup_ge_None. exact Ht.
Qed.

Lemma extract_then_ensure_restores_witness :
  let history :=
    [mkContent User [TextPart "weather in Paris and Rome?" None None];
     mkContent Model [TextPart "checking" None (Some "sig_text");
                      FunctionCallPart "get_weather" (Some (JObj [("city", JStr "Paris")]))
                                       (Some "sig_A");
                      FunctionCallPart "get_weather" (Some (JObj [("city", JStr "Rome")])) None];
     mkContent User [FunctionResponsePart "get_weather" (JObj [("result", JStr "sunny")])]] in
  ensureSignatures (extractFromContents history fresh) (List.map stripTurn history) true
  = history.
Proof.
  cbv zeta. apply extract_then_ensure_restores.
  repeat constructor; cbn; intros; try discriminate; repeat constructor.
Defined.

End LedgerExtras.

(* ===================================================================== *)
(** * What translation keeps of a response, sent whole or as a stream     *)
(* ===================================================================== *)

Section ResponseContent.
Import Gemini Anthropic ResponseConverter ContentSpec.
Variable ids : nat -> string.

Lemma append_assoc_s (a b c : string) : ((a ++ b) ++ c)%string = (a ++ (b ++ c))%string.
Proof.
  induction a as [|x a IH]; [reflexivity|].
  change (String x ((a ++ b) ++ c)%string = String x (a ++ (b ++ c))%string).
  f_equal. exact IH.
Qed.

Lemma append_empty_r (s : string) : (s ++ "")%string = s.
Proof.
  induction s as [|c s IH]; [reflexivity|].
  change (String c (s ++ "")%string = String c s). f_equal. exact IH.
Qed.

Lemma joined_app l1 l2 : joined (l1 ++ l2) = (joined l1 ++ joined l2)%string.
Proof.
  unfold joined. induction l1 as [|x l1 IH]; cbn [app fold_right]; [reflexivity|].
  rewrite IH. symmetry. apply append_assoc_s.
Qed.

Lemma joined_snoc l x : joined (l ++ [x]) = (joined l ++ x)%string.
Proof.
  rewrite joined_app. unfold joined at 2. cbn [fold_right].
  rewrite append_empty_r. reflexivity.
Qed.

Lemma numbered_app k calls1 calls2 :
  numbered ids k (calls1 ++ calls2)
  = numbered ids k calls1 ++ numbered ids (k + length calls1) calls2.
Proof.
  revert k. induction calls1 as [|[name input] rest IH]; intros k; cbn.
  - rewrite Nat.add_0_r. reflexivity.
  - rewrite IH. replace (S k + length rest) with (k + S (length rest)) by lia. reflexivity.
Qed.

Lemma convertPart_faithful acc seen part :
  Faithful ids acc seen -> Faithful ids (convertPart ids acc part) (seen ++ [part]).
Proof.
  intros (Ht & Hth & Hu & Hd). unfold Faithful.
  rewrite !omap_app.
  destruct part as [txt thought sig|mime data sig|name args sig|name response];
    cbn -[joined numbered String.eqb nonEmpty isTrue].
  - assert (Hcarrier : (txt =? "") && nonEmpty sig = true -> txt = "").
    { intros H. apply andb_true_iff in H as [H _]. apply String.eqb_eq. exact H. }
    destruct ((txt =? "") && nonEmpty sig) eqn:Hc; cbn [blocks drawn].
    + rewrite (Hcarrier eq_refl).
      destruct (isTrue thought); rewrite ?app_nil_r, ?joined_snoc, ?append_empty_r; auto.
    + destruct (isTrue thought); cbn [blocks drawn].
      * rewrite !omap_app. cbn -[joined numbered].
        rewrite ?app_nil_r, ?joined_snoc. rewrite Ht, Hth, Hu. auto.
      * destruct (String.eqb_spec txt "") as [->|Hne]; cbn [negb blocks].
        -- rewrite ?app_nil_r, ?joined_snoc, ?append_empty_r. auto.
        -- rewrite !omap_app. cbn -[joined numbered].
           rewrite ?app_nil_r, ?joined_snoc. rewrite Ht, Hth, Hu. auto.
  - rewrite ?app_nil_r. auto.
  - rewrite !omap_app. cbn -[joined numbered]. rewrite ?app_nil_r.
    rewrite numbered_app, length_app. cbn [numbered length Nat.add].
    rewrite Ht, Hth, Hu, Hd.
    repeat split; auto. lia.
  - rewrite ?app_nil_r. auto.
Qed.

Lemma convertParts_fold_faithful ps : forall acc seen,
  Faithful ids acc seen -> Faithful ids (fold_left (convertPart ids) ps acc) (seen ++ ps).
Proof.
  induction ps as [|part rest IH]; intros acc seen H; cbn [fold_left].
  - rewrite app_nil_r. exact H.
  - replace (seen ++ part :: rest) with ((seen ++ [part]) ++ rest)
      by (rewrite <- app_assoc; reflexivity).
    apply IH. apply convertPart_faithful. exact H.
Qed.

Lemma convertParts_faithful ps svc :
  let content := fst (convertParts ids ps svc) in
  content <> []
  /\ joined (omap blockText content) = joined (omap visibleText ps)
  /\ joined (omap blockThinking content) = joined (omap thoughtText ps)
  /\ omap blockToolUse content = numbered ids 0 (omap callOf ps).
Proof.
  cbv zeta. unfold convertParts. cbn [fst].
  assert (Hinit : Faithful ids (mkAcc [] svc 0) []) by (repeat split).
  pose proof (convertParts_fold_faithful ps (mkAcc [] svc 0) [] Hinit) as H.
  cbn [app] in H. destruct H as (Ht & Hth & Hu & _).
  destruct (blocks _) as [|b bs] eqn:Hb; cbn [length Nat.eqb].
  - repeat split; auto; discriminate.
  - repeat split; auto; discriminate.
Qed.

End ResponseContent.

Section ResponseExtras.
Import Gemini Anthropic ResponseConverter ContentSpec ResponseSpec.


End ResponseExtras.

Section StreamContent.
Import Gemini StreamConverter ContentSpec StreamSpec.
Variable ids : nat -> string.

Ltac state_fields :=
  cbn [emitEvent setBlock setMessageStarted setUsage setService drawToolUse close
       blockIndex messageStarted currentBlockType currentThinkingSignature
       hasEmittedToolUse inputTokens outputTokens thoughtSignatures drawn enqueued closed] in *.

Ltac observe :=
  unfold Observed in *; state_fields;
  rewrite ?omap_app; cbn -[joined numberedDraws];
  rewrite ?omap_app; cbn -[joined numberedDraws];
  rewrite ?app_nil_r, ?joined_snoc, ?append_empty_r.

Lemma numberedDraws_app k draws more :
  numberedDraws ids k (draws ++ more)
  = numberedDraws ids k draws ++ numberedDraws ids (k + length draws) more.
Proof.
  revert k. induction draws as [|[[name input]|] rest IH]; intros k; cbn [app numberedDraws length].
  - rewrite Nat.add_0_r. reflexivity.
  - rewrite IH. cbn [app]. rewrite Nat.add_succ_r. reflexivity.
  - rewrite IH. rewrite Nat.add_succ_r. reflexivity.
Qed.

Lemma closeCurrentBlock_observed st seen :
  Observed ids st seen -> Observed ids (closeCurrentBlock st) seen.
Proof.
  intros H. unfold closeCurrentBlock.
  destruct st as [bi ms cbt sig tu it ot svc dr q cl]; state_fields.
  destruct cbt as [bt|]; [|exact H].
  destruct (isType thinking (Some bt) && negb (sig =? "")); observe; exact H.
Qed.

Lemma closeCurrentBlock_drawn st : drawn (closeCurrentBlock st) = drawn st.
Proof.
  unfold closeCurrentBlock. destruct st as [bi ms cbt sig tu it ot svc dr q cl]; state_fields.
  destruct cbt as [bt|]; [|reflexivity].
  destruct (isType thinking (Some bt) && negb (sig =? "")); reflexivity.
Qed.

Lemma handleTextDelta_observed txt thought sig st seen :
  isTrue thought = false ->
  Observed ids st seen ->
  Observed ids (handleTextDelta txt st) (seen ++ [Shaped (TextPart txt thought sig)]).
Proof.
  intros Hth H. unfold handleTextDelta.
  destruct (isType text (currentBlockType st)); cbn [negb].
  - destruct st as [bi ms cbt s tu it ot svc dr q cl]. observe. rewrite Hth.
    observe. destruct H as (Ht & Hk & Hs & Hi & Hd). rewrite Ht. auto.
  - apply closeCurrentBlock_observed in H.
    destruct (closeCurrentBlock st) as [bi ms cbt s tu it ot svc dr q cl]. observe.
    rewrite Hth. observe. destruct H as (Ht & Hk & Hs & Hi & Hd). rewrite Ht. auto.
Qed.

Lemma handleThinkingDelta_observed txt thought sig signature st seen :
  isTrue thought = true ->
  Observed ids st seen ->
  Observed ids (handleThinkingDelta txt signature st)
           (seen ++ [Shaped (TextPart txt thought sig)]).
Proof.
  intros Hth H. unfold handleThinkingDelta.
  destruct (isType thinking (currentBlockType st)); cbn [negb].
  - destruct st as [bi ms cbt s tu it ot svc dr q cl].
    destruct signature as [g|]; [destruct (negb (g =? ""))|];
      (destruct (String.eqb_spec txt "") as [->|Hne]; cbn [negb];
       observe; rewrite Hth; observe;
       destruct H as (Ht & Hk & Hs & Hi & Hd); rewrite ?Hk; auto).
  - apply closeCurrentBlock_observed in H.
    destruct (closeCurrentBlock st) as [bi ms cbt s tu it ot svc dr q cl].
    destruct signature as [g|]; [destruct (negb (g =? ""))|];
      (destruct (String.eqb_spec txt "") as [->|Hne]; cbn [negb];
       observe; rewrite Hth; observe;
       destruct H as (Ht & Hk & Hs & Hi & Hd); rewrite ?Hk; auto).
Qed.

Lemma handleToolUse_observed name args sig st seen :
  Observed ids st seen ->
  Observed ids (handleToolUse ids name args st)
           (seen ++ [Shaped (FunctionCallPart name args sig)]).
Proof.
  intros H. unfold handleToolUse.
  apply closeCurrentBlock_observed in H.
  destruct (closeCurrentBlock st) as [bi ms cbt s tu it ot svc dr q cl].
  observe. destruct H as (Ht & Hk & Hs & Hi & Hd).
  rewrite numberedDraws_app, !List.map_app, length_app.
  cbn [numberedDraws List.map length fst snd Nat.add].
  rewrite Hs, Hi, Hd. repeat split; auto. lia.
Qed.

Lemma handleNullToolUse_observed sig st seen :
  Observed ids st seen ->
  Observed ids (handleNullToolUse st) (seen ++ [NullCall sig]).
Proof.
  intros H. unfold handleNullToolUse.
  apply closeCurrentBlock_observed in H.
  destruct (closeCurrentBlock st) as [bi ms cbt s tu it ot svc dr q cl].
  observe. destruct H as (Ht & Hk & Hs & Hi & Hd).
  rewrite numberedDraws_app, length_app.
  cbn [numberedDraws List.map length fst snd Nat.add]. rewrite app_nil_r.
  rewrite Hs, Hi, Hd. repeat split; auto. lia.
Qed.

Lemma setService_observed svc st seen :
  Observed ids st seen -> Observed ids (setService svc st) seen.
Proof. destruct st; unfold Observed; state_fields; auto. Qed.

Lemma observed_silent st seen part :
  visibleText part = None \/ visibleText part = Some "" ->
  thoughtText part = None \/ thoughtText part = Some "" ->
  callOf part = None ->
  Observed ids st seen -> Observed ids st (seen ++ [Shaped part]).
Proof.
  intros Hv Ht Hc (H1 & H2 & H3 & H4 & H5). unfold Observed.
  rewrite !omap_app. cbn -[joined numberedDraws]. rewrite ?omap_app.
  cbn -[joined numberedDraws]. rewrite Hc. cbn -[joined numberedDraws].
  destruct Hv as [-> | ->], Ht as [-> | ->];
    rewrite ?app_nil_r, ?joined_snoc, ?append_empty_r; auto.
Qed.

Lemma processPart_observed part st seen :
  Observed ids st seen ->
  exists st', processPart ids (Shaped part) st = Done st'
              /\ Observed ids st' (seen ++ [Shaped part]).
Proof.
  intros H. cbn [processPart].
  set (st1 := setService _ st).
  assert (H1 : Observed ids st1 seen) by (apply setService_observed; exact H).
  clearbody st1.
  destruct part as [txt thought sig|mime data sig|name args sig|name response].
  - destruct ((txt =? "") && nonEmpty (thoughtSignatureOf (TextPart txt thought sig))) eqn:Hc.
    { eexists; split; [reflexivity|].
      apply andb_true_iff in Hc as [Hc _]. apply String.eqb_eq in Hc. subst txt.
      apply observed_silent; auto; cbn; destruct (isTrue thought); auto. }
    destruct (isTrue thought) eqn:Hth.
    { eexists; split; [reflexivity|]. apply handleThinkingDelta_observed; assumption. }
    destruct (String.eqb_spec txt "") as [->|Hne]; cbn [negb].
    + eexists; split; [reflexivity|].
      apply observed_silent; auto; cbn; rewrite Hth; auto.
    + eexists; split; [reflexivity|]. apply handleTextDelta_observed; assumption.
  - eexists; split; [reflexivity|]. apply observed_silent; auto.
  - eexists; split; [reflexivity|]. apply handleToolUse_observed; assumption.
  - eexists; split; [reflexivity|]. apply observed_silent; auto.
Qed.

Lemma processNull_observed sig st seen :
  Observed ids st seen ->
  exists st', processPart ids (NullCall sig) st = Threw st'
              /\ Observed ids st' (seen ++ [NullCall sig]).
Proof.
  intros H. cbn [processPart]. eexists; split; [reflexivity|].
  apply handleNullToolUse_observed. apply setService_observed. exact H.
Qed.

Lemma pull_observed leftover reads st seen :
  Observed ids st seen ->
  Observed ids (pull ids (List.map ReadData reads) leftover st)
    (seen ++ streamReached reads leftover).
Proof.
  apply (pull_lifted ids (Observed ids)).
  - apply processPart_observed.
  - apply processNull_observed.
  - intros promptTokens s l H. unfold emitMessageStart. destruct s; observe; exact H.
  - intros input output s l H. destruct s; unfold Observed in *; state_fields; exact H.
  - intros s l H. apply closeCurrentBlock_observed in H.
    destruct (closeCurrentBlock s) as [bi ms cbt sg tu it ot svc dr q cl].
    unfold emitMessageEnd, emitMessageStart. state_fields.
    destruct (Nat.eqb bi 0 && negb ms); observe; exact H.
Qed.

Lemma numberedDraws_numbered (entries : list RawPart) : forall k,
  existsb isNullCall entries = false ->
  numberedDraws ids k (omap drawOf entries)
  = numbered ids k (omap callOf (omap shapeOf entries)).
Proof.
  induction entries as [|[part|sig|] rest IH]; intros k H; cbn in H; try discriminate.
  - reflexivity.
  - cbn -[numberedDraws numbered]. destruct (callOf part) as [[name input]|];
      cbn -[numberedDraws numbered]; [|apply IH; exact H].
    cbn [numberedDraws numbered]. rewrite IH by exact H. reflexivity.
  - cbn -[numberedDraws numbered]. apply IH. exact H.
Qed.

Lemma numberedDraws_names (entries : list RawPart) : forall k,
  List.map (fun u => snd (fst u)) (numberedDraws ids k (omap drawOf entries))
  = List.map fst (omap callOf (omap shapeOf entries)).
Proof.
  induction entries as [|[part|sig|] rest IH]; intros k.
  - reflexivity.
  - cbn -[numberedDraws]. destruct (callOf part) as [[name input]|];
      cbn -[numberedDraws]; [|apply IH].
    cbn [numberedDraws List.map fst snd]. rewrite IH. reflexivity.
  - cbn -[numberedDraws]. cbn [numberedDraws]. apply IH.
  - cbn -[numberedDraws]. apply IH.
Qed.

Lemma numbered_names k calls :
  List.map (fun u => snd (fst u)) (numbered ids k calls) = List.map fst calls.
Proof.
  revert k. induction calls as [|[name input] rest IH]; intros k; cbn; [reflexivity|].
  rewrite IH. reflexivity.
Qed.

End StreamContent.

Section StreamExtras.
Import Gemini StreamConverter ContentSpec StreamSpec.


End StreamExtras.

Section StreamUsage.
Import Gemini StreamConverter ContentSpec StreamSpec.
Variable ids : nat -> string.

Ltac state_fields :=
  cbn [emitEvent setBlock setMessageStarted setUsage setService drawToolUse close
       blockIndex messageStarted currentBlockType currentThinkingSignature
       hasEmittedToolUse inputTokens outputTokens thoughtSignatures drawn enqueued closed] in *.

Lemma Quiet_refl st : Quiet st st.
Proof. exists []. rewrite app_nil_r. auto. Qed.

Lemma Quiet_trans a b c : Quiet a b -> Quiet b c -> Quiet a c.
Proof.
  intros (e1 & Hq1 & Hb1 & Ho1 & Hm1) (e2 & Hq2 & Hb2 & Ho2 & Hm2).
  exists (e1 ++ e2). rewrite Hq2, Hq1, <- app_assoc, forallb_app, Hb1, Hb2.
  repeat split; congruence.
Qed.

Ltac quiet_by es :=
  exists es; state_fields; rewrite <- ?app_assoc, ?app_nil_r; auto.

Lemma closeCurrentBlock_quiet st : Quiet st (closeCurrentBlock st).
Proof.
  unfold closeCurrentBlock.
  destruct st as [bi ms cbt sig tu it ot svc dr q cl]; state_fields.
  destruct cbt as [bt|]; [|apply Quiet_refl].
  destruct (isType thinking (Some bt) && negb (sig =? "")).
  - quiet_by [content_block_delta bi (signature_delta sig); content_block_stop bi].
  - quiet_by [content_block_stop bi].
Qed.

Lemma handleTextDelta_quiet txt st : Quiet st (handleTextDelta txt st).
Proof.
  unfold handleTextDelta. destruct (isType text (currentBlockType st)); cbn [negb].
  - destruct st as [bi ms cbt sig tu it ot svc dr q cl].
    quiet_by [content_block_delta bi (text_delta txt)].
  - eapply Quiet_trans; [apply closeCurrentBlock_quiet|].
    destruct (closeCurrentBlock st) as [bi ms cbt sig tu it ot svc dr q cl].
    quiet_by [content_block_start bi StartText; content_block_delta bi (text_delta txt)].
Qed.

Lemma handleThinkingDelta_quiet thought signature st :
  Quiet st (handleThinkingDelta thought signature st).
Proof.
  unfold handleThinkingDelta. destruct (isType thinking (currentBlockType st)); cbn [negb].
  - destruct st as [bi ms cbt sig tu it ot svc dr q cl].
    destruct signature as [g|]; [destruct (negb (g =? ""))|];
      (destruct (negb (thought =? ""));
       [quiet_by [content_block_delta bi (thinking_delta thought)]
       | quiet_by (@nil Event)]).
  - eapply Quiet_trans; [apply closeCurrentBlock_quiet|].
    destruct (closeCurrentBlock st) as [bi ms cbt sig tu it ot svc dr q cl].
    destruct signature as [g|]; [destruct (negb (g =? ""))|];
      (destruct (negb (thought =? ""));
       [quiet_by [content_block_start bi StartThinking;
                  content_block_delta bi (thinking_delta thought)]
       | quiet_by [content_block_start bi StartThinking]]).
Qed.

Lemma handleToolUse_quiet name args st : Quiet st (handleToolUse ids name args st).
Proof.
  unfold handleToolUse.
  eapply Quiet_trans; [apply closeCurrentBlock_quiet|].
  destruct (closeCurrentBlock st) as [bi ms cbt sig tu it ot svc dr q cl].
  quiet_by [content_block_start bi (StartToolUse (ids dr) name);
            content_block_delta bi (input_json_delta (default (JObj []) args));
            content_block_stop bi].
Qed.

Lemma setService_quiet svc st : Quiet st (setService svc st).
Proof. destruct st. quiet_by (@nil Event). Qed.

Lemma handleNullToolUse_quiet st : Quiet st (handleNullToolUse st).
Proof.
  unfold handleNullToolUse.
  eapply Quiet_trans; [apply closeCurrentBlock_quiet|].
  destruct (closeCurrentBlock st). quiet_by (@nil Event).
Qed.

Lemma processPart_quiet raw st st' :
  processPart ids raw st = Done st' \/ processPart ids raw st = Threw st' -> Quiet st st'.
Proof.
  intros Hout. destruct raw as [part|sig|]; cbn [processPart] in Hout.
  3:{ destruct Hout as [Hout|Hout]; inversion Hout; subst; apply Quiet_refl. }
  2:{ destruct Hout as [Hout|Hout]; inversion Hout; subst.
      eapply Quiet_trans; [apply setService_quiet|]. apply handleNullToolUse_quiet. }
  set (st1 := setService _ st) in Hout.
  assert (H1 : Quiet st st1) by apply setService_quiet.
  clearbody st1. eapply Quiet_trans; [exact H1|].
  destruct part as [txt thought sig|mime data sig|name args sig|name response].
  - destruct ((txt =? "") && nonEmpty (thoughtSignatureOf (TextPart txt thought sig))).
    { destruct Hout as [Hout|Hout]; inversion Hout; subst; apply Quiet_refl. }
    destruct (isTrue thought).
    { destruct Hout as [Hout|Hout]; inversion Hout; subst. apply handleThinkingDelta_quiet. }
    destruct (negb (txt =? "")).
    { destruct Hout as [Hout|Hout]; inversion Hout; subst. apply handleTextDelta_quiet. }
    destruct Hout as [Hout|Hout]; inversion Hout; subst; apply Quiet_refl.
  - destruct Hout as [Hout|Hout]; inversion Hout; subst; apply Quiet_refl.
  - destruct Hout as [Hout|Hout]; inversion Hout; subst. apply handleToolUse_quiet.
  - destruct Hout as [Hout|Hout]; inversion Hout; subst; apply Quiet_refl.
Qed.

Lemma processParts_quiet ps : forall st st',
  processParts ids ps st = Done st' \/ processParts ids ps st = Threw st' -> Quiet st st'.
Proof.
  induction ps as [|raw rest IH]; intros st st' Hout; cbn [processParts] in Hout.
  - destruct Hout as [Hout|Hout]; inversion Hout; subst; apply Quiet_refl.
  - destruct (processPart ids raw st) as [s|s] eqn:Hp.
    + eapply Quiet_trans; [apply (processPart_quiet raw); left; exact Hp|].
      apply IH. exact Hout.
    + destruct Hout as [Hout|Hout]; inversion Hout; subst.
      apply (processPart_quiet raw). right. exact Hp.
Qed.

Lemma finalOutputTokens_app es extra :
  forallb isBlockEvent extra = true ->
  finalOutputTokens (es ++ extra) = finalOutputTokens es.
Proof.
  unfold finalOutputTokens. rewrite fold_left_app.
  generalize (fold_left (fun acc e => match e with message_delta _ n => Some n | _ => acc end)
                        es None).
  induction extra as [|e rest IH]; intros acc H; cbn [fold_left]; [reflexivity|].
  cbn [forallb] in H. apply andb_true_iff in H as [He Hr].
  rewrite IH by exact Hr. destruct e; try discriminate; reflexivity.
Qed.

Lemma startTokens_app es extra :
  es <> [] -> startTokens (es ++ extra) = startTokens es.
Proof. destruct es; [congruence | reflexivity]. Qed.

Lemma Metered_quiet st st' chunks :
  chunks <> [] -> Quiet st st' -> Metered st chunks -> Metered st' chunks.
Proof.
  intros Hne (extra & Hq & Hb & Ho & Hm) (Hf & Hout & Hc).
  unfold Metered. rewrite Hq, Ho, Hm, finalOutputTokens_app by exact Hb.
  repeat split; auto.
  destruct chunks; [congruence|]. destruct Hc as [Hs Hst]. split; [exact Hs|].
  rewrite startTokens_app; [exact Hst|].
  intros E. rewrite E in Hst. discriminate.
Qed.

Lemma reportedOutput_snoc chunks chunk :
  reportedOutput (chunks ++ [chunk])
  = match usageMetadata chunk with
    | Some meta => outputOf meta
    | None => reportedOutput chunks
    end.
Proof.
  unfold reportedOutput. rewrite omap_app.
  destruct (usageMetadata chunk) as [meta|] eqn:Hm.
  - replace (omap usageMetadata [chunk]) with [meta] by (cbn; rewrite Hm; reflexivity).
    rewrite last_snoc. reflexivity.
  - replace (omap usageMetadata [chunk]) with (@nil UsageMetadata)
      by (cbn; rewrite Hm; reflexivity).
    rewrite app_nil_r. reflexivity.
Qed.

Lemma processChunk_metered chunk st chunks st' :
  Metered st chunks ->
  processChunk ids chunk st = Done st' \/ processChunk ids chunk st = Threw st' ->
  Metered st' (chunks ++ [chunk]).
Proof.
  intros (Hf & Hout & Hc) Hres. unfold processChunk in Hres.
  set (st2 := match usageMetadata chunk with Some _ => _ | None => _ end) in Hres.
  assert (H2 : Metered st2 (chunks ++ [chunk])).
  { clear Hres. subst st2. unfold Metered. rewrite reportedOutput_snoc.
    destruct st as [bi ms cbt sig tu it ot svc dr q cl]; state_fields.
    destruct chunks as [|first more].
    - destruct Hc as (-> & -> & -> & ->). cbn [negb app reportedInput].
      unfold emitMessageStart. cbn in Hout.
      destruct (usageMetadata chunk) as [meta|]; state_fields; cbn; auto.
    - destruct Hc as [-> Hst]. cbn [negb app reportedInput] in *.
      destruct (usageMetadata chunk) as [meta|]; state_fields; auto. }
  clearbody st2.
  assert (Hne : chunks ++ [chunk] <> []) by (destruct chunks; discriminate).
  destruct (parts chunk) as [ps|].
  - eapply Metered_quiet; [exact Hne | apply (processParts_quiet ps); exact Hres | exact H2].
  - destruct Hres as [Hres|Hres]; inversion Hres; subst; exact H2.
Qed.

Lemma processBufferedJson_metered candidate st chunks :
  Metered st chunks ->
  Metered (processBufferedJson ids candidate st) (chunks ++ omap chunkOf [candidate]).
Proof.
  intros H. destruct candidate as [|chunk]; cbn [processBufferedJson omap chunkOf].
  - cbn. rewrite app_nil_r. exact H.
  - cbn. destruct (processChunk ids chunk st) as [s|s] eqn:Hp;
      eapply processChunk_metered; eauto.
Qed.

Lemma processBuffer_metered decoded : forall st chunks,
  Metered st chunks ->
  Metered (processBuffer ids decoded st) (chunks ++ omap chunkOf decoded).
Proof.
  unfold processBuffer.
  induction decoded as [|c rest IH]; intros st chunks H; cbn [fold_left].
  - cbn. rewrite app_nil_r. exact H.
  - change (c :: rest) with ([c] ++ rest). rewrite omap_app, app_assoc.
    apply IH. apply processBufferedJson_metered. exact H.
Qed.

Lemma finish_metered st chunks :
  Metered st chunks ->
  let sent := enqueued (close (emitMessageEnd (closeCurrentBlock st))) in
  startTokens sent = Some (reportedInput chunks)
  /\ finalOutputTokens sent = Some (reportedOutput chunks).
Proof.
  intros H. cbv zeta. destruct chunks as [|first more].
  - destruct H as (Hf & Hout & Hq & Hm & Hb & Hc).
    destruct st as [bi ms cbt sig tu it ot svc dr q cl]; state_fields.
    cbn in Hout. subst. cbn. auto.
  - assert (H' : Metered (closeCurrentBlock st) (first :: more)).
    { eapply Metered_quiet; [discriminate | apply closeCurrentBlock_quiet | exact H]. }
    destruct H' as (Hf & Hout & Hm & Hst).
    destruct (closeCurrentBlock st) as [bi ms cbt sig tu it ot svc dr q cl]; state_fields.
    subst ms. unfold emitMessageEnd. state_fields. rewrite andb_false_r. state_fields.
    split.
    + rewrite <- app_assoc. rewrite startTokens_app; [exact Hst|].
      intros E. rewrite E in Hst. discriminate.
    + unfold finalOutputTokens. rewrite !fold_left_app. cbn. rewrite Hout. reflexivity.
Qed.

Lemma pull_metered leftover : forall reads st chunks,
  Metered st chunks ->
  let sent := enqueued (pull ids (List.map ReadData reads) leftover st) in
  startTokens sent = Some (reportedInput (chunks ++ streamChunks reads leftover))
  /\ finalOutputTokens sent = Some (reportedOutput (chunks ++ streamChunks reads leftover)).
Proof.
  unfold streamChunks.
  induction reads as [|decoded rest IH]; intros st chunks H; cbn [List.map pull List.concat app].
  - apply finish_metered. destruct leftover as [c|].
    + apply processBufferedJson_metered. exact H.
    + cbn. rewrite app_nil_r. exact H.
  - rewrite <- app_assoc, omap_app, app_assoc.
    apply IH. apply processBuffer_metered. exact H.
Qed.

End StreamUsage.

Section StreamUsageExtras.
Import Gemini StreamConverter ContentSpec StreamSpec.

(** Token accounting of a stream: [message_start] carries the prompt
    token count of the first chunk (0 when it has none, or when no chunk
    arrived), and the final [message_delta] carries the output tokens of
    the last chunk that has usage metadata, candidates plus thoughts: the
    counts of the chunks are not added up. *)
Theorem stream_usage (ids : nat -> string) (svc : ThoughtSignature.Service)
    (reads : list (list Candidate)) (leftover : option Candidate) :
  let sent := enqueued (convertStream ids svc (List.map ReadData reads) leftover) in
  startTokens sent = Some (reportedInput (streamChunks reads leftover))
  /\ finalOutputTokens sent = Some (reportedOutput (streamChunks reads leftover)).
Proof.
  cbv zeta. unfold convertStream.
  assert (Hinit : Metered (initial svc) []) by (repeat split).
  exact (pull_metered ids leftover reads (initial svc) [] Hinit).
Qed.

End StreamUsageExtras.

Section SlotProofs.
Import Gemini StreamConverter ContentSpec StreamSpec LedgerSpec SlotSpec.
Variable ids : nat -> string.

Ltac state_fields :=
  cbn [emitEvent setBlock setMessageStarted setUsage setService drawToolUse close
       blockIndex messageStarted currentBlockType currentThinkingSignature
       hasEmittedToolUse inputTokens outputTokens thoughtSignatures drawn enqueued closed] in *.

Lemma storeIfPresent_slot sig svc :
  ThoughtSignature.lastTextSignature (ThoughtSignature.storeIfPresent sig svc)
  = orElse (if nonEmpty sig then sig else None) (ThoughtSignature.lastTextSignature svc).
Proof.
  destruct sig as [s|]; cbn; [|reflexivity]. destruct (negb (s =? "")); reflexivity.
Qed.

Lemma orElse_last_snoc {A} (l : list A) (x : option A) (b : option A) :
  orElse (last (l ++ match x with Some y => [y] | None => [] end)) b
  = orElse x (orElse (last l) b).
Proof.
  destruct x as [y|]; cbn.
  - rewrite last_snoc. reflexivity.
  - rewrite app_nil_r. reflexivity.
Qed.

Lemma convertPart_slot acc part seen svc :
  ThoughtSignature.lastTextSignature (ResponseConverter.thoughtSignatures acc)
  = orElse (last (omap recordedSignature seen)) (ThoughtSignature.lastTextSignature svc) ->
  ThoughtSignature.lastTextSignature
    (ResponseConverter.thoughtSignatures (ResponseConverter.convertPart ids acc part))
  = orElse (last (omap recordedSignature (seen ++ [part])))
           (ThoughtSignature.lastTextSignature svc).
Proof.
  intros H. rewrite omap_app.
  change (omap recordedSignature [part])
    with (match recordedSignature part with Some y => [y] | None => [] end).
  rewrite orElse_last_snoc, <- H.
  destruct part as [txt thought sig|mime data sig|name args sig|name response];
    cbn [ResponseConverter.convertPart recordedSignature].
  - destruct ((txt =? "") && nonEmpty sig); cbn [ResponseConverter.thoughtSignatures];
      apply storeIfPresent_slot.
  - reflexivity.
  - cbn [ResponseConverter.thoughtSignatures]. apply storeIfPresent_slot.
  - reflexivity.
Qed.

Lemma convertParts_slot ps svc :
  ThoughtSignature.lastTextSignature (snd (ResponseConverter.convertParts ids ps svc))
  = orElse (last (omap recordedSignature ps)) (ThoughtSignature.lastTextSignature svc).
Proof.
  unfold ResponseConverter.convertParts. cbn [snd].
  assert (H : forall l acc seen,
            ThoughtSignature.lastTextSignature (ResponseConverter.thoughtSignatures acc)
            = orElse (last (omap recordedSignature seen))
                     (ThoughtSignature.lastTextSignature svc) ->
            ThoughtSignature.lastTextSignature
              (ResponseConverter.thoughtSignatures
                 (fold_left (ResponseConverter.convertPart ids) l acc))
            = orElse (last (omap recordedSignature (seen ++ l)))
                     (ThoughtSignature.lastTextSignature svc)).
  { induction l as [|part rest IH]; intros acc seen Hacc; cbn [fold_left].
    - rewrite app_nil_r. exact Hacc.
    - replace (seen ++ part :: rest) with ((seen ++ [part]) ++ rest)
        by (rewrite <- app_assoc; reflexivity).
      apply IH. apply convertPart_slot. exact Hacc. }
  apply (H ps (ResponseConverter.mkAcc [] svc 0) []). reflexivity.
Qed.

Lemma numbered_inputs k calls :
  List.map snd (numbered ids k calls) = List.map snd calls.
Proof.
  revert k. induction calls as [|[name input] rest IH]; intros k; cbn; [reflexivity|].
  rewrite IH. reflexivity.
Qed.

(** The handlers of the stream leave the service alone. *)
Lemma closeCurrentBlock_service st :
  thoughtSignatures (closeCurrentBlock st) = thoughtSignatures st.
Proof.
  unfold closeCurrentBlock. destruct st as [bi ms cbt sig tu it ot svc dr q cl]; state_fields.
  destruct cbt as [bt|]; [|reflexivity].
  destruct (isType thinking (Some bt) && negb (sig =? "")); reflexivity.
Qed.

Lemma handleTextDelta_service txt st :
  thoughtSignatures (handleTextDelta txt st) = thoughtSignatures st.
Proof.
  unfold handleTextDelta. destruct (isType text (currentBlockType st)); cbn [negb].
  - destruct st; reflexivity.
  - rewrite <- (closeCurrentBlock_service st). destruct (closeCurrentBlock st); reflexivity.
Qed.

Lemma handleThinkingDelta_service thought signature st :
  thoughtSignatures (handleThinkingDelta thought signature st) = thoughtSignatures st.
Proof.
  unfold handleThinkingDelta. destruct (isType thinking (currentBlockType st)); cbn [negb].
  - destruct st. destruct signature as [g|]; [destruct (negb (g =? ""))|];
      destruct (negb (thought =? "")); reflexivity.
  - rewrite <- (closeCurrentBlock_service st). destruct (closeCurrentBlock st).
    destruct signature as [g|]; [destruct (negb (g =? ""))|];
      destruct (negb (thought =? "")); reflexivity.
Qed.

Lemma handleToolUse_service name args st :
  thoughtSignatures (handleToolUse ids name args st) = thoughtSignatures st.
Proof.
  unfold handleToolUse. rewrite <- (closeCurrentBlock_service st).
  destruct (closeCurrentBlock st); reflexivity.
Qed.

Lemma recorded_stored svc sig raw st seen :
  signedEntry raw = (if nonEmpty sig then sig else None) ->
  Recorded st svc seen ->
  Recorded (setService (ThoughtSignature.storeIfPresent sig (thoughtSignatures st)) st)
           svc (seen ++ [raw]).
Proof.
  intros Hsig [Hstore Hslot]. unfold Recorded. destruct st; state_fields. split.
  - rewrite storeIfPresent_store. exact Hstore.
  - rewrite storeIfPresent_slot, omap_app.
    change (omap signedEntry [raw])
      with (match signedEntry raw with Some y => [y] | None => [] end).
    rewrite orElse_last_snoc, <- Hslot, Hsig. reflexivity.
Qed.

Lemma processPart_recorded svc part st seen :
  Recorded st svc seen ->
  exists st', processPart ids (Shaped part) st = Done st'
              /\ Recorded st' svc (seen ++ [Shaped part]).
Proof.
  intros H. cbn [processPart].
  set (st1 := setService _ st).
  assert (H1 : Recorded st1 svc (seen ++ [Shaped part])).
  { subst st1. apply recorded_stored; [reflexivity | exact H]. }
  clearbody st1. unfold Recorded in *.
  destruct part as [txt thought sig|mime data sig|name args sig|name response].
  - destruct ((txt =? "") && nonEmpty (thoughtSignatureOf (TextPart txt thought sig)));
      [eexists; split; [reflexivity | exact H1]|].
    destruct (isTrue thought);
      [eexists; split; [reflexivity|]; rewrite handleThinkingDelta_service; exact H1|].
    destruct (negb (txt =? ""));
      [eexists; split; [reflexivity|]; rewrite handleTextDelta_service; exact H1|].
    eexists; split; [reflexivity | exact H1].
  - eexists; split; [reflexivity | exact H1].
  - eexists; split; [reflexivity|]. rewrite handleToolUse_service. exact H1.
  - eexists; split; [reflexivity | exact H1].
Qed.

Lemma processNull_recorded svc sig st seen :
  Recorded st svc seen ->
  exists st', processPart ids (NullCall sig) st = Threw st'
              /\ Recorded st' svc (seen ++ [NullCall sig]).
Proof.
  intros H. cbn [processPart]. eexists; split; [reflexivity|].
  set (st1 := setService _ st).
  assert (H1 : Recorded st1 svc (seen ++ [NullCall sig])).
  { subst st1. apply recorded_stored; [reflexivity | exact H]. }
  clearbody st1. unfold Recorded, handleNullToolUse in *.
  rewrite <- (closeCurrentBlock_service st1) in H1.
  destruct (closeCurrentBlock st1); exact H1.
Qed.

Lemma pull_recorded svc leftover reads st seen :
  Recorded st svc seen ->
  Recorded (pull ids (List.map ReadData reads) leftover st) svc
    (seen ++ streamReached reads leftover).
Proof.
  apply (pull_lifted ids (fun st seen => Recorded st svc seen)).
  - apply processPart_recorded.
  - apply processNull_recorded.
  - intros promptTokens s l H. unfold emitMessageStart. destruct s; exact H.
  - intros input output s l H. destruct s; exact H.
  - intros s l H. unfold Recorded in *. rewrite <- (closeCurrentBlock_service s) in H.
    destruct (closeCurrentBlock s) as [bi ms cbt sg tu it ot sv dr q cl].
    unfold emitMessageEnd, emitMessageStart. state_fields.
    destruct (Nat.eqb bi 0 && negb ms); exact H.
Qed.

End SlotProofs.

Section SlotExtras.
Import Gemini StreamConverter ContentSpec StreamSpec LedgerSpec SlotSpec ResponseSpec.

(** What translation records of the signatures it sees is the last one
    only: after a response is translated [getLastTextSignature] answers
    the last non-empty signature met on a text or functionCall part of
    the candidate, and what it answered before when there is none.  A
    stream records in the same slot the last non-empty signature of any
    entry it reaches, a part it gets through or the null call that stops
    a chunk, and writes no position of the ledger either. *)
Theorem last_signature_recorded (ids : nat -> string) (messageId : string)
    (response : GenerateContentResponse) (svc : ThoughtSignature.Service)
    (reads : list (list Candidate)) (leftover : option Candidate) :
  ThoughtSignature.getLastTextSignature
    (snd (ResponseConverter.convert ids messageId response svc))
  = match last (omap recordedSignature (upstreamParts response)) with
    | Some sig => Some sig
    | None => ThoughtSignature.getLastTextSignature svc
    end
  /\ (let out := thoughtSignatures
                   (convertStream ids svc (List.map ReadData reads) leftover) in
      ThoughtSignature.getLastTextSignature out
      = match last (omap signedEntry (streamReached reads leftover)) with
        | Some sig => Some sig
        | None => ThoughtSignature.getLastTextSignature svc
        end
      /\ forall t p, ThoughtSignature.getSignature t p out
                     = ThoughtSignature.getSignature t p svc).
Proof.
  split.
  - unfold ResponseConverter.convert, upstreamParts, firstCandidate.
    destruct (candidates response ≫= head) as [c|]; cbn [snd]; [|reflexivity].
    pose proof (convertParts_slot ids (default [] (Gemini.parts <$> Gemini.content c)) svc) as H.
    destruct (ResponseConverter.convertParts ids _ svc) as [blocks svc']. cbn [snd] in *.
    unfold ThoughtSignature.getLastTextSignature. rewrite H.
    destruct (Gemini.content c); reflexivity.
  - cbv zeta. unfold convertStream.
    assert (Hinit : Recorded (initial svc) svc [] ).
    { split; reflexivity. }
    destruct (pull_recorded ids svc leftover reads (initial svc) [] Hinit) as [Hstore Hslot].
    cbn [app] in *. split; [exact Hslot|].
    intros t p. unfold ThoughtSignature.getSignature. rewrite Hstore. reflexivity.
Qed.

(** Streaming and non-streaming translation agree: a stream carries the
    same text, the same thinking and the same tool uses, under the same
    names and with the same inputs, as the non-streaming translation of
    the parts it gets through, however these are split into chunks and
    reads; the identifiers are the same, drawn in the same order, when
    the stream reaches no null call, for which it draws an identifier
    that the other translation does not. *)
Theorem stream_agrees_with_response (ids : nat -> string)
    (svc svc' : ThoughtSignature.Service)
    (reads : list (list Candidate)) (leftover : option Candidate) :
  let sent := enqueued (convertStream ids svc (List.map ReadData reads) leftover) in
  let content := fst (ResponseConverter.convertParts ids (streamParts reads leftover) svc') in
  joined (omap textDeltaOf sent) = joined (omap blockText content)
  /\ joined (omap thinkingDeltaOf sent) = joined (omap blockThinking content)
  /\ List.map snd (omap startedToolUse sent)
     = List.map (fun u => snd (fst u)) (omap blockToolUse content)
  /\ (existsb isNullCall (streamReached reads leftover) = false ->
        omap startedToolUse sent
        = List.map (fun u => (fst (fst u), snd (fst u))) (omap blockToolUse content))
  /\ omap inputOf sent = List.map snd (omap blockToolUse content).
Proof.
  cbv zeta. unfold convertStream.
  assert (Hinit : Observed ids (initial svc) []) by (repeat split).
  destruct (pull_observed ids leftover reads (initial svc) [] Hinit) as (H1 & H2 & H3 & H4 & _).
  cbn [app] in *.
  destruct (convertParts_faithful ids (streamParts reads leftover) svc')
    as (_ & F1 & F2 & F3).
  rewrite H1, H2, H3, H4, F1, F2, F3, numbered_inputs, streamParts_reached.
  split; [reflexivity|]. split; [reflexivity|]. split; [|split; [|reflexivity]].
  - rewrite List.map_map. cbn [snd]. rewrite numberedDraws_names, numbered_names.
    reflexivity.
  - intros Hnull. rewrite (numberedDraws_numbered ids _ 0 Hnull). reflexivity.
Qed.

End SlotExtras.

(* ===================================================================== *)
(** * Model resolution                                                    *)
(* ===================================================================== *)

Section ModelConfigProofs.
Import ModelConfig ModelSpec.

Lemma registry_shape :
  Forall (fun kv =>
            WellFormed (snd kv)
            /\ (String.prefix "claude-" (fst kv) = true -> snd kv = GEMINI_3_FLASH_CAPS))
         MODEL_REGISTRY.
Proof.
  unfold MODEL_REGISTRY, WellFormed.
  repeat (constructor; [cbn; repeat split; (discriminate || lia || auto)|]).
  constructor.
Qed.

Lemma buildFallback_wellFormed g : WellFormed (buildFallback g).
Proof.
  unfold WellFormed, buildFallback. cbn.
  destruct (includes "gemini-3" g || includes "gemini-3." g); repeat split; (discriminate || lia || auto).
Qed.

Lemma registry_values_wellFormed c :
  In c (List.map snd MODEL_REGISTRY) -> WellFormed c.
Proof.
  intros Hin. apply in_map_iff in Hin as (kv & <- & Hkv).
  pose proof registry_shape as H. rewrite List.Forall_forall in H.
  apply (H kv Hkv).
Qed.

Lemma registryLookup_cases requestedModel :
  match registryLookup requestedModel with
  | Some (Capabilities c) =>
      WellFormed c
      /\ (String.prefix "claude-" requestedModel = true -> c = GEMINI_3_FLASH_CAPS)
  | Some (Inherited property) =>
      property = requestedModel /\ In requestedModel OBJECT_PROTOTYPE_KEYS
  | None => True
  end.
Proof.
  unfold registryLookup.
  destruct (List.find _ MODEL_REGISTRY) as [kv|] eqn:Hfind.
  - apply List.find_some in Hfind as [Hin Heq]. apply String.eqb_eq in Heq.
    pose proof registry_shape as H. rewrite List.Forall_forall in H.
    destruct (H kv Hin) as [Hw Hc]. split; [exact Hw|]. rewrite <- Heq. exact Hc.
  - destruct (existsb _ OBJECT_PROTOTYPE_KEYS) eqn:Hex; [|exact I].
    split; [reflexivity|].
    apply existsb_exists in Hex as (k & Hk & Heq). apply String.eqb_eq in Heq.
    subst k. exact Hk.
Qed.

End ModelConfigProofs.

Section ModelConfigExtras.
Import ModelConfig ModelSpec.

(** Every [claude-*] model name that is not overridden is routed to
    Gemini 3 Flash with its registered capabilities, whether or not the
    name is in the registry. *)
Theorem resolve_claude_alias (overrides : gmap string string) (requestedModel : string) :
  String.prefix "claude-" requestedModel = true ->
  Gemini.nonEmpty (overrides !! requestedModel) = false ->
  resolve overrides requestedModel = Capabilities GEMINI_3_FLASH_CAPS.
Proof.
  intros Hclaude Hover. unfold resolve. cbv zeta. rewrite Hover.
  pose proof (registryLookup_cases requestedModel) as H.
  destruct (registryLookup requestedModel) as [[c|property]|].
  - destruct H as [_ H]. rewrite (H Hclaude). reflexivity.
  - destruct H as [_ Hin]. exfalso.
    cbn in Hin.
    repeat (destruct Hin as [<-|Hin]; [cbn in Hclaude; discriminate|]).
    exact Hin.
  - rewrite Hclaude. reflexivity.
Qed.

Lemma resolve_claude_alias_witness :
  resolve {["claude-opus-4-6" := ""]} "claude-sonnet-5-20270101"
  = Capabilities GEMINI_3_FLASH_CAPS.
Proof. apply resolve_claude_alias; reflexivity. Defined.

(** An override is always honoured: when the requested name is mapped
    to a non-empty Gemini model name, the capabilities returned are for
    that very model, taken from the registry when it lists the model and
    built as a well-formed fallback otherwise. *)
Theorem resolve_override (overrides : gmap string string) (requestedModel target : string) :
  overrides !! requestedModel = Some target ->
  target <> "" ->
  exists c, resolve overrides requestedModel = Capabilities c
            /\ geminiModel c = target
            /\ WellFormed c.
Proof.
  intros Hover Hne. unfold resolve. cbv zeta. rewrite Hover. cbn [Gemini.nonEmpty default].
  destruct (String.eqb_spec target "") as [E|_]; [contradiction|]. cbn [negb].
  destruct (List.find _ (List.map snd MODEL_REGISTRY)) as [found|] eqn:Hfind.
  - apply List.find_some in Hfind as [Hin Heq]. apply String.eqb_eq in Heq.
    exists found. split; [reflexivity|]. split; [exact Heq|].
    apply (registry_values_wellFormed found Hin).
  - exists (buildFallback target). split; [reflexivity|]. split; [reflexivity|].
    apply buildFallback_wellFormed.
Qed.

Lemma resolve_override_witness :
  exists c, resolve {["claude-opus-4-6" := "gemini-2.5-pro-preview-06-05"]} "claude-opus-4-6"
            = Capabilities c
            /\ geminiModel c = "gemini-2.5-pro-preview-06-05"
            /\ WellFormed c.
Proof. apply resolve_override; [reflexivity | discriminate]. Defined.

(** Whatever the name and the overrides, [resolve] hands out well-formed
    capabilities (a Gemini 3 model supports thinking and defaults to the
    level HIGH, any other model has no default level, and the output
    limit is positive and at most 65536), except for a name, not
    overridden, that every object inherits from [Object.prototype]: the
    inherited member is returned as it is found. *)
Theorem resolve_well_formed (overrides : gmap string string) (requestedModel : string) :
  match resolve overrides requestedModel with
  | Capabilities c => WellFormed c
  | Inherited property =>
      property = requestedModel
      /\ In requestedModel OBJECT_PROTOTYPE_KEYS
      /\ Gemini.nonEmpty (overrides !! requestedModel) = false
  end.
Proof.
  unfold resolve. cbv zeta.
  destruct (Gemini.nonEmpty (overrides !! requestedModel)) eqn:Hover.
  - destruct (List.find _ (List.map snd MODEL_REGISTRY)) as [found|] eqn:Hfind.
    + apply List.find_some in Hfind as [Hin _]. apply (registry_values_wellFormed found Hin).
    + apply buildFallback_wellFormed.
  - pose proof (registryLookup_cases requestedModel) as H.
    destruct (registryLookup requestedModel) as [[c|property]|].
    + apply H.
    + destruct H as [-> Hin]. auto.
    + destruct (String.prefix "claude-" requestedModel); apply buildFallback_wellFormed.
Qed.

End ModelConfigExtras.

(* ===================================================================== *)
(** * Request assembly: schemas, configuration, turns                     *)
(* ===================================================================== *)

Section AcceptedSchema.
Import SchemaSanitizer AssemblySpec.
Variable Number_toString : Z -> string.
Local Abbreviation sanitize := (sanitizeSchema Number_toString).
Local Abbreviation Accepts' := (Accepts Number_toString).

Lemma accepted_object entries :
  accepted (JObj entries) = forallb acceptedEntry entries.
Proof. reflexivity. Qed.

Lemma set_accepted key v o :
  acceptedEntry (key, v) = true ->
  forallb acceptedEntry o = true -> forallb acceptedEntry (set key v o) = true.
Proof.
  intros Hkv Ho. apply forallb_forall. intros kv Hin.
  assert (H : Forall (fun kv => acceptedEntry kv = true) (set key v o)).
  { apply set_Forall; [exact Hkv|]. apply List.Forall_forall. apply forallb_forall. exact Ho. }
  rewrite List.Forall_forall in H. apply H. exact Hin.
Qed.

Lemma acceptedEntry_plain key v :
  allowed key = true -> key <> "properties" -> key <> "items" -> acceptedEntry (key, v) = true.
Proof.
  intros Ha Hp Hi. unfold acceptedEntry. cbn [fst snd]. rewrite Ha.
  destruct (String.eqb_spec key "properties"); [contradiction|].
  destruct (String.eqb_spec key "items"); [contradiction|]. reflexivity.
Qed.

Lemma assign_members key v members :
  accepted v = true ->
  forallb (fun member => accepted (snd member)) members = true ->
  forallb (fun member => accepted (snd member)) (assign key v members) = true.
Proof.
  intros Hv Hm. unfold assign. destruct (key =? "__proto__"); [exact Hm|].
  apply forallb_forall. intros kv Hin.
  assert (H : Forall (fun member => accepted (snd member) = true) (set key v members)).
  { apply set_Forall; [exact Hv|]. apply List.Forall_forall. apply forallb_forall. exact Hm. }
  rewrite List.Forall_forall in H. apply H. exact Hin.
Qed.

Lemma sanitizeProperties_accepted v ps :
  Forall Accepts' (SanitizerSpec.children v) ->
  sanitizeProperties sanitize v = Some ps ->
  forallb (fun member => accepted (snd member)) ps = true.
Proof.
  intros Hall. rewrite sanitizeProperties_entries.
  apply (loop_invariant
           (fun props => forallb (fun member => accepted (snd member)) props = true)
           (fun kv => Accepts' (snd kv))).
  - intros props kv props' Hprops Hkv. unfold SanitizerSpec.sanitizeProperty.
    destruct (sanitize (snd kv)) as [s|] eqn:Hs; [|discriminate].
    intros [= <-]. apply assign_members; [apply Hkv; exact Hs | exact Hprops].
  - apply (Forall_entries Accepts'). exact Hall.
  - reflexivity.
Qed.

Lemma copyEntry_accepted acc k v acc' :
  forallb acceptedEntry acc = true ->
  Accepts' v -> Forall Accepts' (SanitizerSpec.children v) ->
  copyEntry sanitize acc (k, v) = Some acc' ->
  forallb acceptedEntry acc' = true.
Proof.
  intros Hacc Hv Hchildren. unfold copyEntry. cbn [fst snd].
  destruct (allowed k) eqn:Hallowed; cbn [negb]; [|intros [= <-]; exact Hacc].
  destruct (String.eqb_spec k "properties") as [->|Hk]; cbn [andb].
  - destruct (isObjectLike v) eqn:Hobj.
    + destruct (sanitizeProperties sanitize v) as [ps|] eqn:Hps; [|discriminate].
      intros [= <-]. apply set_accepted; [|exact Hacc].
      unfold acceptedEntry. cbn. eapply sanitizeProperties_accepted; eassumption.
    + intros [= <-]. apply set_accepted; [|exact Hacc].
      unfold acceptedEntry. cbn. destruct v; cbn in Hobj; try discriminate; reflexivity.
  - destruct (String.eqb_spec k "items") as [->|Hk']; cbn [andb].
    + destruct (isObjectLike v) eqn:Hobj.
      * destruct (sanitize v) as [items|] eqn:Hitems; [|discriminate].
        intros [= <-]. apply set_accepted; [|exact Hacc].
        unfold acceptedEntry. cbn. apply Hv. exact Hitems.
      * intros [= <-]. apply set_accepted; [|exact Hacc].
        unfold acceptedEntry. cbn. destruct v; cbn in Hobj; try discriminate; reflexivity.
    + intros [= <-]. apply set_accepted; [|exact Hacc].
      apply acceptedEntry_plain; assumption.
Qed.

Lemma flattenOption_accepted st alt st' :
  forallb acceptedEntry (sanitizedSoFar st) = true ->
  flattenOption Number_toString st alt = Some st' ->
  forallb acceptedEntry (sanitizedSoFar st') = true.
Proof.
  intros H. unfold flattenOption.
  destruct (optionProps alt) as [opt|]; [|intros [= <-]; exact H].
  destruct (get "const" opt) as [c|].
  { destruct (toString Number_toString c); [|discriminate]. intros [= <-]. exact H. }
  assert (Hnull : forall st'',
            (if isNullName (get "type" opt)
             then Some (mkFlatten (enumValues st) (canEnum st)
                                  (set "nullable" (JBool true) (sanitizedSoFar st)))
             else Some (mkFlatten (enumValues st) false (sanitizedSoFar st))) = Some st'' ->
            forallb acceptedEntry (sanitizedSoFar st'') = true).
  { intros st''. destruct (isNullName (get "type" opt)); intros [= <-];
      cbn [sanitizedSoFar]; [|exact H].
    apply set_accepted; [|exact H].
    apply acceptedEntry_plain; [reflexivity | discriminate | discriminate]. }
  destruct (get "enum" opt) as [[| | | |members|]|]; try apply Hnull.
  intros [= <-]. exact H.
Qed.

Lemma flattenCombinators_accepted schema sanitized out :
  forallb acceptedEntry sanitized = true ->
  flattenCombinators Number_toString schema sanitized = Some out ->
  forallb acceptedEntry out = true.
Proof.
  intros H. unfold flattenCombinators.
  destruct (pickCombinator schema) as [[| | | |[|o os]|]|]; try (intros [= <-]; exact H).
  destruct (loop (flattenOption Number_toString) (o :: os) (mkFlatten [] true sanitized))
    as [st|] eqn:Hloop; [|discriminate].
  assert (Hst : forallb acceptedEntry (sanitizedSoFar st) = true).
  { revert Hloop.
    apply (loop_invariant (fun st => forallb acceptedEntry (sanitizedSoFar st) = true)
                          (fun _ => True)).
    - intros s x s' Hs _. apply flattenOption_accepted. exact Hs.
    - apply List.Forall_forall. auto.
    - exact H. }
  intros [= <-].
  destruct (canEnum _ && _); [|exact Hst].
  assert (Henum : forallb acceptedEntry
                    (set "enum" (JArr (enumValues st)) (sanitizedSoFar st)) = true).
  { apply set_accepted; [|exact Hst].
    apply acceptedEntry_plain; [reflexivity | discriminate | discriminate]. }
  cbv zeta. destruct (negb _); [|exact Henum].
  apply set_accepted; [|exact Henum].
  apply acceptedEntry_plain; [reflexivity | discriminate | discriminate].
Qed.

Lemma sanitize_accepted : forall v,
  Accepts' v /\ Forall Accepts' (SanitizerSpec.children v).
Proof.
  induction v as [| | | |xs IH|es IH] using JSON_ind;
    try (split; [intros out [= <-]; reflexivity | constructor]).
  - split; [intros out [= <-]; reflexivity|]. cbn [SanitizerSpec.children].
    induction IH as [|x rest [Hx _] _ IHrest]; constructor; assumption.
  - split.
    + intros out. rewrite sanitize_object.
      destruct (copyAllowed sanitize es) as [sanitized|] eqn:Hcopy; [|discriminate].
      destruct (flattenCombinators Number_toString es sanitized) as [flattened|] eqn:Hflat;
        [|discriminate].
      intros [= <-]. rewrite accepted_object.
      eapply flattenCombinators_accepted; [|exact Hflat].
      revert Hcopy. unfold copyAllowed.
      apply (loop_invariant (fun acc => forallb acceptedEntry acc = true)
               (fun kv => Accepts' (snd kv)
                          /\ Forall Accepts' (SanitizerSpec.children (snd kv))));
        [| exact IH | reflexivity].
      intros s [k v] s' Hs [Hv Hc]. apply copyEntry_accepted; assumption.
    + cbn [SanitizerSpec.children]. induction IH as [|kv rest [Hx _] _ IHrest]; cbn [List.map];
        constructor; assumption.
Qed.

End AcceptedSchema.

Section AssemblyExtras.
Import SchemaSanitizer SanitizerSpec AssemblySpec RequestAssembly.

(** Whatever JSON value it is given, the sanitiser either raises, and
    then some object of the value has a member named [toString], or
    returns a schema the Gemini API accepts: every key of the result is
    on the allow-list, in the object itself, in every member of its
    [properties] and in its [items] when that is an object, at any
    depth. *)
Theorem sanitize_only_allowed_keys (Number_toString : Z -> string) (schema : JSON) :
  match sanitizeSchema Number_toString schema with
  | Some out => accepted out = true
  | None => hasOwnToString schema = true
  end.
Proof.
  pose proof (proj1 (sanitize_accepted Number_toString schema)) as Hacc.
  pose proof (proj1 (sanitize_returns Number_toString schema)) as Hret.
  unfold Accepts, Returns in *.
  destruct (sanitizeSchema Number_toString schema) as [out|]; [apply Hacc; reflexivity|].
  destruct (hasOwnToString schema); [reflexivity|].
  destruct (Hret eq_refl) as [out Hout]. discriminate.
Qed.

Lemma convertDeclarations_shape Number_toString tools :
  match convertDeclarations Number_toString tools with
  | Some declarations =>
      List.map GenerateContentRequest.name declarations
      = List.map MessagesRequest.name tools
      /\ List.map GenerateContentRequest.description declarations
         = List.map MessagesRequest.description tools
      /\ Forall (fun d => accepted (GenerateContentRequest.parameters d) = true
                          /\ sanitizeSchema Number_toString
                               (GenerateContentRequest.parameters d)
                             = Some (GenerateContentRequest.parameters d))
                declarations
  | None =>
      exists tool,
        In tool tools
        /\ sanitizeSchema Number_toString (MessagesRequest.input_schema tool) = None
        /\ hasOwnToString (MessagesRequest.input_schema tool) = true
  end.
Proof.
  induction tools as [|tool more IH]; cbn [convertDeclarations].
  - repeat split; constructor.
  - pose proof (proj1 (sanitize_accepted Number_toString
                         (MessagesRequest.input_schema tool))) as Hkeys.
    pose proof (proj1 (sanitize_settles Number_toString
                         (MessagesRequest.input_schema tool))) as Hset.
    pose proof (proj1 (sanitize_returns Number_toString
                         (MessagesRequest.input_schema tool))) as Hret.
    destruct (sanitizeSchema Number_toString (MessagesRequest.input_schema tool))
      as [parameters|] eqn:Hs.
    + destruct (convertDeclarations Number_toString more) as [declarations|].
      * destruct IH as (Hn & Hd & Hall). cbn [List.map].
        cbn [GenerateContentRequest.name GenerateContentRequest.description].
        rewrite Hn, Hd. repeat split; auto. constructor; [|exact Hall].
        cbn [GenerateContentRequest.parameters]. split; [apply Hkeys; exact Hs|].
        apply (Hset parameters Hs).
      * destruct IH as (t & Hin & Hnone & Hown). exists t. repeat split; auto. right. exact Hin.
    + exists tool. split; [left; reflexivity|]. split; [exact Hs|].
      destruct (hasOwnToString (MessagesRequest.input_schema tool)) eqn:Hown;
        [reflexivity|].
      destruct (Hret Hown) as [out Hout]. rewrite Hs in Hout. discriminate.
Qed.

(** The tools of a request become one entry of function declarations,
    one per tool in the same order and under the same name and
    description, each with a parameter schema that the Gemini API accepts
    and that the sanitiser would return unchanged; a request without
    tools, or with an empty list of tools, gets no [tools] field.  The
    conversion raises only when the sanitiser raises on the schema of one
    of the tools, which then holds an object with a member named
    [toString]. *)
Theorem convert_tools (Number_toString : Z -> string)
    (svc : ThoughtSignature.Service) (toolNameMap : gmap string string)
    (request : MessagesRequest.t) (capabilities : ModelCapabilities) :
  match MessagesRequest.tools request with
  | None | Some [] =>
      exists geminiRequest,
        convert Number_toString svc toolNameMap request capabilities = Some geminiRequest
        /\ GenerateContentRequest.tools geminiRequest = None
  | Some tools =>
      match convert Number_toString svc toolNameMap request capabilities with
      | Some geminiRequest =>
          exists declarations,
            GenerateContentRequest.tools geminiRequest
            = Some [GenerateContentRequest.FunctionDeclarations declarations]
            /\ List.map GenerateContentRequest.name declarations
               = List.map MessagesRequest.name tools
            /\ List.map GenerateContentRequest.description declarations
               = List.map MessagesRequest.description tools
            /\ Forall (fun d => accepted (GenerateContentRequest.parameters d) = true
                                /\ sanitizeSchema Number_toString
                                     (GenerateContentRequest.parameters d)
                                   = Some (GenerateContentRequest.parameters d))
                      declarations
      | None =>
          exists tool,
            In tool tools
            /\ sanitizeSchema Number_toString (MessagesRequest.input_schema tool) = None
            /\ hasOwnToString (MessagesRequest.input_schema tool) = true
      end
  end.
Proof.
  unfold convert.
  destruct (MessagesRequest.tools request) as [[|tool more]|];
    try (eexists; split; reflexivity).
  unfold convertTools.
  pose proof (convertDeclarations_shape Number_toString (tool :: more)) as H.
  destruct (convertDeclarations Number_toString (tool :: more)) as [declarations|].
  - exists declarations. cbn [GenerateContentRequest.tools]. split; [reflexivity | exact H].
  - exact H.
Qed.

(** A larger thinking budget never maps to a lower thinking level, and
    the level is always one of the four. *)
Theorem budgetToLevel_monotone (budget budget' : Z) :
  (budget <= budget')%Z ->
  levelRank (budgetToLevel budget) <= levelRank (budgetToLevel budget')
  /\ In (budgetToLevel budget) THINKING_LEVELS.
Proof.
  intros Hle. unfold budgetToLevel.
  destruct (Z.leb_spec budget 1024), (Z.leb_spec budget 4096), (Z.leb_spec budget 16384),
           (Z.leb_spec budget' 1024), (Z.leb_spec budget' 4096), (Z.leb_spec budget' 16384);
    try lia; cbn; split; (lia || tauto).
Qed.

Lemma budgetToLevel_monotone_witness :
  levelRank (budgetToLevel 2000) <= levelRank (budgetToLevel 10000)
  /\ In (budgetToLevel 2000) THINKING_LEVELS.
Proof. apply budgetToLevel_monotone. lia. Defined.

(** The thinking configuration always asks for the thoughts.  For a
    Gemini 3 model it never carries a budget and always carries a level:
    MINIMAL when thinking is disabled (it cannot be turned off), else the
    level of the budget given, else the model's default level, HIGH when
    it has none.  For any other model it never carries a level; a model
    that supports thinking gets the budget 0 when thinking is disabled,
    else the budget given when it is not zero, else no budget; a model
    that does not gets neither. *)
Theorem thinking_config_shape (thinking : option MessagesRequest.ThinkingConfig)
    (capabilities : ModelCapabilities) :
  let config := buildThinkingConfig thinking capabilities in
  GenerateContentRequest.includeThoughts config = true
  /\ (isGemini3 capabilities = true ->
        GenerateContentRequest.thinkingBudget config = None
        /\ exists level,
             GenerateContentRequest.thinkingLevel config = Some level
             /\ (isDisabled thinking = true -> level = "MINIMAL")
             /\ (isDisabled thinking = false ->
                   match givenBudget thinking with
                   | Some budget => level = budgetToLevel budget
                   | None => level = default "HIGH" (defaultThinkingLevel capabilities)
                   end))
  /\ (isGemini3 capabilities = false ->
        GenerateContentRequest.thinkingLevel config = None
        /\ (supportsThinking capabilities = false ->
              GenerateContentRequest.thinkingBudget config = None)
        /\ (supportsThinking capabilities = true ->
              GenerateContentRequest.thinkingBudget config
              = if isDisabled thinking then Some 0%Z else givenBudget thinking)
        /\ (forall budget, GenerateContentRequest.thinkingBudget config = Some budget ->
              budget = 0%Z <-> isDisabled thinking = true)).
Proof.
  cbv zeta. unfold buildThinkingConfig.
  destruct (isGemini3 capabilities); cbn.
  - split; [reflexivity|]. split; [|discriminate].
    intros _. split; [reflexivity|]. eexists. split; [reflexivity|].
    destruct (isDisabled thinking); split; try discriminate; auto.
    intros _. destruct (givenBudget thinking); reflexivity.
  - destruct (supportsThinking capabilities); cbn.
    + split; [reflexivity|]. split; [discriminate|]. intros _.
      split; [reflexivity|]. split; [discriminate|]. split; [reflexivity|].
      intros budget. destruct (isDisabled thinking).
      * intros [= <-]. tauto.
      * unfold givenBudget. destruct (thinking ≫= MessagesRequest.budget_tokens) as [b|];
          [|discriminate].
        destruct (Z.eqb_spec b 0); [discriminate|]. intros [= <-].
        split; [contradiction | discriminate].
    + split; [reflexivity|]. split; [discriminate|]. intros _.
      split; [reflexivity|]. split; [reflexivity|]. split; [discriminate|].
      intros budget. discriminate.
Qed.

(** The output limit sent upstream never exceeds the limit of the model
    nor what the client asked for: it is the smaller of the two, and
    there is none when the request has no [max_tokens]. *)
Theorem generation_output_limit (request : MessagesRequest.t)
    (capabilities : ModelCapabilities) (limit : Z) :
  GenerateContentRequest.maxOutputTokens (buildGenerationConfig request capabilities)
  = Some limit ->
  (limit <= maxOutputTokens capabilities)%Z
  /\ exists asked,
       MessagesRequest.max_tokens request = Some asked
       /\ (limit <= asked)%Z
       /\ (limit = asked \/ limit = maxOutputTokens capabilities).
Proof.
  unfold buildGenerationConfig. cbn [GenerateContentRequest.maxOutputTokens].
  destruct (MessagesRequest.max_tokens request) as [asked|]; cbn; [|discriminate].
  intros [= <-]. split; [lia|]. exists asked. split; [reflexivity|]. lia.
Qed.

Lemma generation_output_limit_witness :
  let request :=
    MessagesRequest.mkRequest "claude-opus-4-6" [] (Some 200000%Z) None None None None None
                              None None None None in
  (65536 <= 65536)%Z
  /\ exists asked,
       MessagesRequest.max_tokens request = Some asked
       /\ (65536 <= asked)%Z
       /\ (65536%Z = asked \/ 65536%Z = 65536%Z).
Proof.
  cbv zeta.
  exact (generation_output_limit
           (MessagesRequest.mkRequest "claude-opus-4-6" [] (Some 200000%Z) None None None None
                                      None None None None None)
           ModelConfig.GEMINI_3_FLASH_CAPS 65536 eq_refl).
Defined.

(** The function-calling configuration names allowed functions only for
    a choice of type [tool] that gives a non-empty name: the mode is then
    ANY and that name is the only one allowed.  The mode is always one
    of AUTO, ANY and NONE, and AUTO for a type that is none of the four
    known. *)
Theorem tool_choice_shape (choice : MessagesRequest.ToolChoice) :
  let config := convertToolChoice choice in
  In (GenerateContentRequest.mode config) ["AUTO"; "ANY"; "NONE"]
  /\ (forall names, GenerateContentRequest.allowedFunctionNames config = Some names ->
        GenerateContentRequest.mode config = "ANY"
        /\ MessagesRequest.choice_type choice = "tool"
        /\ exists name, names = [name] /\ name <> ""
                        /\ MessagesRequest.choice_name choice = Some name)
  /\ (~ In (MessagesRequest.choice_type choice) ["auto"; "any"; "none"; "tool"] ->
        config = GenerateContentRequest.mkToolConfig "AUTO" None).
Proof.
  cbv zeta. unfold convertToolChoice.
  destruct choice as [type name]. cbn [MessagesRequest.choice_type MessagesRequest.choice_name].
  destruct (String.eqb_spec type "auto") as [->|Hauto].
  { cbn. repeat split; try tauto; try discriminate;
      try (intros H; exfalso; apply H; auto). }
  destruct (String.eqb_spec type "any") as [->|Hany].
  { cbn. repeat split; try tauto; try discriminate;
      try (intros H; exfalso; apply H; auto). }
  destruct (String.eqb_spec type "none") as [->|Hnone].
  { cbn. repeat split; try tauto; try discriminate;
      try (intros H; exfalso; apply H; auto). }
  destruct (String.eqb_spec type "tool") as [->|Htool].
  - cbn [GenerateContentRequest.mode GenerateContentRequest.allowedFunctionNames].
    split; [cbn; tauto|]. split.
    + intros names Hnames. split; [reflexivity|]. split; [reflexivity|].
      destruct name as [n|]; [|discriminate].
      destruct (String.eqb_spec n "") as [->|Hn]; cbn in Hnames; [discriminate|].
      injection Hnames as <-. exists n. auto.
    + intros H. exfalso. apply H. cbn. tauto.
  - cbn. repeat split; try tauto; discriminate.
Qed.

End AssemblyExtras.

Section TurnShapes.
Import Anthropic RequestConverter RequestSpec AssemblySpec.
Variable toolNameMap : gmap string string.
Variable capabilities : ModelCapabilities.

Lemma collect_shapes role blocks : forall acc,
  forallb isPlain (textAndImageParts acc) = true ->
  forallb Gemini.isFunctionCall (toolUseParts acc) = true ->
  Forall responseTurn (toolResultContents acc) ->
  let acc' := fold_left (collectBlock role capabilities toolNameMap) blocks acc in
  forallb isPlain (textAndImageParts acc') = true
  /\ forallb Gemini.isFunctionCall (toolUseParts acc') = true
  /\ Forall responseTurn (toolResultContents acc').
Proof.
  induction blocks as [|b rest IH]; intros acc Hp Hc Hr; cbn [fold_left]; [auto|].
  apply IH; destruct b as [txt|src|id name input|id c e|ty];
    cbn [collectBlock textAndImageParts toolUseParts toolResultContents]; auto.
  - rewrite forallb_app, Hp. reflexivity.
  - rewrite forallb_app, Hp. destruct src; reflexivity.
  - rewrite forallb_app, Hc. reflexivity.
  - apply Forall_app. split; [exact Hr|]. constructor; [|constructor].
    unfold convertToolResult. eexists _, _. reflexivity.
Qed.

Lemma responseTurn_shape turn : responseTurn turn -> TurnShape turn.
Proof.
  intros (name & response & ->). split; [discriminate|]. cbn. right. eauto.
Qed.

Lemma convertSingleMessage_shape message :
  let turns := convertSingleMessage toolNameMap message capabilities in
  turns <> [] /\ Forall TurnShape turns.
Proof.
  cbv zeta. unfold convertSingleMessage.
  destruct message as [r [s|blocks]]; cbn [role content].
  - split; [discriminate|]. constructor; [|constructor].
    split; [discriminate|]. destruct r; cbn; [left; reflexivity|].
    exists [Gemini.TextPart s None None], []. auto.
  - destruct (collect_shapes (mapRole r) blocks (mkCollected [] [] []) eq_refl eq_refl
                (List.Forall_nil _)) as (Hp & Hc & Hr).
    set (acc := fold_left _ blocks _) in *. clearbody acc.
    assert (Hplaceholder : TurnShape (Gemini.mkContent (mapRole r) [Gemini.TextPart "" None None])).
    { split; [discriminate|]. destruct r; cbn; [left; reflexivity|].
      exists [Gemini.TextPart "" None None], []. auto. }
    destruct r; cbn [mapRole isModel].
    + destruct (textAndImageParts acc) as [|p ps] eqn:Hti; cbn [length Nat.ltb Nat.leb app].
      * destruct (toolResultContents acc) as [|t ts]; cbn [length Nat.eqb].
        -- split; [discriminate|]. constructor; [exact Hplaceholder | constructor].
        -- split; [discriminate|].
           apply (List.Forall_impl _ responseTurn_shape). exact Hr.
      * cbn. split; [discriminate|]. constructor.
        -- split; [discriminate|]. cbn. left. exact Hp.
        -- apply (List.Forall_impl _ responseTurn_shape). exact Hr.
    + destruct (textAndImageParts acc ++ toolUseParts acc) as [|p ps] eqn:Hall;
        cbn [length Nat.ltb Nat.leb Nat.eqb].
      * split; [discriminate|]. constructor; [exact Hplaceholder | constructor].
      * cbn. split; [discriminate|]. constructor; [|constructor].
        split; [discriminate|]. cbn. rewrite <- Hall.
        exists (textAndImageParts acc), (toolUseParts acc). auto.
Qed.

End TurnShapes.

Section TurnShapeExtras.
Import Anthropic RequestConverter RequestSpec AssemblySpec.

Lemma ensureParts_plain svc t : forall plain p found calls,
  forallb isPlain plain = true ->
  ThoughtSignature.ensureParts svc t p found (plain ++ calls)
  = plain ++ ThoughtSignature.ensureParts svc t (p + length plain) found calls.
Proof.
  induction plain as [|q rest IH]; intros p found calls H; cbn [app length].
  - rewrite Nat.add_0_r. reflexivity.
  - cbn [forallb] in H. apply andb_true_iff in H as [Hq Hr].
    replace (p + S (length rest)) with (S p + length rest) by lia.
    destruct q; cbn in Hq; try discriminate; cbn [ThoughtSignature.ensureParts];
      rewrite IH by exact Hr; reflexivity.
Qed.

Lemma ensureParts_calls svc t : forall calls p found,
  forallb Gemini.isFunctionCall calls = true ->
  forallb Gemini.isFunctionCall (ThoughtSignature.ensureParts svc t p found calls) = true.
Proof.
  induction calls as [|q rest IH]; intros p found H; [reflexivity|].
  cbn [forallb] in H. apply andb_true_iff in H as [Hq Hr].
  destruct q; cbn in Hq; try discriminate. cbn [ThoughtSignature.ensureParts forallb].
  rewrite IH by exact Hr.
  destruct found; [reflexivity|]. destruct (negb _); reflexivity.
Qed.

Lemma ensureTurns_shape svc contents : forall t,
  Forall TurnShape contents -> Forall TurnShape (ThoughtSignature.ensureTurns svc t contents).
Proof.
  induction contents as [|turn rest IH]; intros t H; [constructor|].
  inversion H as [|? ? Hturn Hrest]; subst. cbn [ThoughtSignature.ensureTurns].
  constructor; [|apply IH; exact Hrest].
  destruct turn as [r ps]. destruct Hturn as [Hne Hshape]. cbn [Gemini.role Gemini.parts] in *.
  destruct r; [split; assumption|].
  destruct Hshape as (plain & calls & -> & Hp & Hc).
  split; cbn [Gemini.role Gemini.parts].
  - intros E. apply (f_equal (@length _)) in E.
    rewrite ensureParts_length in E. destruct (plain ++ calls); [congruence | discriminate].
  - rewrite ensureParts_plain by exact Hp.
    exists plain, (ThoughtSignature.ensureParts svc t (0 + length plain) false calls).
    split; [reflexivity|]. split; [exact Hp|]. apply ensureParts_calls. exact Hc.
Qed.

(** Every message gives at least one turn, and every turn sent upstream
    has one of three shapes: a model turn whose text and image parts come
    before its function calls, a user turn of text and image parts, or a
    user turn made of one function response.  So no turn is empty, no
    function call is sent in a user turn and no function response in a
    model turn. *)
Theorem translated_turn_shape (svc : ThoughtSignature.Service)
    (toolNameMap : gmap string string) (messages : list Message)
    (capabilities : ModelCapabilities) :
  let contents := convertMessages svc toolNameMap messages capabilities in
  Forall TurnShape contents /\ length messages <= length contents.
Proof.
  cbv zeta. unfold convertMessages. rewrite convertMessages_fold. cbn [app].
  set (turns := List.concat _).
  assert (H : Forall TurnShape turns /\ length messages <= length turns).
  { subst turns. induction messages as [|m rest [IHs IHl]]; cbn [List.map List.concat length].
    - split; [constructor | lia].
    - destruct (convertSingleMessage_shape toolNameMap capabilities m) as [Hne Hs].
      split; [apply Forall_app; split; assumption|].
      rewrite length_app.
      destruct (convertSingleMessage toolNameMap m capabilities); [congruence|]. cbn. lia. }
  destruct H as [Hs Hl].
  destruct (isGemini3 capabilities); [|split; assumption].
  unfold ThoughtSignature.ensureSignatures. cbn [negb].
  split; [apply ensureTurns_shape; exact Hs|]. rewrite ensureTurns_length. exact Hl.
Qed.

End TurnShapeExtras.

(* ===================================================================== *)
(** * Errors, web tools and routing                                       *)
(* ===================================================================== *)

Section ErrorsProofs.
Import Errors.

Lemma mapGeminiError_closed Number_toString JSON_parse status body e :
  mapGeminiError Number_toString JSON_parse status body = Some e ->
  statusCode e = (if (status =? 403)%Z then 401
                  else if (status =? 503)%Z then 529
                  else if (500 <=? status)%Z then 502
                  else status)%Z.
Proof.
  unfold mapGeminiError.
  destruct (toString Number_toString (upstreamMessage JSON_parse body)) as [m|]; cbn;
    [|discriminate].
  destruct (Z.eqb_spec status 400) as [->|H400]; [intros [= <-]; reflexivity|].
  destruct (Z.eqb_spec status 401) as [->|H401]; [intros [= <-]; reflexivity|].
  destruct (Z.eqb_spec status 403) as [->|H403]; [intros [= <-]; reflexivity|].
  cbn [orb].
  destruct (Z.eqb_spec status 404) as [->|H404]; [intros [= <-]; reflexivity|].
  destruct (Z.eqb_spec status 429) as [->|H429]; [intros [= <-]; reflexivity|].
  destruct (Z.eqb_spec status 503) as [->|H503]; [intros [= <-]; reflexivity|].
  intros [= <-]. reflexivity.
Qed.

End ErrorsProofs.

Section ErrorsExtras.
Import Errors.

(** An upstream failure is always reported with the upstream status,
    except that 403 is reported as 401, 503 as 529 and any other status
    of 500 or more as 502.  The error type is [api_error] exactly for the
    statuses that have no type of their own, and the message ends with
    the message read from the upstream body, which is the body itself
    when it is no JSON.  Nothing is returned only when the upstream
    message is an object that cannot be rendered. *)
Theorem mapGeminiError_status (Number_toString : Z -> string)
    (JSON_parse : string -> option JSON) (status : Z) (body : string) :
  match mapGeminiError Number_toString JSON_parse status body with
  | Some e =>
      statusCode e = (if (status =? 403)%Z then 401
                      else if (status =? 503)%Z then 529
                      else if (500 <=? status)%Z then 502
                      else status)%Z
      /\ In (errorType e) ["invalid_request_error"; "authentication_error"; "not_found_error";
                           "rate_limit_error"; "overloaded_error"; "api_error"]
      /\ (errorType e = "api_error" <-> ~ In status [400; 401; 403; 404; 429; 503]%Z)
      /\ (exists prefix upstream,
            toString Number_toString (upstreamMessage JSON_parse body) = Some upstream
            /\ message e = (prefix ++ upstream)%string)
      /\ (JSON_parse body = None -> exists prefix, message e = (prefix ++ body)%string)
  | None => toString Number_toString (upstreamMessage JSON_parse body) = None
  end.
Proof.
  unfold mapGeminiError.
  destruct (toString Number_toString (upstreamMessage JSON_parse body)) as [m|] eqn:Hm;
    cbn; [|reflexivity].
  assert (Hbody : JSON_parse body = None ->
            forall prefix, exists prefix', (prefix ++ m)%string = (prefix' ++ body)%string).
  { intros Hp prefix. unfold upstreamMessage in Hm. rewrite Hp in Hm. cbn in Hm.
    injection Hm as <-. exists prefix. reflexivity. }
  destruct (Z.eqb_spec status 400) as [->|H400].
  { cbn. repeat split; auto; try (intros H; cbn in H; intuition discriminate);
      try (intros; eexists; eexists; split; reflexivity); eauto 10. }
  destruct (Z.eqb_spec status 401) as [->|H401].
  { cbn. repeat split; auto; try (intros H; cbn in H; intuition discriminate); eauto 10. }
  destruct (Z.eqb_spec status 403) as [->|H403].
  { cbn. repeat split; auto; try (intros H; cbn in H; intuition discriminate); eauto 10. }
  cbn [orb].
  destruct (Z.eqb_spec status 404) as [->|H404].
  { cbn. repeat split; auto; try (intros H; cbn in H; intuition discriminate); eauto 10. }
  destruct (Z.eqb_spec status 429) as [->|H429].
  { cbn. repeat split; auto; try (intros H; cbn in H; intuition discriminate); eauto 10. }
  destruct (Z.eqb_spec status 503) as [->|H503].
  { cbn. repeat split; auto; try (intros H; cbn in H; intuition discriminate); eauto 10. }
  cbn [statusCode errorType message UpstreamError].
  split; [reflexivity|]. split; [cbn; tauto|]. split.
  { split; [|reflexivity]. intros _ H. cbn in H. intuition congruence. }
  assert (Hpre : forall code, exists prefix,
            ("Gemini API error (" ++ code ++ "): " ++ m)%string = (prefix ++ m)%string).
  { intros code. exists ("Gemini API error (" ++ code ++ "): ")%string.
    rewrite !append_assoc_s. reflexivity. }
  destruct (Hpre (numberToString Number_toString status)) as [prefix Hp]. split.
  - exists prefix, m. split; [reflexivity | exact Hp].
  - intros Hnone. destruct (Hbody Hnone prefix) as [prefix' E].
    exists prefix'. rewrite Hp. exact E.
Qed.

End ErrorsExtras.

Section WebToolsProofs.
Import WebTools.

Lemma extract_fold tools : forall e,
  ~ In JNull tools ->
  fold_left extractStep tools (Some e)
  = Some (mkExtracted (serverTools e ++ List.filter isServerTool tools)
                      (regularTools e
                         ++ List.filter (fun tool => negb (isServerTool tool)) tools)).
Proof.
  induction tools as [|tool rest IH]; intros e Hnull; cbn [fold_left List.filter].
  - rewrite !app_nil_r. destruct e; reflexivity.
  - assert (Hrest : ~ In JNull rest) by (intros H; apply Hnull; right; exact H).
    assert (Htool : tool <> JNull) by (intros ->; apply Hnull; left; reflexivity).
    assert (Hstep : extractStep (Some e) tool
                    = if isServerTool tool
                      then Some (mkExtracted (serverTools e ++ [tool]) (regularTools e))
                      else Some (mkExtracted (serverTools e) (regularTools e ++ [tool]))).
    { destruct tool; try reflexivity. contradiction. }
    rewrite Hstep. destruct (isServerTool tool); cbn [negb]; rewrite IH by exact Hrest;
      cbn [serverTools regularTools]; rewrite <- ?app_assoc; reflexivity.
Qed.

Lemma extract_null tools : forall acc,
  In JNull tools -> fold_left extractStep tools acc = None.
Proof.
  assert (Hnone : forall l, fold_left extractStep l None = None).
  { induction l as [|x l IH]; [reflexivity | exact IH]. }
  induction tools as [|tool rest IH]; intros acc Hin; [contradiction|].
  cbn [fold_left]. destruct Hin as [->|Hin].
  - replace (extractStep acc JNull) with (@None Extracted) by (destruct acc; reflexivity).
    apply Hnone.
  - apply IH. exact Hin.
Qed.

Lemma filter_partition_perm {A} (f : A -> bool) (l : list A) :
  Permutation l (List.filter f l ++ List.filter (fun x => negb (f x)) l).
Proof.
  induction l as [|x l IH]; cbn [List.filter]; [constructor|].
  destruct (f x); cbn [negb app].
  - constructor. exact IH.
  - apply Permutation_cons_app. exact IH.
Qed.

Lemma filter_none_all {A} (f : A -> bool) (l : list A) :
  List.filter f l = [] -> List.filter (fun x => negb (f x)) l = l.
Proof.
  induction l as [|x l IH]; cbn [List.filter]; [reflexivity|].
  destruct (f x); cbn [negb]; [discriminate|]. intros H. rewrite IH by exact H. reflexivity.
Qed.

Lemma existsb_filter {A} (f g : A -> bool) (l : list A) :
  existsb g (List.filter f l) = existsb (fun x => f x && g x) l.
Proof.
  induction l as [|x l IH]; cbn [List.filter existsb]; [reflexivity|].
  destruct (f x); cbn [existsb andb]; rewrite IH; reflexivity.
Qed.

Lemma extractServerTools_fold_result tools e :
  extractServerTools tools = Some e -> serverTools e = List.filter isServerTool tools.
Proof.
  unfold extractServerTools. intros He.
  assert (Hno : ~ In JNull tools).
  { intros Hin. rewrite extract_null in He by exact Hin. discriminate. }
  rewrite extract_fold in He by exact Hno. injection He as <-. reflexivity.
Qed.

End WebToolsProofs.

Section WebToolsExtras.
Import WebTools Router.

(** [extractServerTools] splits the tools in two without losing or
    reordering any: the server tools are the objects whose [type] is a
    string starting with [web_search] or [web_fetch], the regular tools
    are all the others, each list in the order of the request; when there
    is no server tool the regular tools are the tools as given.  It
    raises exactly when an entry of the array is [null]. *)
Theorem extractServerTools_partition (tools : list JSON) :
  match extractServerTools tools with
  | Some e =>
      serverTools e = List.filter isServerTool tools
      /\ regularTools e = List.filter (fun tool => negb (isServerTool tool)) tools
      /\ Permutation tools (serverTools e ++ regularTools e)
      /\ (serverTools e = [] -> regularTools e = tools)
      /\ ~ In JNull tools
  | None => In JNull tools
  end.
Proof.
  unfold extractServerTools.
  assert (Hdec : In JNull tools \/ ~ In JNull tools).
  { induction tools as [|x l [IH|IH]]; [right; intros [] | left; right; exact IH |].
    destruct x; try (right; intros [H|H]; [discriminate | contradiction]).
    left; left; reflexivity. }
  destruct Hdec as [Hin|Hno].
  - rewrite extract_null by exact Hin. exact Hin.
  - rewrite extract_fold by exact Hno. cbn [serverTools regularTools app].
    split; [reflexivity|]. split; [reflexivity|]. split; [apply filter_partition_perm|].
    split; [apply filter_none_all | exact Hno].
Qed.

(** Web tools from the request to the upstream request: after
    extraction and injection, the tools already in the upstream request
    are kept in front, followed by one Google search tool when some
    server tool is named [web_search] and by one URL context tool when
    some server tool is named [web_fetch], each at most once however many
    server tools ask for it.  A tool is extracted for its [type] and
    injected for its [name]. *)
Theorem inject_extracted_web_tools (geminiRequest : GenerateContentRequest.t)
    (tools : list JSON) (e : Extracted) :
  extractServerTools tools = Some e ->
  let injected := injectGeminiWebTools geminiRequest (serverTools e) in
  GenerateContentRequest.tools injected
  = Some (default [] (GenerateContentRequest.tools geminiRequest)
          ++ (if existsb (fun tool => isServerTool tool && isNamed "web_search" tool) tools
              then [GenerateContentRequest.GoogleSearch] else [])
          ++ (if existsb (fun tool => isServerTool tool && isNamed "web_fetch" tool) tools
              then [GenerateContentRequest.UrlContext] else []))
  /\ GenerateContentRequest.contents injected = GenerateContentRequest.contents geminiRequest
  /\ GenerateContentRequest.generationConfig injected
     = GenerateContentRequest.generationConfig geminiRequest.
Proof.
  intros He. cbv zeta.
  pose proof (extractServerTools_fold_result tools e He) as Hs.
  unfold injectGeminiWebTools, hasWebSearch, hasWebFetch.
  cbn [GenerateContentRequest.tools GenerateContentRequest.contents
       GenerateContentRequest.generationConfig].
  rewrite Hs, !existsb_filter.
  split; [|split; reflexivity].
  destruct (existsb _ tools); destruct (existsb _ tools);
    rewrite <- ?app_assoc, ?app_nil_r; reflexivity.
Qed.

Lemma inject_extracted_web_tools_witness :
  let search := JObj [("type", JStr "web_search_20250305"); ("name", JStr "web_search")] in
  let fetch := JObj [("type", JStr "web_fetch_20250910"); ("name", JStr "web_fetch")] in
  let bash := JObj [("name", JStr "bash"); ("input_schema", JObj [])] in
  let request :=
    GenerateContentRequest.mkRequest [] None
      (Some [GenerateContentRequest.FunctionDeclarations
               [GenerateContentRequest.mkDeclaration "bash" None (JObj [])]])
      None
      (GenerateContentRequest.mkGenerationConfig None None None None None
         (GenerateContentRequest.mkThinkingConfig true None None))
      [] in
  GenerateContentRequest.tools
    (injectGeminiWebTools request [search; search; fetch])
  = Some [GenerateContentRequest.FunctionDeclarations
            [GenerateContentRequest.mkDeclaration "bash" None (JObj [])];
          GenerateContentRequest.GoogleSearch;
          GenerateContentRequest.UrlContext].
Proof.
  cbv zeta.
  exact (proj1 (inject_extracted_web_tools
    (GenerateContentRequest.mkRequest [] None
      (Some [GenerateContentRequest.FunctionDeclarations
               [GenerateContentRequest.mkDeclaration "bash" None (JObj [])]])
      None
      (GenerateContentRequest.mkGenerationConfig None None None None None
         (GenerateContentRequest.mkThinkingConfig true None None))
      [])
    [JObj [("type", JStr "web_search_20250305"); ("name", JStr "web_search")];
     JObj [("name", JStr "bash"); ("input_schema", JObj [])];
     JObj [("type", JStr "web_search_20250305"); ("name", JStr "web_search")];
     JObj [("type", JStr "web_fetch_20250910"); ("name", JStr "web_fetch")]]
    (mkExtracted
       [JObj [("type", JStr "web_search_20250305"); ("name", JStr "web_search")];
        JObj [("type", JStr "web_search_20250305"); ("name", JStr "web_search")];
        JObj [("type", JStr "web_fetch_20250910"); ("name", JStr "web_fetch")]]
       [JObj [("name", JStr "bash"); ("input_schema", JObj [])]])
    eq_refl)).
Defined.

End WebToolsExtras.

Section RouterExtras.
Import Errors Router RouterSpec.

(** Dispatch: an OPTIONS request to any path is answered 204 with the
    CORS headers, before any handler is looked at; a request to anything
    but the three endpoints is answered 400 with an
    [invalid_request_error] naming the method and the path, a known
    path under another method included. *)
Theorem handle_dispatch (now : Z) (method path : string) (messagesOutcome : Response + Raised) :
  (method = "OPTIONS" -> handle now method path messagesOutcome = corsResponse)
  /\ (method <> "OPTIONS" ->
        ~ In (method, path) [("POST", "/v1/messages"); ("GET", "/v1/models"); ("GET", "/health")] ->
        let response := handle now method path messagesOutcome in
        status response = 400%Z
        /\ body response
           = errorBody "invalid_request_error"
                       ("Unknown endpoint: " ++ method ++ " " ++ path)%string)
  /\ status corsResponse = 204%Z
  /\ In ("Access-Control-Allow-Origin", "*") (headers corsResponse)
  /\ body corsResponse = NoBody.
Proof.
  split; [|split].
  - intros ->. reflexivity.
  - intros Hopt Hno. cbv zeta. unfold handle.
    destruct (String.eqb_spec method "OPTIONS") as [E|_]; [contradiction|].
    destruct (String.eqb_spec path "/v1/messages") as [->|Hp1]; cbn [andb].
    + destruct (String.eqb_spec method "POST") as [->|Hm].
      { exfalso. apply Hno. left. reflexivity. }
      cbn. split; reflexivity.
    + destruct (String.eqb_spec path "/v1/models") as [->|Hp2]; cbn [andb].
      * destruct (String.eqb_spec method "GET") as [->|Hm].
        { exfalso. apply Hno. right. left. reflexivity. }
        cbn. split; reflexivity.
      * destruct (String.eqb_spec path "/health") as [->|Hp3]; cbn [andb].
        -- destruct (String.eqb_spec method "GET") as [->|Hm].
           { exfalso. apply Hno. right. right. left. reflexivity. }
           cbn. split; reflexivity.
        -- cbn. split; reflexivity.
  - cbn. repeat split; auto.
Qed.

(** No failure of the messages handler escapes [handle]: a
    [ProxyError] is answered with its own status code, type and message
    in the error body of the Anthropic API, any other error with 500
    [api_error] and its message, a raised value that is no error with 500
    [api_error] and a fixed message; the answer always carries the CORS
    header. *)
Theorem handle_reports_failure (now : Z) (raised : Raised) :
  let response := handle now "POST" "/v1/messages" (inr raised) in
  status response
  = match raised with RaisedProxyError e => statusCode e | _ => 500%Z end
  /\ body response
     = match raised with
       | RaisedProxyError e => errorBody (errorType e) (message e)
       | RaisedError message => errorBody "api_error" message
       | RaisedValue => errorBody "api_error" "Internal server error"
       end
  /\ In ("Access-Control-Allow-Origin", "*") (headers response).
Proof.
  cbv zeta. destruct raised as [e|message|]; cbn; repeat split; auto.
Qed.

(** The checks on the body of a messages request: the rest of the
    handler runs exactly on an object whose [messages] is an array and
    whose [max_tokens] is a number other than 0, an empty array of
    messages included.  Any other body is answered 400
    [invalid_request_error], the check of [messages] coming first, except
    the body [null], which is answered 500 [api_error]; a body that is no
    JSON is answered 500 as well. *)
Theorem handle_validates_body (now : Z) (typeErrorMessage : string) (parsed : JSON + string)
    (proceed : JSON -> Response + Raised) :
  let response :=
    handle now "POST" "/v1/messages" (handleMessages typeErrorMessage parsed proceed) in
  match parsed with
  | inr message => status response = 500%Z /\ body response = errorBody "api_error" message
  | inl JNull =>
      status response = 500%Z /\ body response = errorBody "api_error" typeErrorMessage
  | inl given =>
      match member "messages" (Some given), member "max_tokens" (Some given) with
      | Some (JArr _), Some (JNum n) =>
          if (n =? 0)%Z then
            status response = 400%Z
            /\ body response
               = errorBody "invalid_request_error"
                           "'max_tokens' is required and must be a number."
          else response = handle now "POST" "/v1/messages" (proceed given)
      | Some (JArr _), _ =>
          status response = 400%Z
          /\ body response
             = errorBody "invalid_request_error"
                         "'max_tokens' is required and must be a number."
      | _, _ =>
          status response = 400%Z
          /\ body response
             = errorBody "invalid_request_error"
                         "'messages' is required and must be an array."
      end
  end.
Proof.
  cbv zeta. destruct parsed as [given|message]; [|vm_compute; split; reflexivity].
  unfold handleMessages, validateBody.
  destruct given as [| | | | |o]; cbn [member];
    try (vm_compute; split; reflexivity).
  destruct (get "messages" o) as [[| | | |ms|]|];
    try (vm_compute; split; reflexivity).
  destruct (get "max_tokens" o) as [[| |n| | |]|];
    try (vm_compute; split; reflexivity).
  destruct (n =? 0)%Z; [vm_compute; split; reflexivity | reflexivity].
Qed.

(** An upstream failure reaches the client as an Anthropic error: when
    the messages handler raises what [mapGeminiError] makes of the
    upstream status, the answer has the upstream status, with 403 turned
    into 401, 503 into 529 and any other status of 500 or more into 502,
    and the error body holds the mapped type and message. *)
Theorem handle_upstream_failure (Number_toString : Z -> string)
    (JSON_parse : string -> option JSON) (now upstream : Z)
    (upstreamBody : string) (e : ProxyError) :
  mapGeminiError Number_toString JSON_parse upstream upstreamBody = Some e ->
  let response := handle now "POST" "/v1/messages" (inr (RaisedProxyError e)) in
  status response = (if (upstream =? 403)%Z then 401
                     else if (upstream =? 503)%Z then 529
                     else if (500 <=? upstream)%Z then 502
                     else upstream)%Z
  /\ body response = errorBody (errorType e) (message e)
  /\ ((status response < 500)%Z \/ status response = 502%Z \/ status response = 529%Z).
Proof.
  intros He. cbv zeta.
  pose proof (mapGeminiError_closed Number_toString JSON_parse upstream upstreamBody e He)
    as Hs.
  cbn [handle String.eqb andb errorResponse jsonResponse status body].
  change (handle now "POST" "/v1/messages" (inr (RaisedProxyError e)))
    with (errorResponse e).
  cbn [errorResponse jsonResponse status body]. rewrite Hs.
  split; [reflexivity|]. split; [reflexivity|].
  destruct (Z.eqb_spec upstream 403); [left; lia|].
  destruct (Z.eqb_spec upstream 503); [right; right; reflexivity|].
  destruct (Z.leb_spec 500 upstream); [right; left; reflexivity | left; lia].
Qed.

Lemma handle_upstream_failure_witness :
  let parse := fun _ : string => Some (JObj [("error", JObj [("message", JStr "quota")])]) in
  let response :=
    handle 0 "POST" "/v1/messages"
      (inr (RaisedProxyError (OverloadedError "Gemini API overloaded: quota"))) in
  status response = 529%Z
  /\ body response = errorBody "overloaded_error" "Gemini API overloaded: quota"
  /\ ((status response < 500)%Z \/ status response = 502%Z \/ status response = 529%Z).
Proof.
  cbv zeta.
  exact (handle_upstream_failure decimal
           (fun _ : string => Some (JObj [("error", JObj [("message", JStr "quota")])]))
           0 503 "{}" (OverloadedError "Gemini API overloaded: quota") eq_refl).
Defined.

End RouterExtras.

(* ===================================================================== *)
(** * Buffering of the upstream body: the cuts between reads              *)
(* ===================================================================== *)

Section TextProofs.
Import Text.

Lemma trimStart_snoc l c :
  trimStart (l ++ [c])
  = match trimStart l with
    | [] => if isWhiteSpace c then [] else [c]
    | t => t ++ [c]
    end.
Proof.
  induction l as [|a l IH]; cbn [app trimStart].
  - destruct (isWhiteSpace c); reflexivity.
  - destruct (isWhiteSpace a); [exact IH | reflexivity].
Qed.

Lemma trimEnd_cons c s :
  trimEnd (c :: s)
  = match trimEnd s with
    | [] => if isWhiteSpace c then [] else [c]
    | t => c :: t
    end.
Proof.
  unfold trimEnd. cbn [rev]. rewrite trimStart_snoc.
  destruct (trimStart (rev s)) as [|a t] eqn:E.
  - cbn [rev]. destruct (isWhiteSpace c); reflexivity.
  - rewrite rev_app_distr. cbn [rev app].
    destruct (rev t ++ [a]) eqn:E'; [|reflexivity].
    apply app_eq_nil in E' as [_ E']. discriminate.
Qed.

Lemma trimEnd_cons_keeps c s : isWhiteSpace c = false -> trimEnd (c :: s) = c :: trimEnd s.
Proof. intros H. rewrite trimEnd_cons, H. destruct (trimEnd s); reflexivity. Qed.

Lemma trimEnd_app_keeps front s :
  trimEnd s <> [] -> trimEnd (front ++ s) = front ++ trimEnd s.
Proof.
  intros H. induction front as [|c front IH]; [reflexivity|]. cbn [app].
  rewrite trimEnd_cons, IH. destruct (front ++ trimEnd s) eqn:E; [|reflexivity].
  apply app_eq_nil in E as [_ E]. contradiction.
Qed.

Lemma trimEnd_cons_more c s : trimEnd s <> [] -> trimEnd (c :: s) = c :: trimEnd s.
Proof. intros H. rewrite trimEnd_cons. destruct (trimEnd s); [contradiction | reflexivity]. Qed.

Lemma trim_cons_keeps c s : isWhiteSpace c = false -> trim (c :: s) = c :: trimEnd s.
Proof.
  intros H. unfold trim. cbn [trimStart]. rewrite H. apply trimEnd_cons_keeps. exact H.
Qed.

Lemma trimStart_idem s : trimStart (trimStart s) = trimStart s.
Proof.
  induction s as [|c s IH]; [reflexivity|]. cbn [trimStart].
  destruct (isWhiteSpace c) eqn:E; [exact IH|]. cbn [trimStart]. rewrite E. reflexivity.
Qed.

Lemma trimEnd_idem s : trimEnd (trimEnd s) = trimEnd s.
Proof. unfold trimEnd. rewrite rev_involutive, trimStart_idem. reflexivity. Qed.

Lemma trimStart_suffix s : exists w, s = w ++ trimStart s.
Proof.
  induction s as [|c s [w IH]]; [exists []; reflexivity|]. cbn [trimStart].
  destruct (isWhiteSpace c).
  - exists (c :: w). cbn [app]. rewrite <- IH. reflexivity.
  - exists []. reflexivity.
Qed.

Lemma trimEnd_prefix s : exists w, s = trimEnd s ++ w.
Proof.
  unfold trimEnd. destruct (trimStart_suffix (rev s)) as [w Hw].
  exists (rev w). rewrite <- rev_app_distr, <- Hw, rev_involutive. reflexivity.
Qed.

Lemma trimEnd_snoc_keeps s d : isWhiteSpace d = false -> trimEnd (s ++ [d]) = s ++ [d].
Proof.
  intros H. unfold trimEnd. rewrite rev_app_distr. cbn [rev app trimStart]. rewrite H.
  change (d :: rev s) with ([d] ++ rev s).
  rewrite rev_app_distr, rev_involutive. reflexivity.
Qed.

Lemma trim_blank s : Forall (fun c => c = LF) s -> trim s = [].
Proof.
  intros H. unfold trim.
  assert (Hs : trimStart s = []).
  { induction H as [|c s -> _ IH]; [reflexivity|]. cbn. exact IH. }
  rewrite Hs. reflexivity.
Qed.

Lemma split_line line rest :
  forallb (fun c => negb (c =? LF)%N) line = true ->
  split LF (line ++ LF :: rest) = line :: split LF rest.
Proof.
  induction line as [|c line IH]; intros H; cbn [app split].
  - rewrite N.eqb_refl. reflexivity.
  - cbn in H. apply andb_true_iff in H as [Hc Hl].
    apply negb_true_iff in Hc. rewrite Hc, IH by exact Hl. reflexivity.
Qed.

Lemma split_single line :
  forallb (fun c => negb (c =? LF)%N) line = true -> split LF line = [line].
Proof.
  induction line as [|c line IH]; intros H; cbn [split]; [reflexivity|].
  cbn in H. apply andb_true_iff in H as [Hc Hl].
  apply negb_true_iff in Hc. rewrite Hc, IH by exact Hl. reflexivity.
Qed.

End TextProofs.

Section PayloadProofs.
Import Text StreamBuffer BufferSpec.

Lemma delta_open c : (0 < delta c)%Z -> c = OPEN_BRACE.
Proof.
  unfold delta. destruct (c =? OPEN_BRACE)%N eqn:E; [intros _; apply N.eqb_eq; exact E|].
  destruct (c =? CLOSE_BRACE)%N; intros H; exfalso; lia.
Qed.

Lemma net_app s t : net (s ++ t) = (net s + net t)%Z.
Proof. induction s as [|c s IH]; cbn [app net]; [reflexivity | rewrite IH; lia]. Qed.

Lemma staysOpen_app d s t :
  staysOpen d (s ++ t) = staysOpen d s && staysOpen (d + net s) t.
Proof.
  revert d. induction s as [|c s IH]; intros d; cbn [app staysOpen net].
  - rewrite Z.add_0_r. reflexivity.
  - rewrite IH, andb_assoc, Z.add_assoc. reflexivity.
Qed.

Lemma oneLine_app s t : oneLine (s ++ t) = oneLine s && oneLine t.
Proof. apply forallb_app. Qed.

(** A payload, taken apart. *)
Lemma payload_shape p :
  isPayload p = true ->
  exists front,
    p = front ++ [CLOSE_BRACE]
    /\ staysOpen 0 front = true /\ net front = 1%Z /\ oneLine p = true.
Proof.
  unfold isPayload. intros H.
  apply andb_true_iff in H as [H Hline]. apply andb_true_iff in H as [H Hnet].
  apply andb_true_iff in H as [Hlast Hopen].
  apply bool_decide_eq_true in Hlast. apply Z.eqb_eq in Hnet.
  apply last_Some in Hlast as [front ->]. rewrite removelast_last in Hopen.
  exists front. repeat split; auto.
  rewrite net_app in Hnet. cbn in Hnet. lia.
Qed.

Lemma opens_with_brace d s :
  d = 0%Z -> staysOpen d s = true -> s <> [] -> exists body, s = OPEN_BRACE :: body.
Proof.
  intros -> H Hne. destruct s as [|c body]; [contradiction|].
  cbn in H. apply andb_true_iff in H as [H _]. apply Z.ltb_lt in H.
  exists body. f_equal. apply delta_open. lia.
Qed.

Lemma payload_opens p :
  isPayload p = true -> exists body, p = OPEN_BRACE :: body.
Proof.
  intros H. destruct (payload_shape p H) as (front & -> & Hopen & Hnet & _).
  destruct front as [|c front]; [cbn in Hnet; lia|].
  destruct (opens_with_brace 0 (c :: front) eq_refl Hopen) as [body Hb]; [discriminate|].
  exists (body ++ [CLOSE_BRACE]). rewrite Hb. reflexivity.
Qed.

Lemma payload_trimEnd p : isPayload p = true -> trimEnd p = p.
Proof.
  intros H. destruct (payload_shape p H) as (front & -> & _).
  apply trimEnd_snoc_keeps. reflexivity.
Qed.

(** A proper prefix of a payload lies in its front. *)
Lemma proper_prefix_front front k r :
  front ++ [CLOSE_BRACE] = k ++ r -> r <> [] -> exists r', front = k ++ r'.
Proof.
  intros H Hr. destruct (exists_last Hr) as (r' & x & ->).
  rewrite app_assoc in H. apply app_inj_tail in H as [H _]. exists r'. exact H.
Qed.

Lemma cleaned_open s : cleaned (OPEN_BRACE :: s) = Some (OPEN_BRACE :: trimEnd s).
Proof.
  unfold cleaned. rewrite trim_cons_keeps by reflexivity. cbv zeta.
  replace (startsWith (units ",") (OPEN_BRACE :: trimEnd s)) with false by reflexivity.
  unfold same. rewrite !bool_decide_eq_false_2 by discriminate. reflexivity.
Qed.

Lemma payload_cleaned p : isPayload p = true -> cleaned p = Some p.
Proof.
  intros H. destruct (payload_opens p H) as [body Hb].
  pose proof (payload_trimEnd p H) as Ht. rewrite Hb in Ht |- *.
  rewrite trimEnd_cons_keeps in Ht by reflexivity.
  rewrite cleaned_open. injection Ht as Ht. rewrite Ht. reflexivity.
Qed.

Lemma trim_dataLine s :
  trim (dataLine (OPEN_BRACE :: s)) = dataLine (OPEN_BRACE :: trimEnd s).
Proof.
  unfold dataLine.
  change (units "data: " ++ OPEN_BRACE :: s)
    with (100%N :: [97; 116; 97; 58; 32]%N ++ OPEN_BRACE :: s).
  rewrite trim_cons_keeps by reflexivity.
  rewrite trimEnd_app_keeps; rewrite trimEnd_cons_keeps by reflexivity;
    [reflexivity | discriminate].
Qed.

(** A [data:] line that stops inside its payload hands on what it has. *)
Lemma processLine_partial s :
  processLine (dataLine (OPEN_BRACE :: s)) = [OPEN_BRACE :: trimEnd s].
Proof.
  unfold processLine. rewrite trim_dataLine. cbv zeta.
  unfold same at 1. rewrite bool_decide_eq_false_2 by discriminate.
  replace (startsWith (units "data: ") (dataLine (OPEN_BRACE :: trimEnd s)))
    with true by reflexivity.
  change (substringFrom 6 (dataLine (OPEN_BRACE :: trimEnd s)))
    with (OPEN_BRACE :: trimEnd s).
  rewrite trim_cons_keeps, trimEnd_idem by reflexivity.
  unfold same. rewrite bool_decide_eq_false_2 by discriminate. reflexivity.
Qed.

Lemma processLine_data p : isPayload p = true -> processLine (dataLine p) = [p].
Proof.
  intros H. destruct (payload_opens p H) as [body Hb].
  pose proof (payload_trimEnd p H) as Ht. rewrite Hb in Ht |- *.
  rewrite trimEnd_cons_keeps in Ht by reflexivity. injection Ht as Ht.
  rewrite processLine_partial, Ht. reflexivity.
Qed.

Lemma prefix_take {A} (q r l : list A) : l = q ++ r -> q = take (length q) l.
Proof. intros ->. rewrite take_app_length. reflexivity. Qed.

(** A line that stops inside the [data: ] marker hands on a prefix of
    [data:], if anything. *)
Lemma processLine_marker q r :
  units "data: " = q ++ r ->
  List.Forall (fun t => exists r', units "data:" = t ++ r') (omap cleaned (processLine q)).
Proof.
  intros H. pose proof (prefix_take _ _ _ H) as Hq.
  assert (Hlen : length q <= 6).
  { apply (f_equal (@length N)) in H. rewrite length_app in H. cbn in H. lia. }
  destruct (length q) as [|[|[|[|[|[|[|n]]]]]]]; try lia; rewrite Hq; vm_compute;
    repeat constructor; eexists; reflexivity.
Qed.

End PayloadProofs.

Section LineProofs.
Import Text StreamBuffer BufferSpec.

Lemma handedLines_line line rest :
  oneLine line = true ->
  handedLines (line ++ LF :: rest) = processLine line ++ handedLines rest.
Proof. intros H. unfold handedLines. rewrite split_line by exact H. reflexivity. Qed.

Lemma handedLines_LF rest : handedLines (LF :: rest) = handedLines rest.
Proof. apply (handedLines_line [] rest). reflexivity. Qed.

Lemma handedLines_pad pad rest :
  Forall (fun c => c = LF) pad -> handedLines (pad ++ rest) = handedLines rest.
Proof.
  intros H. induction H as [|c pad -> _ IH]; [reflexivity|].
  cbn [app]. rewrite handedLines_LF. exact IH.
Qed.

Lemma handedLines_single line : oneLine line = true -> handedLines line = processLine line.
Proof.
  intros H. unfold handedLines. rewrite split_single by exact H.
  cbn [List.map List.concat]. apply app_nil_r.
Qed.

Lemma handedLines_blank pad : Forall (fun c => c = LF) pad -> handedLines pad = [].
Proof.
  intros H. rewrite <- (app_nil_r pad), handedLines_pad by exact H. reflexivity.
Qed.

Lemma dataLine_oneLine p : isPayload p = true -> oneLine (dataLine p) = true.
Proof.
  intros H. destruct (payload_shape p H) as (_ & _ & _ & _ & Hline).
  unfold dataLine. rewrite oneLine_app, Hline. reflexivity.
Qed.

Lemma handedLines_data p rest :
  isPayload p = true ->
  rest = [] \/ (exists rest', rest = LF :: rest') ->
  handedLines (dataLine p ++ rest) = p :: handedLines rest.
Proof.
  intros H [-> | [rest' ->]].
  - rewrite app_nil_r, handedLines_single by (apply dataLine_oneLine; exact H).
    rewrite processLine_data by exact H. reflexivity.
  - rewrite handedLines_line by (apply dataLine_oneLine; exact H).
    rewrite processLine_data, handedLines_LF by exact H. reflexivity.
Qed.

Lemma short_starts pending tail :
  Short [LF; LF] pending tail -> tail = [] \/ (exists rest, tail = LF :: rest).
Proof.
  intros [[r H] | (p & rest & q & r & _ & -> & _)].
  - destruct tail as [|c tail]; [left; reflexivity|].
    right. injection H as <- _. exists tail. reflexivity.
  - right. eexists. reflexivity.
Qed.

Lemma padAfter_LF pad done :
  Forall (fun c => c = LF) pad -> Forall (fun c => c = LF) (padAfter pad done).
Proof. intros H. destruct done; [exact H | repeat constructor]. Qed.

Lemma padAfter_more done : padAfter [LF; LF] done = [LF; LF].
Proof. destruct done; reflexivity. Qed.

Lemma handedLines_received done : forall pad pending tail,
  Forall (fun c => c = LF) pad ->
  Forall (fun p => isPayload p = true) done ->
  Short (padAfter pad done) pending tail ->
  handedLines (received pad done ++ tail) = done ++ handedLines tail.
Proof.
  induction done as [|p more IH]; intros pad pending tail Hpad Hdone Hshort.
  - reflexivity.
  - inversion Hdone as [|? ? Hp Hmore]; subst.
    cbn [received padAfter] in *. rewrite <- !app_assoc.
    rewrite handedLines_pad by exact Hpad.
    rewrite handedLines_data; [| exact Hp |].
    + rewrite (IH [LF; LF] pending tail); [reflexivity | repeat constructor | exact Hmore |].
      rewrite padAfter_more. exact Hshort.
    + destruct more as [|p' more'].
      * cbn [received app]. eapply short_starts. exact Hshort.
      * right. cbn [received app]. eexists. reflexivity.
Qed.

Section Junk.
Variable parse : Str -> option StreamConverter.Chunk.
Hypothesis rejects_marker : forall q r, units "data:" = q ++ r -> parse q = None.

(** What a buffer that stops before the end of a payload hands to
    [JSON.parse] is rejected. *)
Lemma short_rejected pad pending tail :
  Forall (fun c => c = LF) pad ->
  Forall (fun p => isPayload p = true) pending ->
  Forall (RejectsPrefixes parse) pending ->
  Short pad pending tail ->
  List.Forall (fun t => parse t = None) (omap cleaned (handedLines tail)).
Proof.
  intros Hpad Hpay Hrej [[r H] | (p & rest & q & r & -> & -> & Hq & Hr)].
  - rewrite handedLines_blank; [constructor|].
    rewrite H in Hpad. apply Forall_app in Hpad as [Hb _]. exact Hb.
  - inversion Hpay as [|? ? Hp _]; subst. inversion Hrej as [|? ? Hrp _]; subst.
    rewrite handedLines_pad by exact Hpad.
    assert (Hline : oneLine q = true).
    { pose proof (dataLine_oneLine p Hp) as Hl. rewrite Hq, oneLine_app in Hl.
      apply andb_true_iff in Hl as [Hl _]. exact Hl. }
    rewrite handedLines_single by exact Hline.
    unfold dataLine in Hq. symmetry in Hq.
    apply app_eq_app in Hq as [k [[Hk Hp'] | [Hk Hr']]].
    + (* inside the payload *)
      destruct k as [|c s].
      * rewrite app_nil_r in Hk. subst q.
        eapply List.Forall_impl; [| apply (processLine_marker _ [])].
        -- intros t [r' Ht]. eapply rejects_marker. exact Ht.
        -- rewrite app_nil_r. reflexivity.
      * destruct (payload_shape p Hp) as (front & Hfront & Hopen & _).
        rewrite Hfront in Hp'.
        destruct (proper_prefix_front _ _ _ Hp' Hr) as [r' Hf].
        rewrite Hf, staysOpen_app in Hopen. apply andb_true_iff in Hopen as [Hopen _].
        destruct (opens_with_brace 0 (c :: s) eq_refl Hopen) as [body Hbody]; [discriminate|].
        injection Hbody as -> ->. subst q.
        change (units "data: " ++ OPEN_BRACE :: body) with (dataLine (OPEN_BRACE :: body)).
        rewrite processLine_partial.
        change (omap cleaned [OPEN_BRACE :: trimEnd body])
          with (match cleaned (OPEN_BRACE :: trimEnd body) with
                | Some y => [y] | None => [] end).
        rewrite cleaned_open, trimEnd_idem. constructor; [|constructor].
        destruct (trimEnd_prefix (OPEN_BRACE :: body)) as [w Hw].
        rewrite trimEnd_cons_keeps in Hw by reflexivity.
        apply (Hrp _ (w ++ r)).
        -- rewrite app_assoc, <- Hw, Hfront. exact Hp'.
        -- intros E. apply app_eq_nil in E as [_ E]. contradiction.
    + (* inside the marker *)
      eapply List.Forall_impl; [| apply (processLine_marker q k); exact Hk].
      intros t [r' Ht]. eapply rejects_marker. exact Ht.
Qed.

End Junk.

End LineProofs.

Section ScanProofs.
Import Text StreamBuffer BufferSpec.

Lemma scan_plain s : forall i rest d last,
  Forall (fun c => delta c = 0%Z) s ->
  lastCompleteFrom i (s ++ rest) d last = lastCompleteFrom (i + length s) rest d last.
Proof.
  induction s as [|c s IH]; intros i rest d last H; cbn [app length].
  - rewrite Nat.add_0_r. reflexivity.
  - inversion H as [|? ? Hc Hs]; subst. cbn [lastCompleteFrom].
    unfold delta in Hc.
    destruct (c =? OPEN_BRACE)%N; [discriminate|].
    destruct (c =? CLOSE_BRACE)%N; [discriminate|].
    rewrite IH by exact Hs. f_equal. lia.
Qed.

Lemma scan_open s : forall i rest d last,
  staysOpen d s = true ->
  lastCompleteFrom i (s ++ rest) d last
  = lastCompleteFrom (i + length s) rest (d + net s) last.
Proof.
  induction s as [|c s IH]; intros i rest d last H; cbn [app length net].
  - rewrite Nat.add_0_r, Z.add_0_r. reflexivity.
  - cbn [staysOpen] in H. apply andb_true_iff in H as [Hc Hs]. apply Z.ltb_lt in Hc.
    cbn [lastCompleteFrom]. unfold delta in Hc, Hs |- *.
    destruct (c =? OPEN_BRACE)%N.
    + rewrite IH by exact Hs. f_equal; lia.
    + destruct (c =? CLOSE_BRACE)%N.
      * replace (d - 1 =? 0)%Z with false by (symmetry; apply Z.eqb_neq; lia).
        change (d + -1)%Z with (d - 1)%Z in Hs.
        rewrite IH by exact Hs. f_equal; lia.
      * rewrite Z.add_0_r in Hs. rewrite IH by exact Hs. f_equal; lia.
Qed.

Lemma scan_payload p i rest last :
  isPayload p = true ->
  lastCompleteFrom i (p ++ rest) 0 last
  = lastCompleteFrom (i + length p) rest 0 (Z.of_nat (i + length p)).
Proof.
  intros H. destruct (payload_shape p H) as (front & -> & Hopen & Hnet & _).
  rewrite <- app_assoc, scan_open by exact Hopen.
  cbn [app lastCompleteFrom]. rewrite Hnet.
  replace (CLOSE_BRACE =? OPEN_BRACE)%N with false by reflexivity.
  replace (CLOSE_BRACE =? CLOSE_BRACE)%N with true by reflexivity.
  change (0 + 1 - 1 =? 0)%Z with true. cbv iota. rewrite length_app. cbn [length].
  f_equal; lia.
Qed.

Lemma LF_plain pad : Forall (fun c => c = LF) pad -> Forall (fun c => delta c = 0%Z) pad.
Proof. intros H. eapply List.Forall_impl; [|exact H]. intros c ->. reflexivity. Qed.

Lemma marker_plain : Forall (fun c => delta c = 0%Z) (units "data: ").
Proof. repeat constructor. Qed.

Lemma scan_short pad pending tail i last :
  Forall (fun c => c = LF) pad ->
  Forall (fun p => isPayload p = true) pending ->
  Short pad pending tail ->
  lastCompleteFrom i tail 0 last = last.
Proof.
  intros Hpad Hpay [[r H] | (p & rest & q & r & -> & -> & Hq & Hr)].
  - rewrite H in Hpad. apply Forall_app in Hpad as [Hb _].
    rewrite <- (app_nil_r tail), scan_plain by (apply LF_plain; exact Hb). reflexivity.
  - inversion Hpay as [|? ? Hp _]; subst.
    rewrite scan_plain by (apply LF_plain; exact Hpad).
    unfold dataLine in Hq. symmetry in Hq.
    apply app_eq_app in Hq as [k [[Hk Hp'] | [Hk Hr']]].
    + subst q. rewrite scan_plain by exact marker_plain.
      destruct (payload_shape p Hp) as (front & Hfront & Hopen & _).
      rewrite Hfront in Hp'.
      destruct (proper_prefix_front _ _ _ Hp' Hr) as [r' Hf].
      rewrite Hf, staysOpen_app in Hopen. apply andb_true_iff in Hopen as [Hopen _].
      rewrite <- (app_nil_r k), scan_open by exact Hopen. reflexivity.
    + pose proof marker_plain as Hm. rewrite Hk in Hm. apply Forall_app in Hm as [Hm _].
      rewrite <- (app_nil_r q), scan_plain by exact Hm. reflexivity.
Qed.

Lemma scan_received done : forall pad pending tail i last,
  Forall (fun c => c = LF) pad ->
  Forall (fun p => isPayload p = true) done ->
  Forall (fun p => isPayload p = true) pending ->
  Short (padAfter pad done) pending tail ->
  lastCompleteFrom i (received pad done ++ tail) 0 last
  = match done with
    | [] => last
    | _ :: _ => Z.of_nat (i + length (received pad done))
    end.
Proof.
  induction done as [|p more IH]; intros pad pending tail i last Hpad Hdone Hpend Hshort.
  - cbn [received app padAfter] in *. eapply scan_short; eassumption.
  - inversion Hdone as [|? ? Hp Hmore]; subst.
    cbn [received padAfter] in *. unfold dataLine. rewrite <- !app_assoc.
    rewrite scan_plain by (apply LF_plain; exact Hpad).
    rewrite scan_plain by exact marker_plain.
    rewrite scan_payload by exact Hp.
    rewrite (IH [LF; LF] pending tail);
      [| repeat constructor | exact Hmore | exact Hpend | rewrite padAfter_more; exact Hshort].
    rewrite !length_app.
    destruct more; cbn [received length]; f_equal; lia.
Qed.

Lemma kept_received pad done pending tail :
  Forall (fun c => c = LF) pad ->
  Forall (fun p => isPayload p = true) done ->
  Forall (fun p => isPayload p = true) pending ->
  Short (padAfter pad done) pending tail ->
  kept (received pad done ++ tail) = tail.
Proof.
  intros Hpad Hdone Hpend Hshort. unfold kept, findLastCompleteJson.
  rewrite (scan_received done pad pending tail) by assumption.
  destruct done as [|p more]; [reflexivity|].
  replace (0 <=? Z.of_nat (0 + length (received pad (p :: more))))%Z with true
    by (symmetry; apply Z.leb_le; lia).
  rewrite Nat2Z.id. unfold substringFrom. cbn [Nat.add].
  apply drop_app_length.
Qed.

(** A buffer that is a prefix of the rest of the body, taken apart: the
    payloads it holds in full, and what follows them. *)
Lemma received_split pending : forall pad b rest,
  b ++ rest = pad ++ frame pending ->
  exists done pending' tail,
    pending = done ++ pending'
    /\ b = received pad done ++ tail
    /\ Short (padAfter pad done) pending' tail
    /\ tail ++ rest = padAfter pad done ++ frame pending'.
Proof.
  induction pending as [|p more IH]; intros pad b rest H.
  - exists [], [], b. cbn [frame List.map List.concat] in H. rewrite app_nil_r in H.
    split; [reflexivity|]. split; [reflexivity|]. split.
    + left. exists rest. symmetry. exact H.
    + cbn. rewrite app_nil_r. exact H.
  - apply app_eq_app in H as [k [[Hb Hrest] | [Hpad Hrest]]].
    + (* past the padding *)
      change (frame (p :: more)) with (event p ++ frame more) in Hrest.
      unfold event in Hrest. rewrite <- app_assoc in Hrest. symmetry in Hrest.
      apply app_eq_app in Hrest as [k' [[Hk Hrest'] | [Hk Hrest']]].
      * (* past the payload *)
        destruct (IH [LF; LF] k' rest) as (done & pending' & tail & Hpend & Hk' & Hshort & Htail).
        { symmetry. exact Hrest'. }
        exists (p :: done), pending', tail. cbn [padAfter received].
        rewrite padAfter_more in Hshort, Htail.
        split; [rewrite Hpend; reflexivity|].
        split; [rewrite Hb, Hk, Hk', <- !app_assoc; reflexivity|].
        split; [exact Hshort | exact Htail].
      * destruct k' as [|c k'].
        -- (* at the end of the payload *)
           rewrite app_nil_r in Hk. cbn [app] in Hrest'.
           exists [p], more, []. cbn [padAfter received app].
           split; [reflexivity|].
           split; [rewrite Hb, <- Hk, !app_nil_r; reflexivity|].
           split; [left; exists [LF; LF]; reflexivity | exact Hrest'].
        -- exists [], (p :: more), b. cbn [padAfter received app].
           split; [reflexivity|]. split; [reflexivity|]. split.
           ++ right. exists p, more, k, (c :: k').
              split; [reflexivity|]. split; [exact Hb|]. split; [exact Hk | discriminate].
           ++ rewrite Hb, <- app_assoc, Hrest'.
              change (frame (p :: more)) with (event p ++ frame more).
              unfold event. rewrite Hk, <- !app_assoc. reflexivity.
    + exists [], (p :: more), b. cbn [padAfter received app].
      split; [reflexivity|]. split; [reflexivity|]. split.
      * left. exists k. exact Hpad.
      * rewrite Hpad, Hrest, <- app_assoc. reflexivity.
Qed.

(** A buffer that stops before the end of a payload and holds all that
    is left of the body holds line feeds only. *)
Lemma short_whole pad pending b :
  Short pad pending b -> b = pad ++ frame pending ->
  pending = [] /\ b = pad.
Proof.
  intros [[r H] | (p & rest & q & r & -> & -> & Hq & Hr)] Hb.
  - assert (Hlen : length (frame pending) = 0).
    { apply (f_equal (@length N)) in H, Hb. rewrite length_app in H, Hb. lia. }
    destruct pending as [|p more]; [| cbn in Hlen; lia].
    rewrite Hb. cbn. rewrite app_nil_r. auto.
  - exfalso. apply app_inv_head in Hb.
    change (frame (p :: rest)) with (event p ++ frame rest) in Hb.
    unfold event in Hb. rewrite Hq in Hb.
    apply (f_equal (@length N)) in Hb. rewrite !length_app in Hb.
    destruct r; [contradiction | cbn in Hb; lia].
Qed.

End ScanProofs.

Section Chunking.
Import Text StreamBuffer BufferSpec.
Variable parse : Str -> option StreamConverter.Chunk.
Variable ids : nat -> string.
Hypothesis rejects_marker : forall q r, units "data:" = q ++ r -> parse q = None.

Lemma processBuffer_payloads done lines :
  Forall (fun p => isPayload p = true) done ->
  omap cleaned (done ++ lines) = done ++ omap cleaned lines.
Proof.
  intros H. induction H as [|p more Hp _ IH]; [reflexivity|].
  change (omap cleaned ((p :: more) ++ lines))
    with (match cleaned p with
          | Some y => y :: omap cleaned (more ++ lines)
          | None => omap cleaned (more ++ lines)
          end).
  rewrite payload_cleaned, IH by exact Hp. reflexivity.
Qed.

Lemma processBuffer_rejected junk st :
  List.Forall (fun t => parse t = None) junk ->
  StreamConverter.processBuffer ids (List.map (candidate parse) junk) st = st.
Proof.
  intros H. induction H as [|t junk Ht _ IH]; [reflexivity|].
  assert (Hc : candidate parse t = StreamConverter.Unparseable)
    by (unfold candidate; rewrite Ht; reflexivity).
  cbn [List.map]. unfold StreamConverter.processBuffer in *. cbn [fold_left].
  rewrite Hc. exact IH.
Qed.

Lemma processBuffer_app a b st :
  StreamConverter.processBuffer ids (a ++ b) st
  = StreamConverter.processBuffer ids b (StreamConverter.processBuffer ids a st).
Proof. unfold StreamConverter.processBuffer. apply fold_left_app. Qed.

(** One read: the payloads that the buffer now holds in full are handed
    on, and the buffer is cut after the last of them. *)
Lemma read_step pad pending b rest st :
  Forall (fun c => c = LF) pad ->
  Forall (fun p => isPayload p = true) pending ->
  Forall (RejectsPrefixes parse) pending ->
  b ++ rest = pad ++ frame pending ->
  exists done pending' pad',
    pending = done ++ pending'
    /\ Forall (fun c => c = LF) pad'
    /\ Short pad' pending' (kept b)
    /\ kept b ++ rest = pad' ++ frame pending'
    /\ StreamConverter.processBuffer ids (List.map (candidate parse) (processBuffer b)) st
       = StreamConverter.processBuffer ids (List.map (candidate parse) done) st.
Proof.
  intros Hpad Hpay Hrej H.
  destruct (received_split pending pad b rest H)
    as (done & pending' & tail & Hpend & Hb & Hshort & Htail).
  rewrite Hpend in Hpay, Hrej.
  apply Forall_app in Hpay as [Hdone Hpay]. apply Forall_app in Hrej as [_ Hrej].
  pose proof (padAfter_LF pad done Hpad) as Hpad'.
  exists done, pending', (padAfter pad done).
  rewrite Hb, (kept_received pad done pending' tail) by assumption.
  split; [exact Hpend|]. split; [exact Hpad'|]. split; [exact Hshort|].
  split; [exact Htail|].
  unfold processBuffer. fold (handedLines (received pad done ++ tail)).
  rewrite (handedLines_received done pad pending' tail) by assumption.
  rewrite processBuffer_payloads by exact Hdone.
  rewrite List.map_app, processBuffer_app. apply processBuffer_rejected.
  eapply short_rejected; eassumption.
Qed.

(** The reads of a body, whatever way it is cut: each payload is handed
    on once, in order, and nothing is left at the end. *)
Lemma readAll_frames values : forall pad pending b st,
  Forall (fun c => c = LF) pad ->
  Forall (fun p => isPayload p = true) pending ->
  Forall (RejectsPrefixes parse) pending ->
  Short pad pending b ->
  b ++ List.concat values = pad ++ frame pending ->
  fold_left (fun st decoded => StreamConverter.processBuffer ids decoded st)
            (fst (readAll parse b values)) st
  = StreamConverter.processBuffer ids (List.map (candidate parse) pending) st
  /\ leftover parse (snd (readAll parse b values)) = None.
Proof.
  induction values as [|value values IH]; intros pad pending b st Hpad Hpay Hrej Hshort H.
  - cbn [List.concat] in H. rewrite app_nil_r in H.
    destruct (short_whole pad pending b Hshort H) as [-> ->].
    cbn [readAll fst snd fold_left List.map]. split; [reflexivity|].
    unfold leftover. rewrite trim_blank by exact Hpad. reflexivity.
  - cbn [List.concat] in H. rewrite app_assoc in H.
    destruct (read_step pad pending (b ++ value) (List.concat values) st Hpad Hpay Hrej H)
      as (done & pending' & pad' & Hpend & Hpad' & Hshort' & Hkept & Hrun).
    rewrite Hpend in Hpay, Hrej.
    apply Forall_app in Hpay as [_ Hpay]. apply Forall_app in Hrej as [_ Hrej].
    cbn [readAll]. fold (kept (b ++ value)).
    specialize (IH pad' pending' (kept (b ++ value))
                   (StreamConverter.processBuffer ids (List.map (candidate parse) done) st)
                   Hpad' Hpay Hrej Hshort' Hkept).
    destruct (readAll parse (kept (b ++ value)) values) as [more final].
    cbn [fst snd fold_left] in *. destruct IH as [IHrun IHleft].
    split; [| exact IHleft].
    rewrite Hrun, IHrun, Hpend, List.map_app, processBuffer_app. reflexivity.
Qed.

Lemma pull_reads reads : forall st,
  StreamConverter.pull ids (List.map StreamConverter.ReadData reads) None st
  = StreamConverter.pull ids [] None
      (fold_left (fun st decoded => StreamConverter.processBuffer ids decoded st) reads st).
Proof.
  induction reads as [|decoded reads IH]; intros st; [reflexivity|].
  cbn [List.map StreamConverter.pull fold_left]. apply IH.
Qed.

End Chunking.

Section ChunkingExtras.
Import Text StreamBuffer BufferSpec.

Lemma unbalanced_shape p :
  isUnbalanced p = true ->
  exists body,
    p = OPEN_BRACE :: body /\ trimEnd body = body
    /\ staysOpen 0 p = true /\ oneLine p = true.
Proof.
  unfold isUnbalanced. intros H.
  apply andb_true_iff in H as [H Hline]. apply andb_true_iff in H as [Hlast Hopen].
  apply bool_decide_eq_true in Hlast. apply last_Some in Hlast as [front Hfront].
  destruct (opens_with_brace 0 p eq_refl Hopen) as [body Hbody].
  { rewrite Hfront. intros E. apply app_eq_nil in E as [_ E]. discriminate. }
  exists body. split; [exact Hbody|]. split; [| split; assumption].
  assert (Ht : trimEnd p = p) by (rewrite Hfront; apply trimEnd_snoc_keeps; reflexivity).
  rewrite Hbody, trimEnd_cons_keeps in Ht by reflexivity. injection Ht as Ht. exact Ht.
Qed.

(** However the upstream body is cut into reads, the stream sent is the
    one of a single read that holds every payload once, in order. The
    body is a sequence of [data:] events whose payloads are single lines
    that are one object for the brace count of [findLastCompleteJson],
    and [JSON.parse] rejects the pieces of an event that a cut can leave:
    the prefixes of [data:] and the proper prefixes of a payload. *)
Theorem convertStream_any_chunking
    (parse : Str -> option StreamConverter.Chunk) (ids : nat -> string)
    (svc : ThoughtSignature.Service) (payloads values : list Str) :
  Forall (fun p => isPayload p = true) payloads ->
  (forall q r, units "data:" = q ++ r -> parse q = None) ->
  Forall (RejectsPrefixes parse) payloads ->
  List.concat values = frame payloads ->
  StreamBuffer.convertStream parse ids svc values
  = StreamConverter.convertStream ids svc
      [StreamConverter.ReadData (List.map (candidate parse) payloads)] None.
Proof.
  intros Hpay Hmarker Hrej Hbody.
  destruct (readAll_frames parse ids Hmarker values [] payloads []
              (StreamConverter.initial svc)) as [Hrun Hleft]; auto.
  { left. exists []. reflexivity. }
  unfold StreamBuffer.convertStream.
  destruct (readAll parse [] values) as [reads final]. cbn [fst snd] in Hrun, Hleft.
  rewrite Hleft. unfold StreamConverter.convertStream.
  rewrite pull_reads, Hrun. reflexivity.
Qed.

Lemma convertStream_any_chunking_witness :
  let payload := [123; 125]%N in
  let chunk := StreamConverter.mkChunk None (Some []) in
  let parse := onlyParses payload chunk in
  let values := [units "dat"; units "a: " ++ [123]; [125; 10]; [10]]%N in
  isPayload payload = true
  /\ List.concat values = frame [payload]
  /\ StreamBuffer.convertStream parse (fun _ => "toolu_0") ThoughtSignature.fresh values
     = StreamConverter.convertStream (fun _ => "toolu_0") ThoughtSignature.fresh
         [StreamConverter.ReadData [StreamConverter.Parsed chunk]] None.
Proof.
  cbv zeta. split; [reflexivity|]. split; [reflexivity|].
  refine (convertStream_any_chunking
            (onlyParses [123; 125]%N (StreamConverter.mkChunk None (Some [])))
            (fun _ => "toolu_0") ThoughtSignature.fresh [[123; 125]%N]
            [units "dat"; units "a: " ++ [123]; [125; 10]; [10]]%N _ _ _ eq_refl).
  - repeat constructor.
  - intros q r H. unfold onlyParses, same.
    rewrite bool_decide_eq_false_2; [reflexivity|].
    intros ->. discriminate.
  - repeat constructor. intros q r H Hr. unfold onlyParses, same.
    rewrite bool_decide_eq_false_2; [reflexivity|].
    intros ->. injection H as H. apply Hr. symmetry. exact H.
Defined.

(** A payload whose braces do not balance, as when a string in it holds
    an opening brace, is never cut from the buffer: the read after the
    one that brought its event hands it to [JSON.parse] a second time. *)
Theorem unbalanced_payload_replayed
    (parse : Str -> option StreamConverter.Chunk) (payload value : Str) :
  isUnbalanced payload = true ->
  findLastCompleteJson (event payload) = (-1)%Z
  /\ exists more,
       fst (readAll parse [] [event payload; value])
       = [[candidate parse payload]; candidate parse payload :: more].
Proof.
  intros H. destruct (unbalanced_shape payload H) as (body & Hp & Htrim & Hopen & Hline).
  assert (Hscan : findLastCompleteJson (event payload) = (-1)%Z).
  { unfold findLastCompleteJson, event, dataLine. rewrite <- app_assoc.
    rewrite scan_plain by exact marker_plain.
    rewrite scan_open by exact Hopen.
    rewrite <- (app_nil_r [LF; LF]), scan_plain by (repeat constructor). reflexivity. }
  assert (Hlines : forall rest,
            processBuffer (event payload ++ rest) = payload :: omap cleaned (handedLines rest)).
  { intros rest. unfold processBuffer. fold (handedLines (event payload ++ rest)).
    unfold event. rewrite <- app_assoc. cbn [app].
    rewrite handedLines_line
      by (unfold dataLine; rewrite oneLine_app, Hline; reflexivity).
    rewrite handedLines_LF, Hp, processLine_partial, Htrim. cbn [app].
    change (omap cleaned ((OPEN_BRACE :: body) :: handedLines rest))
      with (match cleaned (OPEN_BRACE :: body) with
            | Some y => y :: omap cleaned (handedLines rest)
            | None => omap cleaned (handedLines rest)
            end).
    rewrite cleaned_open, Htrim. reflexivity. }
  split; [exact Hscan|].
  exists (List.map (candidate parse) (omap cleaned (handedLines value))).
  cbn [readAll app]. rewrite Hscan. cbn [Z.leb Z.compare].
  pose proof (Hlines []) as H0. rewrite app_nil_r in H0. rewrite H0.
  rewrite Hlines.
  destruct (0 <=? findLastCompleteJson (event payload ++ value))%Z; reflexivity.
Qed.

Lemma unbalanced_payload_replayed_witness :
  (* an object whose only value is the string of one opening brace *)
  let payload := [123; 34; 97; 34; 58; 34; 123; 34; 125]%N in
  let parse := onlyParses payload (StreamConverter.mkChunk None (Some [])) in
  isUnbalanced payload = true
  /\ findLastCompleteJson (event payload) = (-1)%Z
  /\ exists more,
       fst (readAll parse [] [event payload; event [123; 125]%N])
       = [[candidate parse payload]; candidate parse payload :: more].
Proof.
  cbv zeta. split; [reflexivity|].
  exact (unbalanced_payload_replayed
           (onlyParses [123; 34; 97; 34; 58; 34; 123; 34; 125]%N
                       (StreamConverter.mkChunk None (Some [])))
           [123; 34; 97; 34; 58; 34; 123; 34; 125]%N (event [123; 125]%N) eq_refl).
Defined.

End ChunkingExtras.
